(** * optimizer-cv: the job-description extraction of [src/index.js]

    A shallow embedding of [baixarDescricaoVaga] and of the functions it
    calls ([extrairJobIdDoLink], [construirLinkVaga]), together with the
    properties of the extraction heuristic.

    - JavaScript strings are sequences of UTF-16 code units ([jsstring]);
      [length] is the [.length] of the source.
    - The rendered page is a tree of DOM nodes; [innerText] is what the
      rendering engine reports for an element and is part of the snapshot,
      [textContent] is computed from the text nodes.
    - The code runs in a monad that records the calls made to the page and
      carries JavaScript exceptions. *)

From Stdlib Require Import String Ascii NArith List Bool Arith Lia.
Import ListNotations.

Set Implicit Arguments.

Open Scope string_scope.
Open Scope list_scope.
Open Scope nat_scope.

(** ** JavaScript strings *)

Definition jsstring := list N.

(** String literals of this file are UTF-8; [js] decodes them into the
    UTF-16 code units the JavaScript engine sees. *)

Fixpoint bytes_of (s : string) : list N :=
  match s with
  | EmptyString => []
  | String a r => N_of_ascii a :: bytes_of r
  end.

Definition cont (b : N) : N := (b - 128)%N.

Fixpoint utf16_of_utf8 (bs : list N) : jsstring :=
  match bs with
  | [] => []
  | b0 :: r =>
      if (b0 <? 128)%N then b0 :: utf16_of_utf8 r
      else if (b0 <? 224)%N then
        match r with
        | b1 :: r1 => ((b0 - 192) * 64 + cont b1)%N :: utf16_of_utf8 r1
        | [] => [65533%N]
        end
      else if (b0 <? 240)%N then
        match r with
        | b1 :: b2 :: r2 =>
            ((b0 - 224) * 4096 + cont b1 * 64 + cont b2)%N :: utf16_of_utf8 r2
        | _ => [65533%N]
        end
      else
        match r with
        | b1 :: b2 :: b3 :: r3 =>
            let cp := ((b0 - 240) * 262144 + cont b1 * 4096
                       + cont b2 * 64 + cont b3 - 65536)%N in
            (55296 + cp / 1024)%N :: (56320 + cp mod 1024)%N
              :: utf16_of_utf8 r3
        | _ => [65533%N]
        end
  end.

Definition js (s : string) : jsstring := utf16_of_utf8 (bytes_of s).

Definition jseqb (a b : jsstring) : bool :=
  if list_eq_dec N.eq_dec a b then true else false.

(** [a || b] on strings: the empty string is falsy. *)
Definition js_or (a b : jsstring) : jsstring :=
  match a with
  | [] => b
  | _ :: _ => a
  end.

Infix "|||" := js_or (at level 50, left associativity).

(** WhiteSpace and LineTerminator code points of ECMAScript, the set
    [String.prototype.trim] strips. *)
Definition isWhiteSpace (c : N) : bool :=
  ((9 <=? c) && (c <=? 13) || (c =? 32) || (c =? 160) || (c =? 5760)
   || (8192 <=? c) && (c <=? 8202) || (c =? 8232) || (c =? 8233)
   || (c =? 8239) || (c =? 8287) || (c =? 12288) || (c =? 65279))%N.

Fixpoint trimStart (s : jsstring) : jsstring :=
  match s with
  | [] => []
  | c :: r => if isWhiteSpace c then trimStart r else s
  end.

Definition trimEnd (s : jsstring) : jsstring := rev (trimStart (rev s)).

Definition trim (s : jsstring) : jsstring := trimEnd (trimStart s).

Fixpoint startsWith (pat s : jsstring) : bool :=
  match pat, s with
  | [], _ => true
  | _ :: _, [] => false
  | p :: pat', c :: s' => (p =? c)%N && startsWith pat' s'
  end.

(** [s.includes(pat)] *)
Fixpoint includes (s pat : jsstring) : bool :=
  startsWith pat s ||
  match s with
  | [] => false
  | _ :: r => includes r pat
  end.

(** [s.split("\n")]: the pieces between line feeds. *)
Fixpoint split_lines (s : jsstring) : list jsstring :=
  match s with
  | [] => [[]]
  | c :: r =>
      if (c =? 10)%N then [] :: split_lines r
      else match split_lines r with
           | [] => [[c]]
           | l :: ls => (c :: l) :: ls
           end
  end.

(** [parts.join(sep)] *)
Fixpoint join (sep : jsstring) (parts : list jsstring) : jsstring :=
  match parts with
  | [] => []
  | [p] => p
  | p :: rest => p ++ sep ++ join sep rest
  end.

Definition isDigit (c : N) : bool := ((48 <=? c) && (c <=? 57))%N.

Fixpoint takeDigits (s : jsstring) : jsstring :=
  match s with
  | [] => []
  | c :: r => if isDigit c then c :: takeDigits r else []
  end.

(** [s.match(/prefix(\d+)/)]: the capture group of the leftmost match. *)
Fixpoint matchDigitsAfter (prefix s : jsstring) : option jsstring :=
  let here :=
    if startsWith prefix s then
      match takeDigits (skipn (length prefix) s) with
      | [] => None
      | d => Some d
      end
    else None in
  match here with
  | Some d => Some d
  | None => match s with
            | [] => None
            | _ :: r => matchDigitsAfter prefix r
            end
  end.

(** Case-insensitive comparison of the regular expressions of the source
    (flag [i], no flag [u]): both characters are canonicalised through
    their upper case.  The patterns of the source contain only Basic Latin
    letters, the space, the hyphen and U+00ED; on comparisons against those
    this table agrees with ECMAScript's Canonicalize. *)
Definition canonicalize (c : N) : N :=
  if ((97 <=? c) && (c <=? 122))%N then (c - 32)%N
  else if ((224 <=? c) && (c <=? 254) && negb (c =? 247))%N then (c - 32)%N
  else c.

Definition char_match (ignoreCase : bool) (p c : N) : bool :=
  if ignoreCase then (canonicalize p =? canonicalize c)%N else (p =? c)%N.

Fixpoint matchesAt (ignoreCase : bool) (pat s : jsstring) : bool :=
  match pat, s with
  | [], _ => true
  | _ :: _, [] => false
  | p :: pat', c :: s' => char_match ignoreCase p c && matchesAt ignoreCase pat' s'
  end.

(** [s.replace(/pat/g, "")] for a literal, non-empty pattern: every
    leftmost, non-overlapping occurrence is removed.  [skip] counts the code
    units of the current occurrence still to be dropped. *)
Fixpoint removeAll_from (ignoreCase : bool) (pat : jsstring) (skip : nat)
    (s : jsstring) : jsstring :=
  match s with
  | [] => []
  | c :: r =>
      match skip with
      | S k => removeAll_from ignoreCase pat k r
      | O =>
          if matchesAt ignoreCase pat s
          then removeAll_from ignoreCase pat (length pat - 1) r
          else c :: removeAll_from ignoreCase pat 0 r
      end
  end.

Definition removeAll (ignoreCase : bool) (pat s : jsstring) : jsstring :=
  removeAll_from ignoreCase pat 0 s.

(** A string that [trim] leaves alone: empty, or with a first and a last
    code unit that are not white space. *)
Definition comecaBem (s : jsstring) : Prop :=
  match s with
  | [] => True
  | c :: _ => isWhiteSpace c = false
  end.

Definition terminaBem (s : jsstring) : Prop := comecaBem (rev s).

Definition aparado (s : jsstring) : Prop := comecaBem s /\ terminaBem s.

Definition LF : jsstring := [10%N].
Definition LFLF : jsstring := [10%N; 10%N].

(** ** The platform

    [String.prototype.toLowerCase] (the Unicode case mapping) and the [URL]
    parser belong to the JavaScript engine, not to the repository: the
    development is parametric in them. *)

Inductive Error := mkError (message : jsstring).

Definition message (e : Error) : jsstring := let (m) := e in m.

Inductive result (A : Type) :=
| Ok (a : A)
| Throw (e : Error).

Arguments Ok {A} a.
Arguments Throw {A} e.

Class Platform := {
  (** [s.toLowerCase()] *)
  toLowerCase : jsstring -> jsstring;
  (** [new URL(link).searchParams.get(name)]: throws when [link] is not a
      valid URL, [None] is [null]. *)
  URL_searchParams_get : jsstring -> jsstring -> result (option jsstring)
}.

(** ** The DOM snapshot *)

#[local] Set Warnings "-register-all".

Inductive Node :=
| Text (data : jsstring)
| Element (localName : jsstring) (attributes : list (jsstring * jsstring))
    (rendered : jsstring) (childNodes : list Node).

(** [el.innerText]: the text as displayed, reported by the rendering
    engine. *)
Definition innerText (n : Node) : jsstring :=
  match n with
  | Text _ => []
  | Element _ _ r _ => r
  end.

(** [el.textContent]: the text nodes of the subtree, in tree order. *)
Fixpoint textContent (n : Node) : jsstring :=
  match n with
  | Text d => d
  | Element _ _ _ cs => flat_map textContent cs
  end.

Definition getAttribute (n : Node) (a : jsstring) : option jsstring :=
  match n with
  | Text _ => None
  | Element _ attrs _ _ =>
      option_map snd (find (fun kv => jseqb (fst kv) a) attrs)
  end.

(** The element and its element descendants, in document order. *)
Fixpoint subtree (n : Node) : list Node :=
  match n with
  | Text _ => []
  | Element _ _ _ cs => n :: flat_map subtree cs
  end.

Definition descendants (n : Node) : list Node :=
  match n with
  | Text _ => []
  | Element _ _ _ cs => flat_map subtree cs
  end.

(** The selectors of the source: comma-separated lists of compound
    selectors made of a type, classes and attribute tests. *)
Inductive Simple :=
| SType (name : string)                (* div *)
| SClass (name : string)               (* .name *)
| SHas (attr : string)                 (* [attr] *)
| SEq (attr value : string)            (* [attr="value"] *)
| SSub (attr value : string)           (* [attr*="value"] *)
| SAny.                                (* * *)

Definition Compound := list Simple.
Definition Selector := list Compound.

Definition isClassSeparator (c : N) : bool :=
  ((c =? 9) || (c =? 10) || (c =? 12) || (c =? 13) || (c =? 32))%N.

Fixpoint classTokens (s : jsstring) : list jsstring :=
  match s with
  | [] => [[]]
  | c :: r =>
      if isClassSeparator c then [] :: classTokens r
      else match classTokens r with
           | [] => [[c]]
           | t :: ts => (c :: t) :: ts
           end
  end.

Definition matchesSimple (n : Node) (s : Simple) : bool :=
  match n with
  | Text _ => false
  | Element name _ _ _ =>
      match s with
      | SType t => jseqb name (js t)
      | SClass c =>
          match getAttribute n (js "class") with
          | Some v => existsb (jseqb (js c)) (classTokens v)
          | None => false
          end
      | SHas a =>
          match getAttribute n (js a) with
          | Some _ => true
          | None => false
          end
      | SEq a v =>
          match getAttribute n (js a) with
          | Some w => jseqb w (js v)
          | None => false
          end
      | SSub a v =>
          match getAttribute n (js a) with
          | Some w => includes w (js v)
          | None => false
          end
      | SAny => true
      end
  end.

Definition matchesSelector (sel : Selector) (n : Node) : bool :=
  existsb (fun c => forallb (matchesSimple n) c) sel.

(** [scope.querySelectorAll(sel)] on an element: its matching descendants. *)
Definition elementQuerySelectorAll (scope : Node) (sel : Selector) : list Node :=
  filter (matchesSelector sel) (descendants scope).

(** A snapshot is the element tree of the document at one moment, plus the
    selectors on which a query of the document throws instead of
    answering. *)
Record Snapshot := {
  documentElement : Node;
  raises : Selector -> option Error
}.

Definition documentQuerySelectorAll (d : Snapshot) (sel : Selector)
  : result (list Node) :=
  match raises d sel with
  | Some e => Throw e
  | None => Ok (filter (matchesSelector sel) (subtree (documentElement d)))
  end.

Definition documentQuerySelector (d : Snapshot) (sel : Selector)
  : result (option Node) :=
  match raises d sel with
  | Some e => Throw e
  | None => Ok (find (matchesSelector sel) (subtree (documentElement d)))
  end.

(** ** Effects: the calls made to the page, and exceptions *)

Inductive PageFunction :=
| ScrollHalf | ScrollBottom | FindVerMais | ScrollToDescription
| StrategyChain | Rescan.

Inductive Event :=
| NewPage
| SetUserAgent
| Goto (url : jsstring)
| Delay (ms : N)
| Evaluate (f : PageFunction)
| Click
| WaitForSelector
| ClosePage
| QuerySelector (sel : Selector)
| QuerySelectorAll (sel : Selector)
| CreateElement (name : string).

Definition Log := list Event.

(** A computation extends the log and returns or throws; the log keeps the
    calls made before an exception. *)
Definition M (A : Type) := Log -> Log * result A.

Definition ret {A} (a : A) : M A := fun l => (l, Ok a).

Definition throw {A} (e : Error) : M A := fun l => (l, Throw e).

Definition bind {A B} (m : M A) (k : A -> M B) : M B :=
  fun l =>
    match m l with
    | (l', Ok a) => k a l'
    | (l', Throw e) => (l', Throw e)
    end.

Definition tryCatch {A} (body : M A) (handler : Error -> M A) : M A :=
  fun l =>
    match body l with
    | (l', Ok a) => (l', Ok a)
    | (l', Throw e) => handler e l'
    end.

Definition emit (ev : Event) : M unit := fun l => (l ++ [ev], Ok tt).

Definition lift {A} (r : result A) : M A := fun l => (l, r).

(** A call to the page: recorded, then its outcome. *)
Definition call {A} (ev : Event) (r : result A) : M A :=
  bind (emit ev) (fun _ => lift r).

Declare Scope js_scope.
Delimit Scope js_scope with js.
Notation "x <- m ;; k" := (bind m (fun x => k))
  (at level 61, m at next level, right associativity) : js_scope.
Notation "m ;; k" := (bind m (fun _ => k))
  (at level 61, right associativity) : js_scope.
Open Scope js_scope.

Definition run {A} (m : M A) : Log * result A := m [].

(** What a computation adds to an empty log, and what it returns. *)
Definition eventos {A} (m : M A) : Log := fst (run m).
Definition resultado {A} (m : M A) : result A := snd (run m).

(** A computation that never reads the log: from any log it appends the
    same events and gives the same result. *)
Definition uniforme {A} (m : M A) : Prop :=
  forall l, m l = (l ++ eventos m, resultado m).

(** ** The in-page strategy chain (the [page.evaluate] callback, lines
    249-559 of [src/index.js]) *)

Section Extraction.

Context {platform : Platform}.

(** [t.toLowerCase().includes(palavra)] *)
Definition contem (t : jsstring) (palavra : string) : bool :=
  includes (toLowerCase t) (js palavra).

(** [palavras.some((palavra) => t.toLowerCase().includes(palavra))] *)
Definition alguma (t : jsstring) (palavras : list string) : bool :=
  existsb (contem t) palavras.

(** [!t.toLowerCase().includes(p1) && !t.toLowerCase().includes(p2) && ...] *)
Definition nenhuma (t : jsstring) (palavras : list string) : bool :=
  forallb (fun p => negb (contem t p)) palavras.

Definition querySelector (d : Snapshot) (sel : Selector) : M (option Node) :=
  call (QuerySelector sel) (documentQuerySelector d sel).

Definition querySelectorAll (d : Snapshot) (sel : Selector) : M (list Node) :=
  call (QuerySelectorAll sel) (documentQuerySelectorAll d sel).

(** [for (let el of els) { ...; if (...) return texto; }]: the text returned
    at the first element for which the body returns. *)
Fixpoint primeiro (corpo : Node -> option jsstring) (els : list Node)
  : option jsstring :=
  match els with
  | [] => None
  | el :: rest =>
      match corpo el with
      | Some t => Some t
      | None => primeiro corpo rest
      end
  end.

(** A strategy that returned ends the callback; otherwise the next one
    runs. *)
Definition senao (estrategia : M (option jsstring)) (resto : M jsstring)
  : M jsstring :=
  r <- estrategia ;;
  match r with
  | Some t => ret t
  | None => resto
  end.

(** *** The selector catalog (lines 250-314) *)

Definition seletoresPrioritarios : list Selector :=
  [ [[SClass "show-more-less-html__markup"]];
    [[SClass "jobs-description-content__text"]];
    [[SEq "data-test-id" "job-details-description"]];
    [[SClass "jobs-box__html-content"]];
    [[SClass "description__text"]];
    [[SClass "jobs-description__content"]];
    [[SType "div"; SSub "class" "jobs-description"]];
    [[SType "section"; SSub "class" "jobs-description"]];
    [[SSub "class" "description__text"]];
    [[SSub "class" "job-details"]];
    [[SClass "jobs-description__text"]];
    [[SSub "id" "job-details"]];
    [[SType "div"; SSub "class" "jobs-details"]];
    [[SType "section"; SSub "class" "jobs-details"]];
    [[SSub "data-test-id" "description"]];
    [[SSub "data-test-id" "job"]] ].

Definition negativasCatalogo : list string :=
  [ "linkedin"; "entrar"; "cadastre-se"; "política de privacidade";
    "nível de experiência"; "tipo de emprego"; "função"; "setores";
    "assistente"; "tempo integral"; "tecnologia da informação";
    "desenvolvimento de software" ].

(** The detached [div] is not rendered, so its [innerText] is its
    [textContent]; serialising the children of [el] into [innerHTML] and
    parsing them back keeps their text nodes. *)
Definition textoDoHtml (el : Node) (texto : jsstring) : M jsstring :=
  emit (CreateElement "div") ;;
  ret (textContent el ||| textContent el ||| texto).

(** The body of the [try] of one catalog entry. *)
Definition tentarSeletor (d : Snapshot) (seletor : Selector)
  : M (option jsstring) :=
  elemento <- querySelector d seletor ;;
  match elemento with
  | None => ret None
  | Some el =>
      let texto := innerText el ||| textContent el ||| [] in
      texto <- (if length (trim texto) <? 200
                then textoDoHtml el texto
                else ret texto) ;;
      let textoLimpo := trim texto in
      if (300 <? length textoLimpo) && nenhuma textoLimpo negativasCatalogo
      then ret (Some textoLimpo)
      else ret None
  end.

Fixpoint catalogo (d : Snapshot) (seletores : list Selector)
  : M (option jsstring) :=
  match seletores with
  | [] => ret None
  | seletor :: resto =>
      r <- tryCatch (tentarSeletor d seletor) (fun _ => ret None) ;;
      match r with
      | Some t => ret (Some t)
      | None => catalogo d resto
      end
  end.

(** *** Attribute sweeps (lines 316-374) *)

Definition seletorTestId : Selector :=
  [ [SSub "data-test-id" "job"]; [SSub "data-test-id" "description"];
    [SSub "data-test-id" "detail"] ].

Definition negativasTestId : list string :=
  [ "linkedin"; "nível de experiência"; "tipo de emprego"; "função";
    "setores" ].

Definition corpoTestId (elemento : Node) : option jsstring :=
  let texto := trim (innerText elemento ||| textContent elemento ||| []) in
  if (500 <? length texto) && nenhuma texto negativasTestId
  then Some texto else None.

Definition varreduraTestId (d : Snapshot) : M (option jsstring) :=
  elementosTestId <- querySelectorAll d seletorTestId ;;
  ret (primeiro corpoTestId elementosTestId).

Definition seletorAtributos : Selector :=
  [ [SHas "data-test-id"]; [SSub "class" "job"]; [SSub "class" "description"] ].

Definition negativasAtributos : list string :=
  [ "linkedin"; "entrar"; "cadastre-se"; "política"; "cookie" ].

Definition palavrasChaveAtributos : list string :=
  [ "responsabilidade"; "requisito"; "experiência"; "habilidade"; "trabalho";
    "equipe"; "desenvolvimento"; "projeto"; "tecnologia"; "atribuição";
    "desejável"; "diferencial"; "benefício"; "salário" ].

Definition corpoAtributos (elemento : Node) : option jsstring :=
  let texto := trim (textContent elemento ||| innerText elemento ||| []) in
  if (300 <? length texto) && nenhuma texto negativasAtributos
  then (if alguma texto palavrasChaveAtributos then Some texto else None)
  else None.

Definition varreduraAtributos (d : Snapshot) : M (option jsstring) :=
  elementosComAtributos <- querySelectorAll d seletorAtributos ;;
  ret (primeiro corpoAtributos elementosComAtributos).

(** *** Paragraph aggregation (lines 376-413) *)

Definition seletorSecoes : Selector :=
  [ [SType "section"]; [SType "div"]; [SType "article"] ].

Definition seletorParagrafos : Selector :=
  [ [SType "p"]; [SType "li"]; [SType "div"]; [SType "span"] ].

Definition metadadosParagrafo : list string :=
  [ "nível de experiência"; "tipo de emprego"; "função"; "setores";
    "assistente"; "tempo integral" ].

Definition negativasAgregado : list string :=
  [ "linkedin"; "entrar"; "cadastre-se" ].

Definition textoParagrafo (p : Node) : jsstring :=
  trim (textContent p ||| innerText p ||| []).

Definition paragrafoValido (textoP : jsstring) : bool :=
  (50 <? length textoP) && nenhuma textoP metadadosParagrafo.

(** The inner loop: [(textoCompleto, contadorParagrafos)] after the
    paragraphs. *)
Fixpoint acumular (paragrafos : list Node) (textoCompleto : jsstring)
    (contadorParagrafos : nat) : jsstring * nat :=
  match paragrafos with
  | [] => (textoCompleto, contadorParagrafos)
  | p :: resto =>
      let textoP := textoParagrafo p in
      if paragrafoValido textoP
      then acumular resto (textoCompleto ++ textoP ++ LFLF)
             (S contadorParagrafos)
      else acumular resto textoCompleto contadorParagrafos
  end.

Definition corpoSecao (secao : Node) : option jsstring :=
  let paragrafos := elementQuerySelectorAll secao seletorParagrafos in
  let '(textoCompleto, contadorParagrafos) := acumular paragrafos [] 0 in
  if (3 <=? contadorParagrafos) && (500 <? length textoCompleto)
  then
    let textoLimpo := trim textoCompleto in
    if nenhuma textoLimpo negativasAgregado then Some textoLimpo else None
  else None.

(** The fragments the inner loop keeps for a container, in document
    order. *)
Definition fragmentos (secao : Node) : list jsstring :=
  filter paragrafoValido
    (map textoParagrafo (elementQuerySelectorAll secao seletorParagrafos)).

(** The acceptance of a container as the specification words it: only the
    descendants that are leaves (no element child) give fragments, and the
    fragments joined by blank lines must exceed 500 code units. *)
Definition folha (n : Node) : bool :=
  match n with
  | Text _ => false
  | Element _ _ _ cs =>
      forallb (fun c => match c with Text _ => true | _ => false end) cs
  end.

Definition fragmentosFolha (secao : Node) : list jsstring :=
  filter paragrafoValido
    (map textoParagrafo
       (filter folha (elementQuerySelectorAll secao seletorParagrafos))).

Definition aceitaPelaEspecificacao (secao : Node) : bool :=
  let frags := fragmentosFolha secao in
  (3 <=? length frags) && (500 <? length (join LFLF frags))
  && nenhuma (join LFLF frags) negativasAgregado.

Definition agregarParagrafos (d : Snapshot) : M (option jsstring) :=
  secoesComParagrafos <- querySelectorAll d seletorSecoes ;;
  ret (primeiro corpoSecao secoesComParagrafos).

(** *** Keyword scan over [div] and [section] (lines 415-450) *)

Definition palavrasChaveDescricao : list string :=
  [ "responsabilidade"; "atribuição"; "requisito"; "desejável";
    "diferencial"; "benefício"; "salário"; "remoto"; "presencial";
    "desenvolvimento"; "projeto"; "equipe"; "tecnologia" ].

Definition metadadosDescricao : list string :=
  [ "nível de experiência"; "tipo de emprego"; "função"; "setores";
    "linkedin" ].

Definition seletorDivs : Selector := [ [SType "div"]; [SType "section"] ].

Definition corpoDivs (div : Node) : option jsstring :=
  let texto := trim (innerText div ||| textContent div ||| []) in
  if 400 <? length texto then
    let temPalavrasChave := alguma texto palavrasChaveDescricao in
    let naoTemMetadados := nenhuma texto metadadosDescricao in
    if temPalavrasChave && naoTemMetadados then Some texto else None
  else None.

Definition buscarPalavrasChave (d : Snapshot) : M (option jsstring) :=
  todosDivs <- querySelectorAll d seletorDivs ;;
  ret (primeiro corpoDivs todosDivs).

(** *** Largest relevant block (lines 452-497) *)

Definition seletorElementos : Selector :=
  [ [SType "div"]; [SType "section"]; [SType "article"]; [SType "main"] ].

Definition negativasMaiorBloco : list string :=
  [ "linkedin"; "entrar"; "cadastre-se"; "política"; "cookie";
    "sobre a linkedin"; "acessibilidade" ].

Definition palavrasChaveMaiorBloco : list string :=
  [ "responsabilidade"; "requisito"; "experiência"; "habilidade";
    "atribuição"; "desejável"; "diferencial"; "benefício" ].

Definition textoElemento (elemento : Node) : jsstring :=
  trim (textContent elemento ||| innerText elemento ||| []).

(** The filter of the loop body, before the comparison with
    [maiorTamanho]. *)
Definition relevante (texto : jsstring) : bool :=
  (500 <? length texto) && nenhuma texto negativasMaiorBloco
  && alguma texto palavrasChaveMaiorBloco.

(** The loop: [(melhorElemento, maiorTamanho)] after the elements. *)
Fixpoint melhor (elementos : list Node) (melhorElemento : option jsstring)
    (maiorTamanho : nat) : option jsstring * nat :=
  match elementos with
  | [] => (melhorElemento, maiorTamanho)
  | elemento :: resto =>
      let texto := textoElemento elemento in
      if relevante texto && (maiorTamanho <? length texto)
      then melhor resto (Some texto) (length texto)
      else melhor resto melhorElemento maiorTamanho
  end.

(** [if (melhorElemento) return melhorElemento;] *)
Definition seVerdadeiro (v : option jsstring) : option jsstring :=
  match v with
  | Some (_ :: _) => v
  | _ => None
  end.

(** The texts the loop compares: those that pass the filter. *)
Definition candidatos (elementos : list Node) : list jsstring :=
  filter relevante (map textoElemento elementos).

Definition maiorBloco (d : Snapshot) : M (option jsstring) :=
  todosElementos <- querySelectorAll d seletorElementos ;;
  ret (seVerdadeiro (fst (melhor todosElementos None 0))).

(** *** Substring stripping of the main region (lines 499-520) *)

Definition seletorPrincipais : Selector :=
  [ [SType "main"]; [SType "article"]; [SEq "role" "main"] ].

Definition removerNavegacao (texto : jsstring) : jsstring :=
  trim
    (removeAll true (js "Sobre a LinkedIn")
       (removeAll true (js "Cookie")
          (removeAll true (js "Política")
             (removeAll true (js "Cadastre-se")
                (removeAll true (js "Entrar")
                   (removeAll false (js "LinkedIn") texto)))))).

Definition corpoPrincipal (elemento : Node) : option jsstring :=
  let texto := trim (textContent elemento ||| innerText elemento ||| []) in
  if 500 <? length texto then
    let textoLimpo := removerNavegacao texto in
    if 300 <? length textoLimpo then Some textoLimpo else None
  else None.

Definition limparPrincipais (d : Snapshot) : M (option jsstring) :=
  elementosPrincipais <- querySelectorAll d seletorPrincipais ;;
  ret (primeiro corpoPrincipal elementosPrincipais).

(** *** Line filter of the main content (lines 522-556) *)

Definition seletorMainContent : Selector :=
  [ [SType "main"]; [SEq "role" "main"]; [SClass "jobs-search__job-details"] ].

Definition negativasLinha : list string :=
  [ "linkedin"; "entrar"; "nível de experiência"; "tipo de emprego";
    "função"; "setores"; "assistente"; "tempo integral";
    "tecnologia da informação"; "desenvolvimento de software" ].

Definition linhaValida (linha : jsstring) : bool :=
  let linhaLower := trim (toLowerCase linha) in
  (20 <? length (trim linha))
  && forallb (fun p => negb (includes linhaLower (js p))) negativasLinha.

Definition filtrarLinhas (d : Snapshot) : M (option jsstring) :=
  mainContent <- querySelector d seletorMainContent ;;
  match mainContent with
  | None => ret None
  | Some el =>
      let textoMain := trim (innerText el ||| textContent el ||| []) in
      if 1000 <? length textoMain then
        let linhas := filter linhaValida (split_lines textoMain) in
        if 5 <? length linhas then ret (Some (join LFLF linhas))
        else ret None
      else ret None
  end.

(** *** The callback *)

Definition naoEncontrada : jsstring :=
  js "Descrição não encontrada - não foi possível localizar a descrição completa da vaga".

Definition extrairDescricao (d : Snapshot) : M jsstring :=
  senao (catalogo d seletoresPrioritarios)
 (senao (varreduraTestId d)
 (senao (varreduraAtributos d)
 (senao (agregarParagrafos d)
 (senao (buscarPalavrasChave d)
 (senao (maiorBloco d)
 (senao (limparPrincipais d)
 (senao (filtrarLinhas d)
        (ret naoEncontrada)))))))).

(** The same callback as an ordered chain of strategies. *)
Inductive Estrategia :=
| Catalogo | VarreduraTestId | VarreduraAtributos | AgregarParagrafos
| BuscarPalavrasChave | MaiorBloco | LimparPrincipais | FiltrarLinhas.

Definition executar (e : Estrategia) (d : Snapshot) : M (option jsstring) :=
  match e with
  | Catalogo => catalogo d seletoresPrioritarios
  | VarreduraTestId => varreduraTestId d
  | VarreduraAtributos => varreduraAtributos d
  | AgregarParagrafos => agregarParagrafos d
  | BuscarPalavrasChave => buscarPalavrasChave d
  | MaiorBloco => maiorBloco d
  | LimparPrincipais => limparPrincipais d
  | FiltrarLinhas => filtrarLinhas d
  end.

(** The keywords whose presence makes each strategy reject a text. *)
Definition negativas (e : Estrategia) : list string :=
  match e with
  | Catalogo => negativasCatalogo
  | VarreduraTestId => negativasTestId
  | VarreduraAtributos => negativasAtributos
  | AgregarParagrafos => negativasAgregado
  | BuscarPalavrasChave => metadadosDescricao
  | MaiorBloco => negativasMaiorBloco
  | LimparPrincipais => []
  | FiltrarLinhas => []
  end.

(** The query by which each strategy starts. *)
Definition consulta (e : Estrategia) : Event :=
  match e with
  | Catalogo => QuerySelector [[SClass "show-more-less-html__markup"]]
  | VarreduraTestId => QuerySelectorAll seletorTestId
  | VarreduraAtributos => QuerySelectorAll seletorAtributos
  | AgregarParagrafos => QuerySelectorAll seletorSecoes
  | BuscarPalavrasChave => QuerySelectorAll seletorDivs
  | MaiorBloco => QuerySelectorAll seletorElementos
  | LimparPrincipais => QuerySelectorAll seletorPrincipais
  | FiltrarLinhas => QuerySelector seletorMainContent
  end.

(** The selectors queried after the catalog. *)
Definition seletoresDeReserva : list Selector :=
  [ seletorTestId; seletorAtributos; seletorSecoes; seletorDivs;
    seletorElementos; seletorPrincipais; seletorMainContent ].

(** The events the catalog loop can leave in the log. *)
Definition eventoDoCatalogo (seletores : list Selector) (ev : Event) : Prop :=
  match ev with
  | QuerySelector sel => In sel seletores
  | CreateElement _ => True
  | _ => False
  end.

Definition cadeia : list Estrategia :=
  [ Catalogo; VarreduraTestId; VarreduraAtributos; AgregarParagrafos;
    BuscarPalavrasChave; MaiorBloco; LimparPrincipais; FiltrarLinhas ].

Definition encadear (es : list Estrategia) (d : Snapshot) : M jsstring :=
  fold_right (fun e resto => senao (executar e d) resto) (ret naoEncontrada) es.

(** ** The second [page.evaluate] callback (lines 574-607) *)

Definition seletorTodos : Selector := [ [SAny] ].

Definition palavrasChaveAlternativa : list string :=
  [ "responsabilidade"; "atribuição"; "requisito"; "desejável";
    "desenvolvimento" ].

Definition metadadosAlternativa : list string :=
  [ "nível de experiência"; "tipo de emprego"; "função"; "setores" ].

Definition corpoAlternativa (elemento : Node) : option jsstring :=
  let texto := trim (innerText elemento ||| textContent elemento ||| []) in
  if 500 <? length texto then
    let temPalavrasChave := alguma texto palavrasChaveAlternativa in
    let naoTemMetadados := nenhuma texto metadadosAlternativa in
    if temPalavrasChave && naoTemMetadados && negb (contem texto "linkedin")
    then Some texto else None
  else None.

(** [None] is the [null] of the source. *)
Definition extrairAlternativa (d : Snapshot) : M (option jsstring) :=
  todosElementos <- querySelectorAll d seletorTodos ;;
  ret (primeiro corpoAlternativa todosElementos).

(** ** The browser session

    The outcome of every call the function makes to Puppeteer.  The document
    is read twice: by the strategy chain and, after the settle delay, by the
    second callback. *)

Record Loaded := {
  scrollHalf : result unit;
  scrollBottom : result unit;
  findVerMais : result bool;          (* a button was found *)
  click : result unit;
  waitForSelector : result unit;
  scrollToDescription : result unit;
  firstSnapshot : result Snapshot;
  secondSnapshot : result Snapshot;
  closePage : result unit
}.

Record Page := {
  setUserAgent : result unit;
  goto : jsstring -> result Loaded
}.

Record Browser := {
  newPage : result Page
}.

(** [await page.evaluate(f)]: an exception of the callback rejects the
    promise. *)
Definition evaluate {A} (name : PageFunction) (snapshot : result Snapshot)
    (f : Snapshot -> M A) : M A :=
  d <- call (Evaluate name) snapshot ;;
  f d.

(** ** [extrairJobIdDoLink], [construirLinkVaga] (lines 89-108) *)

Definition extrairJobIdDoLink (link : jsstring) : option jsstring :=
  match URL_searchParams_get link (js "currentJobId") with
  | Ok currentJobId => currentJobId
  | Throw _ => matchDigitsAfter (js "currentJobId=") link
  end.

Definition construirLinkVaga (jobId : jsstring) : jsstring :=
  js "https://www.linkedin.com/jobs/view/" ++ jobId.

(** [if (jobId)]: [null] and the empty string are falsy. *)
Definition verdadeiro (v : option jsstring) : bool :=
  match v with
  | Some (_ :: _) => true
  | _ => false
  end.

Definition linkDaVaga (link : jsstring) : jsstring :=
  let linkVaga := link in
  let linkVaga :=
    if includes link (js "jobs/search") && includes link (js "currentJobId")
    then
      match extrairJobIdDoLink link with
      | Some ((_ :: _) as jobId) => construirLinkVaga jobId
      | _ => linkVaga
      end
    else linkVaga in
  let jobIdFromQuery := extrairJobIdDoLink link in
  let jobIdFromPath := matchDigitsAfter (js "/jobs/view/") link in
  let jobId := if verdadeiro jobIdFromQuery then jobIdFromQuery
               else jobIdFromPath in
  match jobId with
  | Some ((_ :: _) as jobId) => construirLinkVaga jobId
  | _ => linkVaga
  end.

(** ** [baixarDescricaoVaga] (lines 116-622) *)

(** The condition of the post-check (lines 562-566). *)
Definition incompleta (descricao : jsstring) : bool :=
  (length (trim descricao) <? 300)
  || contem descricao "nível de experiência"
  || contem descricao "tipo de emprego".

Definition ignorando (m : M unit) : M unit := tryCatch m (fun _ => ret tt).

(** Lines 118-245: open the page, navigate, scroll, expand. *)
Definition abrirVaga (link : jsstring) (browser : Browser) : M Loaded :=
  page <- call NewPage (newPage browser) ;;
  call SetUserAgent (setUserAgent page) ;;
  let linkVaga := linkDaVaga link in
  loaded <- call (Goto linkVaga) (goto page linkVaga) ;;
  emit (Delay 2000) ;;
  call (Evaluate ScrollHalf) (scrollHalf loaded) ;;
  emit (Delay 1000) ;;
  call (Evaluate ScrollBottom) (scrollBottom loaded) ;;
  emit (Delay 1000) ;;
  ignorando
    (botaoVerMais <- call (Evaluate FindVerMais) (findVerMais loaded) ;;
     if botaoVerMais : bool
     then call Click (click loaded) ;; emit (Delay 2000)
     else ret tt) ;;
  ignorando (call WaitForSelector (waitForSelector loaded)) ;;
  emit (Delay 3000) ;;
  ignorando
    (call (Evaluate ScrollToDescription) (scrollToDescription loaded) ;;
     emit (Delay 2000)) ;;
  ret loaded.

(** Lines 561-617: the post-check, the second callback and the return. *)
Definition posVerificacao (loaded : Loaded) (descricao : jsstring)
  : M jsstring :=
  let fim := call ClosePage (closePage loaded) ;; ret (trim descricao) in
  if incompleta descricao then
    emit (Delay 2000) ;;
    descricaoAlternativa <- evaluate Rescan (secondSnapshot loaded)
                              extrairAlternativa ;;
    match descricaoAlternativa with
    | Some ((_ :: _) as alternativa) =>
        if 300 <? length alternativa
        then call ClosePage (closePage loaded) ;; ret (trim alternativa)
        else fim
    | _ => fim
    end
  else fim.

(** [await page.close(); return texto;] *)
Definition fechar (loaded : Loaded) (texto : jsstring) : result jsstring :=
  match closePage loaded with
  | Ok _ => Ok texto
  | Throw e => Throw e
  end.

(** The text of the second callback that replaces the first result. *)
Definition aproveitada (alternativa : option jsstring) : option jsstring :=
  match alternativa with
  | Some ((_ :: _) as a) => if 300 <? length a then alternativa else None
  | _ => None
  end.

(** The number of times the second callback was started in a log. *)
Definition ehRescan (ev : Event) : bool :=
  match ev with
  | Evaluate Rescan => true
  | _ => false
  end.

Definition rescans (l : Log) : nat := length (filter ehRescan l).

Definition erroAoBaixar (error : Error) : jsstring :=
  js "Erro ao baixar descrição: " ++ message error.

(** The [try] block. *)
Definition tentativa (link : jsstring) (browser : Browser) : M jsstring :=
  loaded <- abrirVaga link browser ;;
  descricao <- evaluate StrategyChain (firstSnapshot loaded)
                 extrairDescricao ;;
  posVerificacao loaded descricao.

Definition baixarDescricaoVaga (link : jsstring) (browser : Browser)
  : M jsstring :=
  tryCatch (tentativa link browser)
    (fun error => ret (erroAoBaixar error)).

End Extraction.


(** ** Further definitions: what the rest of [src/index.js] does with the
    result *)

(** The positive keywords of the strategies that ask for one. *)
Definition positivas (e : Estrategia) : list string :=
  match e with
  | VarreduraAtributos => palavrasChaveAtributos
  | BuscarPalavrasChave => palavrasChaveDescricao
  | MaiorBloco => palavrasChaveMaiorBloco
  | _ => []
  end.

(** The pattern occurs somewhere in the text. *)
Fixpoint ocorre (ignoreCase : bool) (pat s : jsstring) : bool :=
  matchesAt ignoreCase pat s ||
  match s with
  | [] => false
  | _ :: r => ocorre ignoreCase pat r
  end.

(** The patterns of [removerNavegacao], in the order of the replacements,
    with their flag [i]. *)
Definition padroesNavegacao : list (bool * string) :=
  [ (false, "LinkedIn"); (true, "Entrar"); (true, "Cadastre-se");
    (true, "Política"); (true, "Cookie"); (true, "Sobre a LinkedIn") ].

(** The test of [main] before a résumé is generated (lines 884-888):
    [descricao && descricao.length > 200 &&
     !descricao.includes("Descrição não encontrada")]. *)
Definition deveGerarCurriculo (descricao : jsstring) : bool :=
  match descricao with
  | [] => false
  | _ :: _ =>
      (200 <? length descricao)
      && negb (includes descricao (js "Descrição não encontrada"))
  end.

(** The milliseconds of [setTimeout] waits in a log. *)
Definition espera (ev : Event) : N :=
  match ev with
  | Delay ms => ms
  | _ => 0%N
  end.

(** The sum of a weight over a list of effects. *)
Definition soma {E} (w : E -> N) (l : list E) : N :=
  fold_right (fun x total => (w x + total)%N) 0%N l.

Definition esperaTotal (l : Log) : N := soma espera l.

(** [1] for the opening of a page. *)
Definition novaPagina (ev : Event) : N :=
  match ev with
  | NewPage => 1%N
  | _ => 0%N
  end.

(** A weight that ignores the queries of the document. *)
Definition ignoraConsultas (w : Event -> N) : Prop :=
  (forall sel, w (QuerySelector sel) = 0%N)
  /\ (forall sel, w (QuerySelectorAll sel) = 0%N)
  /\ (forall name, w (CreateElement name) = 0%N).

(** A loaded page whose three guarded steps (the "ver mais" button, the
    wait for a description selector, the scroll to the description) have
    other outcomes. *)
Definition comPassosOpcionais (loaded : Loaded) (botao : result bool)
    (clique esperaSeletor rolagem : result unit) : Loaded :=
  {| scrollHalf := scrollHalf loaded;
     scrollBottom := scrollBottom loaded;
     findVerMais := botao;
     click := clique;
     waitForSelector := esperaSeletor;
     scrollToDescription := rolagem;
     firstSnapshot := firstSnapshot loaded;
     secondSnapshot := secondSnapshot loaded;
     closePage := closePage loaded |}.

Definition result_map {A B} (f : A -> B) (r : result A) : result B :=
  match r with
  | Ok a => Ok (f a)
  | Throw e => Throw e
  end.

Definition umaAba (agente : result unit) (ir : jsstring -> result Loaded)
  : Browser :=
  {| newPage := Ok {| setUserAgent := agente; goto := ir |} |}.

(** ** The rest of the program: the files, the rewriting request, the batch

    [main] and the functions it calls talk to the file system, to the
    OpenAI client and to Puppeteer.  Their answers are taken from an
    environment; every answer may depend on the history of the effects made
    so far. *)

From Stdlib Require DecimalNat.

(** What is written to a file: text, or the bytes of a buffer. *)
Inductive Conteudo :=
| Texto (s : jsstring)
| Bytes (b : list N).

(** The request of [openai.chat.completions.create]: the model and the
    contents of the system and user messages. *)
Record Pedido := {
  modelo : jsstring;
  sistema : jsstring;
  usuario : jsstring
}.

Inductive Efeito :=
| Pagina (ev : Event)
| Launch
| CloseBrowser
| MkdirSync (caminho : jsstring)
| WriteFileSync (caminho : jsstring) (conteudo : Conteudo)
| ReadFileSync (caminho : jsstring)
| ReadCSV (caminho : jsstring)
| ToBuffer (paragrafos : list jsstring)
| ChatCompletion (pedido : Pedido)
| SetTimeout (ms : N)
| Exit (codigo : N).

Definition Historia := list Efeito.

(** A row of the CSV file: the columns [main] looks at. *)
Record Vaga := {
  coluna_link : option jsstring;
  coluna_Link : option jsstring;
  coluna_url : option jsstring;
  coluna_URL : option jsstring
}.

Record Ambiente := {
  (** [process.env.OPENAI_API_KEY], [process.env.OPENAI_MODEL] *)
  OPENAI_API_KEY : option jsstring;
  OPENAI_MODEL : option jsstring;
  (** [path.join(__dirname, name)], [path.join(dir, name)] *)
  noDiretorio : jsstring -> jsstring;
  pathJoin : jsstring -> jsstring -> jsstring;
  (** [fs.existsSync], [fs.mkdirSync], [fs.writeFileSync],
      [fs.readFileSync(path, "utf-8")] *)
  existsSync : Historia -> jsstring -> bool;
  mkdirSync : Historia -> jsstring -> result unit;
  writeFileSync : Historia -> jsstring -> Conteudo -> result unit;
  readFileSync : Historia -> jsstring -> result jsstring;
  (** the rows the CSV parser delivers, or its error *)
  parseCSV : Historia -> jsstring -> result (list Vaga);
  (** [Packer.toBuffer] of the document with these paragraphs *)
  toBuffer : Historia -> list jsstring -> result (list N);
  (** [response.choices[0].message.content] of the completion: the call or
      the access to the first choice may throw *)
  completion : Historia -> Pedido -> result jsstring;
  (** [new Date().toLocaleString("pt-BR")] *)
  toLocaleString : Historia -> jsstring;
  (** [puppeteer.launch], the browser it gives, [browser.close] *)
  launch : Historia -> result unit;
  navegador : Historia -> Browser;
  closeBrowser : Historia -> result unit
}.

(** A computation extends the history and returns or throws. *)
Definition IO (A : Type) := Historia -> Historia * result A.

Definition io_ret {A} (a : A) : IO A := fun h => (h, Ok a).

Definition io_throw {A} (e : Error) : IO A := fun h => (h, Throw e).

Definition io_bind {A B} (m : IO A) (k : A -> IO B) : IO B :=
  fun h =>
    match m h with
    | (h', Ok a) => k a h'
    | (h', Throw e) => (h', Throw e)
    end.

Definition io_try {A} (body : IO A) (handler : Error -> IO A) : IO A :=
  fun h =>
    match body h with
    | (h', Ok a) => (h', Ok a)
    | (h', Throw e) => handler e h'
    end.

(** An effect: recorded, with the answer the environment gives after the
    history so far. *)
Definition efeito {A} (ef : Efeito) (resposta : Historia -> result A) : IO A :=
  fun h => (h ++ [ef], resposta h).

(** A value read from the environment, without an effect. *)
Definition consultar {A} (leitura : Historia -> A) : IO A :=
  fun h => (h, Ok (leitura h)).

(** A computation on a browser page: its calls are added to the history. *)
Definition naPagina {A} (m : M A) : IO A :=
  fun h => (h ++ map Pagina (fst (run m)), snd (run m)).

Declare Scope io_scope.
Delimit Scope io_scope with io.
Notation "x <- m ;; k" := (io_bind m (fun x => k))
  (at level 61, m at next level, right associativity) : io_scope.
Notation "m ;; k" := (io_bind m (fun _ => k))
  (at level 61, right associativity) : io_scope.

(** [`${n}`] for a non-negative integer: its decimal digits (the integers
    here are array indices plus one, far below the 10^21 from which the
    template uses the exponent notation). *)
Fixpoint digitos (d : Decimal.uint) : jsstring :=
  match d with
  | Decimal.Nil => []
  | Decimal.D0 r => 48%N :: digitos r
  | Decimal.D1 r => 49%N :: digitos r
  | Decimal.D2 r => 50%N :: digitos r
  | Decimal.D3 r => 51%N :: digitos r
  | Decimal.D4 r => 52%N :: digitos r
  | Decimal.D5 r => 53%N :: digitos r
  | Decimal.D6 r => 54%N :: digitos r
  | Decimal.D7 r => 55%N :: digitos r
  | Decimal.D8 r => 56%N :: digitos r
  | Decimal.D9 r => 57%N :: digitos r
  end.

Definition decimal (n : nat) : jsstring := digitos (Nat.to_uint n).

(** ["=".repeat(80)] *)
Definition linhaDeIguais : jsstring := concat (repeat (js "=") 80).

(** The default prompt of [gerarCurriculoATS] (lines 653-680), up to the
    résumé. *)
Definition promptAntes : jsstring :=
  join LF
    [ js "Você é um especialista em recrutamento e otimização de currículos para sistemas ATS (Applicant Tracking System).";
      [];
      js "Sua tarefa é criar um currículo ATS-friendly otimizado baseado no currículo original fornecido e na descrição da vaga.";
      [];
      js "INSTRUÇÕES IMPORTANTES:";
      js "1. Mantenha TODAS as informações verdadeiras do currículo original";
      js "2. Otimize palavras-chave e habilidades para corresponder à descrição da vaga";
      js "3. Use formatação simples e compatível com ATS (sem tabelas complexas, sem colunas, sem gráficos)";
      js "4. Organize as seções de forma clara e padronizada";
      js "5. Destaque experiências e habilidades relevantes para a vaga";
      js "6. Use palavras-chave da descrição da vaga quando apropriado";
      js "7. Mantenha o currículo profissional e objetivo";
      js "8. Garanta que o currículo seja facilmente parseável por sistemas ATS";
      [];
      js "CURRÍCULO ORIGINAL:";
      [] ].

(** Between the résumé and the description. *)
Definition promptMeio : jsstring :=
  join LF
    [ [];
      [];
      js "DESCRIÇÃO DA VAGA:";
      [] ].

(** After the description. *)
Definition promptDepois : jsstring :=
  join LF
    [ [];
      [];
      js "Gere um currículo otimizado ATS-friendly que:";
      js "- Mantenha todas as informações verdadeiras do currículo original";
      js "- Destaque as habilidades e experiências mais relevantes para esta vaga específica";
      js "- Use palavras-chave da descrição da vaga de forma natural";
      js "- Seja formatado de forma compatível com sistemas ATS";
      js "- Mantenha a estrutura profissional e clara";
      [];
      js "Retorne APENAS o currículo otimizado, sem explicações adicionais." ].

(** The system message of the request (line 692). *)
Definition mensagemSistema : jsstring :=
  js "Você é um especialista em otimização de currículos para sistemas ATS. Sempre mantenha a veracidade das informações e otimize para corresponder às vagas.".

Section Programa.

Context {platform : Platform}.

Variable amb : Ambiente.

Open Scope io_scope.

(** *** [lerCurriculo] (lines 69-82) *)

Definition lerCurriculo (curriculoPath : jsstring) : IO jsstring :=
  io_try
    (existe <- consultar (fun h => existsSync amb h curriculoPath) ;;
     if existe : bool then
       conteudo <- efeito (ReadFileSync curriculoPath)
                     (fun h => readFileSync amb h curriculoPath) ;;
       io_ret (trim conteudo)
     else
       io_throw
         (mkError (js "Arquivo de currículo não encontrado: " ++ curriculoPath)))
    (fun error =>
       io_throw
         (mkError (js "Erro ao ler arquivo de currículo: " ++ message error))).

(** *** [lerCSVVagas] (lines 21-62)

    The rows are those the parser delivers before its end, or the promise
    is rejected with the error of the parser.  (An error of the read stream
    itself has no listener in the source; it is not modelled.) *)

Definition lerCSVVagas (csvFilePath : jsstring) : IO (list Vaga) :=
  existe <- consultar (fun h => existsSync amb h csvFilePath) ;;
  if existe : bool then
    efeito (ReadCSV csvFilePath) (fun h => parseCSV amb h csvFilePath)
  else
    io_throw (mkError (js "Arquivo não encontrado: " ++ csvFilePath)).

(** *** [gerarCurriculoATS] (lines 631-711) *)

(** [promptPersonalizado || `...${curriculoOriginal}...${descricaoVaga}...`] *)
Definition promptBase (curriculoOriginal descricaoVaga : jsstring)
    (promptPersonalizado : option jsstring) : jsstring :=
  match promptPersonalizado with
  | Some ((_ :: _) as prompt) => prompt
  | _ =>
      promptAntes ++ curriculoOriginal ++ promptMeio ++ descricaoVaga
        ++ promptDepois
  end.

Definition pedidoDe (curriculoOriginal descricaoVaga : jsstring)
    (promptPersonalizado : option jsstring) : Pedido :=
  {| modelo := match OPENAI_MODEL amb with
               | Some ((_ :: _) as m) => m
               | _ => js "gpt-4"
               end;
     sistema := mensagemSistema;
     usuario := promptBase curriculoOriginal descricaoVaga promptPersonalizado |}.

Definition gerarCurriculoATS (curriculoOriginal descricaoVaga : jsstring)
    (promptPersonalizado : option jsstring) : IO jsstring :=
  io_try
    (if verdadeiro (OPENAI_API_KEY amb) then
       let pedido :=
         pedidoDe curriculoOriginal descricaoVaga promptPersonalizado in
       content <- efeito (ChatCompletion pedido)
                    (fun h => completion amb h pedido) ;;
       io_ret (trim content)
     else
       io_throw
         (mkError
            (js "OPENAI_API_KEY não configurada. Configure no arquivo .env")))
    (fun error => io_throw error).

(** *** [salvarDescricaoEmTxt] (lines 808-831) *)

Definition nomeDaDescricao (index : nat) : jsstring :=
  js "vaga_" ++ decimal (index + 1) ++ js ".txt".

Definition conteudoDaDescricao (descricao link data : jsstring) : jsstring :=
  (js "LINK DA VAGA: " ++ link ++ LFLF)
  ++ (js "DATA DE EXTRAÇÃO: " ++ data ++ LFLF)
  ++ (js "DESCRIÇÃO:" ++ LF ++ linhaDeIguais ++ LFLF ++ descricao ++ LF).

(** [if (!fs.existsSync(dir)) fs.mkdirSync(dir, { recursive: true })] *)
Definition garantirDiretorio (outputDir : jsstring) : IO unit :=
  existe <- consultar (fun h => existsSync amb h outputDir) ;;
  if existe : bool then io_ret tt
  else efeito (MkdirSync outputDir) (fun h => mkdirSync amb h outputDir).

Definition salvarDescricaoEmTxt (descricao : jsstring) (index : nat)
    (link : jsstring) : IO unit :=
  io_try
    (let outputDir := noDiretorio amb (js "descricoes") in
     garantirDiretorio outputDir ;;
     let fileName := nomeDaDescricao index in
     let filePath := pathJoin amb outputDir fileName in
     data <- consultar (toLocaleString amb) ;;
     let conteudo := conteudoDaDescricao descricao link data in
     efeito (WriteFileSync filePath (Texto conteudo))
       (fun h => writeFileSync amb h filePath (Texto conteudo)))
    (fun _ => io_ret tt).

(** *** [salvarCurriculoOtimizado] (lines 719-800) *)

Definition nomeDoCurriculo (index : nat) : jsstring :=
  js "curriculo_vaga_" ++ decimal (index + 1) ++ js ".txt".

(** The texts of the six paragraphs of the document. *)
Definition paragrafosDoCurriculo (curriculoOtimizado : jsstring) (index : nat)
    (link data : jsstring) : list jsstring :=
  [ js "CURRÍCULO OTIMIZADO PARA VAGA " ++ decimal (index + 1);
    linhaDeIguais;
    js "LINK DA VAGA: " ++ link;
    js "DATA DE GERAÇÃO: " ++ data;
    linhaDeIguais;
    curriculoOtimizado ].

Definition salvarCurriculoOtimizado (curriculoOtimizado : jsstring)
    (index : nat) (link : jsstring) : IO unit :=
  io_try
    (let outputDir := noDiretorio amb (js "curriculos_otimizados") in
     garantirDiretorio outputDir ;;
     let fileName := nomeDoCurriculo index in
     let filePath := pathJoin amb outputDir fileName in
     data <- consultar (toLocaleString amb) ;;
     let paragrafos :=
       paragrafosDoCurriculo curriculoOtimizado index link data in
     buffer <- efeito (ToBuffer paragrafos)
                 (fun h => toBuffer amb h paragrafos) ;;
     efeito (WriteFileSync filePath (Bytes buffer))
       (fun h => writeFileSync amb h filePath (Bytes buffer)))
    (fun _ => io_ret tt).

(** *** [main] (lines 836-941) *)

(** [a || b] on values that may be [undefined]. *)
Definition ou (a b : option jsstring) : option jsstring :=
  if verdadeiro a then a else b.

(** [vaga.link || vaga.Link || vaga.url || vaga.URL] *)
Definition linkDe (vaga : Vaga) : option jsstring :=
  ou (ou (ou (coluna_link vaga) (coluna_Link vaga)) (coluna_url vaga))
    (coluna_URL vaga).

(** Lines 889-909: the prompt file, the request, the file of the résumé;
    any exception is logged and the batch goes on. *)
Definition gerarESalvar (curriculo descricao : jsstring) (i : nat)
    (link : jsstring) : IO unit :=
  io_try
    (let promptPath := noDiretorio amb (js "prompt_agente.txt") in
     existe <- consultar (fun h => existsSync amb h promptPath) ;;
     promptPersonalizado <-
       (if existe : bool then
          conteudo <- efeito (ReadFileSync promptPath)
                        (fun h => readFileSync amb h promptPath) ;;
          io_ret (Some (trim conteudo))
        else io_ret None) ;;
     curriculoOtimizado <-
       gerarCurriculoATS curriculo descricao promptPersonalizado ;;
     salvarCurriculoOtimizado curriculoOtimizado i link)
    (fun _ => io_ret tt).

(** The body of the loop for a posting that has a link (lines 874-919). *)
Definition processarVaga (curriculo : jsstring) (total i : nat)
    (link : jsstring) : IO unit :=
  descricao <-
    (fun h => naPagina (baixarDescricaoVaga link (navegador amb h)) h) ;;
  salvarDescricaoEmTxt descricao i link ;;
  (if deveGerarCurriculo descricao
   then gerarESalvar curriculo descricao i link
   else io_ret tt) ;;
  if i <? total - 1 then efeito (SetTimeout 2000) (fun _ => Ok tt)
  else io_ret tt.

(** [for (let i = 0; i < vagas.length; i++)], from index [i] on. *)
Fixpoint processarVagas (curriculo : jsstring) (total i : nat)
    (vagas : list Vaga) : IO unit :=
  match vagas with
  | [] => io_ret tt
  | vaga :: resto =>
      match linkDe vaga with
      | Some ((_ :: _) as link) =>
          processarVaga curriculo total i link ;;
          processarVagas curriculo total (S i) resto
      | _ => processarVagas curriculo total (S i) resto
      end
  end.

(** How [main] ends: it returns, or [process.exit] ends the process. *)
Inductive Fim :=
| Terminou
| Saiu (codigo : N).

(** Lines 841-862: the résumé, the rows, the browser. *)
Definition preparar : IO (jsstring * list Vaga) :=
  curriculo <- lerCurriculo (noDiretorio amb (js "curriculo.txt")) ;;
  vagas <- lerCSVVagas (noDiretorio amb (js "vagas.csv")) ;;
  efeito Launch (launch amb) ;;
  io_ret (curriculo, vagas).

Definition main : IO Fim :=
  fun h0 =>
    match preparar h0 with
    | (h1, Throw error) =>
        (* [process.exit(1)] in the handler ends the process before the
           [finally] block *)
        (h1 ++ [Exit 1%N], Ok (Saiu 1%N))
    | (h1, Ok (curriculo, vagas)) =>
        match processarVagas curriculo (length vagas) 0 vagas h1 with
        | (h2, Throw error) => (h2 ++ [Exit 1%N], Ok (Saiu 1%N))
        | (h2, Ok _) =>
            (* [finally]: [browser] is set *)
            (closed <- efeito CloseBrowser (closeBrowser amb) ;;
             io_ret Terminou) h2
        end
    end.

(** The text a posting gets: what [baixarDescricaoVaga] returns with the
    browser as it is after the history. *)
Definition descricaoDe (link : jsstring) (h : Historia) : jsstring :=
  match resultado (baixarDescricaoVaga link (navegador amb h)) with
  | Ok t => t
  | Throw e => erroAoBaixar e
  end.

Close Scope io_scope.

End Programa.

(** Weights on the history: the pages opened and the completions
    requested. *)
Definition extracao (ef : Efeito) : N :=
  match ef with
  | Pagina ev => novaPagina ev
  | _ => 0%N
  end.

Definition pedido (ef : Efeito) : N :=
  match ef with
  | ChatCompletion _ => 1%N
  | _ => 0%N
  end.

(** The milliseconds waited between postings, the calls of
    [puppeteer.launch], of [browser.close] and of [process.exit]. *)
Definition intervalo (ef : Efeito) : N :=
  match ef with
  | SetTimeout ms => ms
  | _ => 0%N
  end.

Definition abertura (ef : Efeito) : N :=
  match ef with
  | Launch => 1%N
  | _ => 0%N
  end.

Definition fechamento (ef : Efeito) : N :=
  match ef with
  | CloseBrowser => 1%N
  | _ => 0%N
  end.

Definition saida (ef : Efeito) : N :=
  match ef with
  | Exit _ => 1%N
  | _ => 0%N
  end.

(** From any history, the computation adds effects of total weight at most
    [n]. *)
Definition limita {A} (w : Efeito -> N) (n : N) (m : IO A) : Prop :=
  forall h, exists evs, fst (m h) = h ++ evs /\ (soma w evs <= n)%N.

Definition naoLanca {A} (m : IO A) : Prop :=
  forall h, exists a, snd (m h) = Ok a.

Definition temLink (vaga : Vaga) : bool := verdadeiro (linkDe vaga).

(** A weight that ignores the file system. *)
Definition ignoraArquivos (w : Efeito -> N) : Prop :=
  (forall c, w (MkdirSync c) = 0%N)
  /\ (forall c x, w (WriteFileSync c x) = 0%N)
  /\ (forall c, w (ReadFileSync c) = 0%N)
  /\ (forall p, w (ToBuffer p) = 0%N).

(** ** A concrete platform and concrete pages

    The lower-casing of Basic Latin and Latin-1 Supplement, where it agrees
    with the engine's; an [https] link without a query string parses and has
    no search parameter, any other link is taken as unparseable.  All texts
    and links below stay in that range. *)

Definition lowerLatin1 (c : N) : N :=
  if ((65 <=? c) && (c <=? 90))%N then (c + 32)%N
  else if ((192 <=? c) && (c <=? 222) && negb (c =? 215))%N then (c + 32)%N
  else c.

Definition latin1 : Platform := {|
  toLowerCase := map lowerLatin1;
  URL_searchParams_get := fun link _ =>
    if startsWith (js "https://") link && negb (includes link (js "?"))
    then Ok None
    else Throw (mkError (js "Invalid URL"))
|}.

(** The function and the callback on that platform. *)
Definition baixar (link : jsstring) (browser : Browser) : M jsstring :=
  baixarDescricaoVaga (platform := latin1) link browser.

Definition extrair (d : Snapshot) : M jsstring :=
  extrairDescricao (platform := latin1) d.

Definition semFalhas : Selector -> option Error := fun _ => None.

Definition pagina (html : Node) : Snapshot :=
  {| documentElement := html; raises := semFalhas |}.

(** A session in which every call succeeds and no "ver mais" button is
    found; the two reads of the document see [d1] and [d2]. *)
Definition carregada (d1 d2 : Snapshot) : Loaded :=
  {| scrollHalf := Ok tt;
     scrollBottom := Ok tt;
     findVerMais := Ok false;
     click := Ok tt;
     waitForSelector := Ok tt;
     scrollToDescription := Ok tt;
     firstSnapshot := Ok d1;
     secondSnapshot := Ok d2;
     closePage := Ok tt |}.

Definition sessao (d1 d2 : Snapshot) : Browser :=
  {| newPage := Ok {| setUserAgent := Ok tt;
                      goto := fun _ => Ok (carregada d1 d2) |} |}.

Definition linkExemplo : jsstring := js "https://www.linkedin.com/jobs/view/123".

(** [el name attrs children]: an element whose displayed text is the text
    of its text nodes; [html rendered body]: a document whose [html] and
    [body] display [rendered]. *)
Definition el (name : string) (attrs : list (string * string))
    (children : list Node) : Node :=
  Element (js name) (map (fun kv => (js (fst kv), js (snd kv))) attrs)
    (flat_map textContent children) children.

Definition html (rendered : jsstring) (body : list Node) : Snapshot :=
  pagina (Element (js "html") [] rendered
            [Element (js "body") [] rendered body]).

Definition vezes (n : nat) (s : string) : jsstring := concat (repeat (js s) n).

(** *** A page whose main region is mostly brand text

    [<main>] holds one paragraph repeating the brand name 130 times and six
    paragraphs of 21 letters; the displayed text puts a blank line between
    paragraphs. *)

Definition linhaCurta : jsstring := vezes 21 "a".

Definition textoCurto : jsstring := join LFLF (repeat linhaCurta 6).

Definition paginaMarca : Snapshot :=
  let marca := vezes 130 "LinkedIn" in
  let rendered := join LFLF (marca :: repeat linhaCurta 6) in
  html rendered
    [Element (js "main") [] rendered
       (el "p" [] [Text marca] :: repeat (el "p" [] [Text linhaCurta]) 6)].

(** *** A page with one catalog element of 400 letters *)

Definition texto400 : jsstring := vezes 400 "b".

Definition paginaCatalogo400 : Snapshot :=
  html texto400
    [el "div" [("class", "show-more-less-html__markup")] [Text texto400]].

(** *** Scenario 1: one catalog element with 1200 characters *)

Definition texto1200 : jsstring := vezes 100 "requisitos: " .

Definition paginaCatalogo : Snapshot :=
  html texto1200
    [el "div" [("class", "jobs-box__html-content")] [Text texto1200]].

(** The same tree, with the absence of failures written another way. *)
Definition paginaCatalogoBis : Snapshot :=
  {| documentElement := documentElement paginaCatalogo;
     raises := fun sel => match sel with [] => None | _ :: _ => None end |}.

(** *** A job card that mentions the employment type *)

Definition textoMetadados : jsstring :=
  vezes 40 "requisito " ++ js "tipo de emprego".

Definition paginaMetadados : Snapshot :=
  html textoMetadados
    [el "div" [("class", "job-card")] [Text textoMetadados]].

(** *** A session whose navigation fails *)

Definition semRede : Error := mkError (js "net::ERR_NAME_NOT_RESOLVED").

Definition abaSemRede : Page :=
  {| setUserAgent := Ok tt; goto := fun _ => Throw semRede |}.

Definition sessaoSemRede : Browser := {| newPage := Ok abaSemRede |}.

(** *** The first catalog selector raises *)

Definition erroSeletor : Error := mkError (js "SyntaxError").

Definition primeiroSeletor : Selector :=
  [[SClass "show-more-less-html__markup"]].

Definition paginaComFalha : Snapshot :=
  {| documentElement := documentElement paginaCatalogo;
     raises := fun sel =>
       match sel with
       | [[SClass c]] =>
           if String.eqb c "show-more-less-html__markup"
           then Some erroSeletor else None
       | _ => None
       end |}.

(** *** An element found by the [data-test-id] sweep only *)

Definition texto600 : jsstring := vezes 60 "beneficios".

Definition paginaTestId : Snapshot :=
  html texto600
    [el "span" [("data-test-id", "posting-detail")] [Text texto600]].

(** *** Two relevant blocks, the second one longer *)

Definition blocoMenor : jsstring := vezes 60 "requisito ".
Definition blocoMaior : jsstring := vezes 90 "requisito ".

Definition paginaDoisBlocos : Snapshot :=
  html (join LF [trim blocoMenor; trim blocoMaior])
    [el "article" [] [Text blocoMenor]; el "article" [] [Text blocoMaior]].

(** *** One block of 600 letters inside four nested [div]s *)

Definition bloco600 : jsstring := vezes 600 "c".

Definition caixaAninhada : Node :=
  el "div" [] [el "div" [] [el "div" [] [el "div" [] [Text bloco600]]]].

Definition paginaAninhada : Snapshot := html bloco600 [caixaAninhada].

(** *** Scenario 2: a container with four paragraphs of 150 letters *)

Definition paragrafo (letra : string) : jsstring := vezes 150 letra.

Definition quatroParagrafos : list jsstring :=
  [paragrafo "d"; paragrafo "e"; paragrafo "f"; paragrafo "g"].

Definition caixaParagrafos : Node :=
  Element (js "div") [] (join LFLF quatroParagrafos)
    (map (fun t => el "p" [] [Text t]) quatroParagrafos).

Definition paginaParagrafos : Snapshot :=
  html (join LFLF quatroParagrafos) [caixaParagrafos].

(** *** A catalog element whose text is folded away

    The element displays "Ver mais"; its 400 letters are in the tree. *)

Definition caixaOculta : Node :=
  Element (js "div") [(js "class", js "show-more-less-html__markup")]
    (js "Ver mais") [Text texto400].

Definition paginaOculta : Snapshot := html (js "Ver mais") [caixaOculta].

(** *** A link that the URL parser rejects *)

Definition linkSemEsquema : jsstring :=
  js "linkedin.com/jobs/search?currentJobId=42&start=25".

(** *** An installation

    The files are under [/app]; every file exists except, when [prompt] is
    [None], the prompt file; the CSV has a row with a link, a row without
    one and a second row with a link. *)

Definition comLink (link : jsstring) : Vaga :=
  {| coluna_link := Some link; coluna_Link := None;
     coluna_url := None; coluna_URL := None |}.

Definition semLink : Vaga :=
  {| coluna_link := None; coluna_Link := None;
     coluna_url := Some []; coluna_URL := None |}.

Definition tresLinhas : list Vaga :=
  [comLink linkExemplo; semLink; comLink linkSemEsquema].

Definition ehPrompt (caminho : jsstring) : bool :=
  jseqb caminho (js "/app/prompt_agente.txt").

Definition instalacao (chave prompt : option jsstring) (browser : Browser)
  : Ambiente :=
  {| OPENAI_API_KEY := chave;
     OPENAI_MODEL := None;
     noDiretorio := fun nome => js "/app/" ++ nome;
     pathJoin := fun dir nome => dir ++ js "/" ++ nome;
     existsSync := fun _ caminho =>
       if ehPrompt caminho
       then match prompt with Some _ => true | None => false end
       else true;
     mkdirSync := fun _ _ => Ok tt;
     writeFileSync := fun _ _ _ => Ok tt;
     readFileSync := fun _ caminho =>
       if ehPrompt caminho
       then match prompt with
            | Some p => Ok p
            | None => Throw (mkError (js "ENOENT"))
            end
       else Ok (js "  Maria Silva - Engenheira de software  ");
     parseCSV := fun _ _ => Ok tresLinhas;
     toBuffer := fun _ paragrafos => Ok (concat paragrafos);
     completion := fun _ _ => Ok (js "Maria Silva - requisitos atendidos");
     toLocaleString := fun _ => js "02/11/2026, 10:00:00";
     launch := fun _ => Ok tt;
     navegador := fun _ => browser;
     closeBrowser := fun _ => Ok tt |}.

Definition chaveExemplo : option jsstring := Some (js "sk-exemplo").

Definition promptExemplo : jsstring := js "  Resuma a vaga em cinco linhas.  ".

(** * Properties *)

Unset Implicit Arguments.

(** ** Strings: what [trim] keeps *)

Lemma trimStart_split (s : jsstring) :
  exists w, s = w ++ trimStart s /\ forallb isWhiteSpace w = true.
Proof.
  induction s as [|c r IH]; simpl.
  - exists []; auto.
  - destruct (isWhiteSpace c) eqn:E.
    + destruct IH as [w [H1 H2]]. exists (c :: w). simpl.
      rewrite E, H2. split; [f_equal; exact H1 | reflexivity].
    + exists []; auto.
Qed.

Lemma comecaBem_trimStart (s : jsstring) : comecaBem (trimStart s).
Proof.
  induction s as [|c r IH]; simpl; [exact I|].
  destruct (isWhiteSpace c) eqn:E; [exact IH | simpl; exact E].
Qed.

Lemma trimStart_fix (s : jsstring) : comecaBem s -> trimStart s = s.
Proof. destruct s as [|c r]; simpl; intros H; [reflexivity | now rewrite H]. Qed.

Lemma trimStart_nil_iff (s : jsstring) :
  trimStart s = [] <-> forallb isWhiteSpace s = true.
Proof.
  induction s as [|c r IH]; simpl; [tauto|].
  destruct (isWhiteSpace c); simpl; [exact IH|].
  split; discriminate.
Qed.

Lemma forallb_rev {A} (f : A -> bool) (l : list A) :
  forallb f (rev l) = forallb f l.
Proof.
  induction l as [|a l IH]; simpl; [reflexivity|].
  rewrite forallb_app, IH. simpl. rewrite andb_true_r. apply andb_comm.
Qed.

Lemma trimEnd_split (s : jsstring) :
  exists w, s = trimEnd s ++ w /\ forallb isWhiteSpace w = true.
Proof.
  destruct (trimStart_split (rev s)) as [w [H1 H2]].
  exists (rev w). split.
  - unfold trimEnd. rewrite <- rev_app_distr, <- H1. symmetry. apply rev_involutive.
  - now rewrite forallb_rev.
Qed.

Lemma trim_aparado (s : jsstring) : aparado (trim s).
Proof.
  unfold aparado, trim. split.
  - pose proof (comecaBem_trimStart s) as Hc.
    destruct (trimEnd_split (trimStart s)) as [w [H1 _]].
    destruct (trimEnd (trimStart s)) as [|c r]; [exact I|].
    rewrite H1 in Hc. exact Hc.
  - unfold terminaBem, trimEnd. rewrite rev_involutive.
    apply comecaBem_trimStart.
Qed.

Lemma trim_fix (s : jsstring) : aparado s -> trim s = s.
Proof.
  intros [H1 H2]. unfold trim, trimEnd.
  rewrite (trimStart_fix _ H1), (trimStart_fix _ H2). apply rev_involutive.
Qed.

Lemma trim_nil_iff (s : jsstring) :
  trim s = [] <-> forallb isWhiteSpace s = true.
Proof.
  unfold trim, trimEnd. split.
  - intros H. apply (f_equal (@rev N)) in H. rewrite rev_involutive in H.
    simpl in H. apply trimStart_nil_iff in H. rewrite forallb_rev in H.
    pose proof (comecaBem_trimStart s) as Hc.
    apply trimStart_nil_iff.
    destruct (trimStart s) as [|c r]; [reflexivity|].
    simpl in Hc, H. rewrite Hc in H. discriminate.
  - intros H. apply trimStart_nil_iff in H. now rewrite H.
Qed.

Lemma aparado_app (a m b : jsstring) :
  aparado a -> aparado b -> a <> [] -> b <> [] -> aparado (a ++ m ++ b).
Proof.
  intros [Ha _] [_ Hb] Na Nb. split.
  - destruct a as [|c r]; [congruence | exact Ha].
  - unfold terminaBem in *. rewrite !rev_app_distr.
    destruct (rev b) as [|c r] eqn:E.
    + apply (f_equal (@rev N)) in E. rewrite rev_involutive in E.
      simpl in E. congruence.
    + exact Hb.
Qed.

Lemma trimStart_skip (w s : jsstring) :
  forallb isWhiteSpace w = true -> trimStart (w ++ s) = trimStart s.
Proof.
  induction w as [|c w IH]; simpl; [reflexivity|].
  intros H. apply andb_true_iff in H. destruct H as [Hc Hw].
  rewrite Hc. exact (IH Hw).
Qed.

Lemma trim_blank_line (x : jsstring) :
  aparado x -> trim (x ++ LFLF) = x.
Proof.
  intros [H1 H2]. destruct x as [|c r]; [reflexivity|].
  unfold trim, trimEnd.
  rewrite (trimStart_fix ((c :: r) ++ LFLF)) by exact H1.
  rewrite rev_app_distr, trimStart_skip by reflexivity.
  rewrite (trimStart_fix _ H2). apply rev_involutive.
Qed.

(** Every fragment followed by a blank line is the fragments joined by
    blank lines, and one more blank line. *)
Lemma concat_blank_lines (frags : list jsstring) :
  frags <> [] ->
  concat (map (fun f => f ++ LFLF) frags) = join LFLF frags ++ LFLF.
Proof.
  induction frags as [|f rest IH]; [congruence|]. intros _.
  destruct rest as [|g rest'].
  - simpl. now rewrite app_nil_r.
  - change (concat (map (fun f0 => f0 ++ LFLF) (f :: g :: rest')))
      with ((f ++ LFLF) ++ concat (map (fun f0 => f0 ++ LFLF) (g :: rest'))).
    rewrite IH by discriminate.
    change (join LFLF (f :: g :: rest'))
      with (f ++ LFLF ++ join LFLF (g :: rest')).
    now rewrite <- !app_assoc.
Qed.

Lemma join_nil_iff (sep : jsstring) (p : jsstring) (rest : list jsstring) :
  p <> [] -> join sep (p :: rest) <> [].
Proof.
  intros Hp. destruct rest; simpl; [exact Hp|].
  destruct p; [congruence | discriminate].
Qed.

Lemma aparado_join (frags : list jsstring) :
  Forall (fun f => aparado f /\ f <> []) frags ->
  aparado (join LFLF frags).
Proof.
  induction 1 as [|f rest [Hf Nf] Hrest IH]; [split; exact I|].
  destruct rest as [|g rest'].
  - exact Hf.
  - change (join LFLF (f :: g :: rest'))
      with (f ++ LFLF ++ join LFLF (g :: rest')).
    apply aparado_app; auto.
    apply join_nil_iff. inversion Hrest; tauto.
Qed.


(** ** The monad: no computation of the program reads the log *)

Lemma uniforme_ret {A} (a : A) : uniforme (ret a).
Proof. intros l. unfold ret, eventos, resultado, run. simpl. now rewrite app_nil_r. Qed.

Lemma uniforme_lift {A} (r : result A) : uniforme (lift r).
Proof. intros l. unfold lift, eventos, resultado, run. simpl. now rewrite app_nil_r. Qed.

Lemma uniforme_emit (ev : Event) : uniforme (emit ev).
Proof. intros l. reflexivity. Qed.

Lemma run_bind {A B} (m : M A) (k : A -> M B) :
  uniforme m -> (forall a, uniforme (k a)) ->
  run (bind m k) =
  match resultado m with
  | Ok a => (eventos m ++ eventos (k a), resultado (k a))
  | Throw e => (eventos m, Throw e)
  end.
Proof.
  intros Hm Hk. unfold run, bind.
  pose proof (Hm []) as E. change ([] ++ eventos m) with (eventos m) in E.
  rewrite E. destruct (resultado m) as [a|e]; [apply Hk | reflexivity].
Qed.

Lemma uniforme_bind {A B} (m : M A) (k : A -> M B) :
  uniforme m -> (forall a, uniforme (k a)) -> uniforme (bind m k).
Proof.
  intros Hm Hk l.
  unfold eventos, resultado. rewrite (run_bind m k Hm Hk).
  unfold bind. rewrite (Hm l).
  destruct (resultado m) as [a|e]; simpl; [|reflexivity].
  rewrite (Hk a). now rewrite app_assoc.
Qed.

Lemma run_tryCatch {A} (body : M A) (handler : Error -> M A) :
  uniforme body -> (forall e, uniforme (handler e)) ->
  run (tryCatch body handler) =
  match resultado body with
  | Ok a => (eventos body, Ok a)
  | Throw e => (eventos body ++ eventos (handler e), resultado (handler e))
  end.
Proof.
  intros Hb Hh. unfold run, tryCatch.
  pose proof (Hb []) as E. change ([] ++ eventos body) with (eventos body) in E.
  rewrite E. destruct (resultado body) as [a|e]; [reflexivity | apply Hh].
Qed.

Lemma uniforme_tryCatch {A} (body : M A) (handler : Error -> M A) :
  uniforme body -> (forall e, uniforme (handler e)) ->
  uniforme (tryCatch body handler).
Proof.
  intros Hb Hh l.
  unfold eventos, resultado. rewrite (run_tryCatch body handler Hb Hh).
  unfold tryCatch. rewrite (Hb l).
  destruct (resultado body) as [a|e]; simpl; [reflexivity|].
  rewrite (Hh e). now rewrite app_assoc.
Qed.

Lemma uniforme_call {A} (ev : Event) (r : result A) : uniforme (call ev r).
Proof.
  unfold call. apply uniforme_bind; [apply uniforme_emit|].
  intros _. apply uniforme_lift.
Qed.

Lemma run_call {A} (ev : Event) (r : result A) : run (call ev r) = ([ev], r).
Proof. reflexivity. Qed.

Create HintDb uniforme.
#[local] Hint Resolve uniforme_ret uniforme_lift uniforme_emit uniforme_call
  : uniforme.

(** Splits a computation along its binds, handlers and case analyses. *)
Ltac uniforme_step :=
  match goal with
  | |- uniforme (bind _ _) => apply uniforme_bind; [|intros]
  | |- uniforme (tryCatch _ _) => apply uniforme_tryCatch; [|intros]
  | |- uniforme (match ?x with _ => _ end) => destruct x
  | |- uniforme (let _ := _ in _) => cbv zeta
  | |- _ => solve [auto with uniforme]
  end.

Ltac uniforme := repeat uniforme_step.

Section Uniformidade.

Context {platform : Platform}.

Lemma uniforme_querySelector d sel : uniforme (querySelector d sel).
Proof. apply uniforme_call. Qed.

Lemma uniforme_querySelectorAll d sel : uniforme (querySelectorAll d sel).
Proof. apply uniforme_call. Qed.

Hint Resolve uniforme_querySelector uniforme_querySelectorAll : uniforme.

Lemma uniforme_senao estrategia resto :
  uniforme estrategia -> uniforme resto -> uniforme (senao estrategia resto).
Proof. intros H1 H2. unfold senao. uniforme. Qed.

Lemma uniforme_tentarSeletor d sel : uniforme (tentarSeletor d sel).
Proof. unfold tentarSeletor, textoDoHtml. uniforme. Qed.

Hint Resolve uniforme_tentarSeletor : uniforme.

Lemma uniforme_catalogo d sels : uniforme (catalogo d sels).
Proof. induction sels as [|sel resto IH]; simpl; uniforme. Qed.

Lemma uniforme_varreduraTestId d : uniforme (varreduraTestId d).
Proof. unfold varreduraTestId. uniforme. Qed.

Lemma uniforme_varreduraAtributos d : uniforme (varreduraAtributos d).
Proof. unfold varreduraAtributos. uniforme. Qed.

Lemma uniforme_agregarParagrafos d : uniforme (agregarParagrafos d).
Proof. unfold agregarParagrafos. uniforme. Qed.

Lemma uniforme_buscarPalavrasChave d : uniforme (buscarPalavrasChave d).
Proof. unfold buscarPalavrasChave. uniforme. Qed.

Lemma uniforme_maiorBloco d : uniforme (maiorBloco d).
Proof. unfold maiorBloco. uniforme. Qed.

Lemma uniforme_limparPrincipais d : uniforme (limparPrincipais d).
Proof. unfold limparPrincipais. uniforme. Qed.

Lemma uniforme_filtrarLinhas d : uniforme (filtrarLinhas d).
Proof. unfold filtrarLinhas. uniforme. Qed.

Hint Resolve uniforme_catalogo uniforme_varreduraTestId
  uniforme_varreduraAtributos uniforme_agregarParagrafos
  uniforme_buscarPalavrasChave uniforme_maiorBloco uniforme_limparPrincipais
  uniforme_filtrarLinhas uniforme_senao : uniforme.

Lemma uniforme_extrairDescricao d : uniforme (extrairDescricao d).
Proof. unfold extrairDescricao. auto 20 with uniforme. Qed.

Lemma uniforme_extrairAlternativa d : uniforme (extrairAlternativa d).
Proof. unfold extrairAlternativa. uniforme. Qed.

Hint Resolve uniforme_extrairDescricao uniforme_extrairAlternativa : uniforme.

Lemma uniforme_evaluate {A} name snapshot (f : Snapshot -> M A) :
  (forall d, uniforme (f d)) -> uniforme (evaluate name snapshot f).
Proof. intros H. unfold evaluate. uniforme. Qed.

Lemma uniforme_abrirVaga link browser : uniforme (abrirVaga link browser).
Proof. unfold abrirVaga, ignorando. uniforme. Qed.

Lemma uniforme_posVerificacao loaded descricao :
  uniforme (posVerificacao loaded descricao).
Proof.
  unfold posVerificacao. cbv zeta.
  destruct (incompleta descricao); [|uniforme].
  apply uniforme_bind; [uniforme|intros _].
  apply uniforme_bind; [apply uniforme_evaluate; auto with uniforme|].
  intros alt. uniforme.
Qed.

Lemma uniforme_tentativa link browser : uniforme (tentativa link browser).
Proof.
  unfold tentativa.
  apply uniforme_bind; [apply uniforme_abrirVaga|intros loaded].
  apply uniforme_bind; [apply uniforme_evaluate; auto with uniforme|].
  intros descricao. apply uniforme_posVerificacao.
Qed.

Lemma uniforme_baixarDescricaoVaga link browser :
  uniforme (baixarDescricaoVaga link browser).
Proof.
  unfold baixarDescricaoVaga.
  apply uniforme_tryCatch; [apply uniforme_tentativa | intros; uniforme].
Qed.

End Uniformidade.

#[local] Hint Resolve uniforme_querySelector uniforme_querySelectorAll
  uniforme_tentarSeletor uniforme_catalogo uniforme_varreduraTestId
  uniforme_varreduraAtributos uniforme_agregarParagrafos
  uniforme_buscarPalavrasChave uniforme_maiorBloco uniforme_limparPrincipais
  uniforme_filtrarLinhas uniforme_senao uniforme_extrairDescricao
  uniforme_extrairAlternativa uniforme_abrirVaga uniforme_posVerificacao
  uniforme_baixarDescricaoVaga uniforme_tentativa uniforme_evaluate
  uniforme_tryCatch
  uniforme_bind : uniforme.

(** ** Results of binds, handlers and queries *)

Lemma resultado_uniforme {A} (m : M A) (l : Log) :
  uniforme m -> snd (m l) = resultado m.
Proof. intros H. now rewrite (H l). Qed.

Lemma run_pair {A} (m : M A) : run m = (eventos m, resultado m).
Proof. unfold eventos, resultado. now destruct (run m). Qed.

Lemma resultado_bind {A B} (m : M A) (k : A -> M B) :
  uniforme m -> (forall a, uniforme (k a)) ->
  resultado (bind m k) =
  match resultado m with
  | Ok a => resultado (k a)
  | Throw e => Throw e
  end.
Proof.
  intros Hm Hk. unfold resultado at 1. rewrite (run_bind m k Hm Hk).
  now destruct (resultado m).
Qed.

Lemma eventos_bind {A B} (m : M A) (k : A -> M B) :
  uniforme m -> (forall a, uniforme (k a)) ->
  eventos (bind m k) =
  match resultado m with
  | Ok a => eventos m ++ eventos (k a)
  | Throw e => eventos m
  end.
Proof.
  intros Hm Hk. unfold eventos at 1. rewrite (run_bind m k Hm Hk).
  now destruct (resultado m).
Qed.

Lemma resultado_tryCatch {A} (body : M A) (handler : Error -> M A) :
  uniforme body -> (forall e, uniforme (handler e)) ->
  resultado (tryCatch body handler) =
  match resultado body with
  | Ok a => Ok a
  | Throw e => resultado (handler e)
  end.
Proof.
  intros Hb Hh. unfold resultado at 1.
  rewrite (run_tryCatch body handler Hb Hh). now destruct (resultado body).
Qed.

Lemma eventos_tryCatch {A} (body : M A) (handler : Error -> M A) :
  uniforme body -> (forall e, uniforme (handler e)) ->
  eventos (tryCatch body handler) =
  match resultado body with
  | Ok a => eventos body
  | Throw e => eventos body ++ eventos (handler e)
  end.
Proof.
  intros Hb Hh. unfold eventos at 1.
  rewrite (run_tryCatch body handler Hb Hh). now destruct (resultado body).
Qed.

Lemma resultado_senao (m : M (option jsstring)) (k : M jsstring) :
  uniforme m -> uniforme k ->
  resultado (senao m k) =
  match resultado m with
  | Ok (Some t) => Ok t
  | Ok None => resultado k
  | Throw e => Throw e
  end.
Proof.
  intros Hm Hk. unfold senao. rewrite resultado_bind; auto.
  - destruct (resultado m) as [[t|]|e]; reflexivity.
  - intros [t|]; auto with uniforme.
Qed.

Lemma eventos_senao (m : M (option jsstring)) (k : M jsstring) :
  uniforme m -> uniforme k ->
  eventos (senao m k) =
  match resultado m with
  | Ok None => eventos m ++ eventos k
  | _ => eventos m
  end.
Proof.
  intros Hm Hk. unfold senao. rewrite eventos_bind; auto.
  - destruct (resultado m) as [[t|]|e]; try reflexivity.
    unfold eventos at 2. simpl. apply app_nil_r.
  - intros [t|]; auto with uniforme.
Qed.

Section Estrategias.

Context {platform : Platform}.

(** A loop over the elements of one query, as the sweeps and scans are
    written. *)
Lemma run_varredura (d : Snapshot) (sel : Selector)
    (corpo : list Node -> option jsstring) :
  run (els <- querySelectorAll d sel ;; ret (corpo els)) =
  ([QuerySelectorAll sel],
   match documentQuerySelectorAll d sel with
   | Ok els => Ok (corpo els)
   | Throw e => Throw e
   end).
Proof.
  unfold run, querySelectorAll, call, bind, emit, lift, ret. simpl.
  now destruct (documentQuerySelectorAll d sel).
Qed.

Lemma primeiro_Some corpo els t :
  primeiro corpo els = Some t -> exists el, In el els /\ corpo el = Some t.
Proof.
  induction els as [|el rest IH]; simpl; [discriminate|].
  destruct (corpo el) as [u|] eqn:E.
  - intros H. exists el. split; [now left | congruence].
  - intros H. destruct (IH H) as [el' [Hin Hc]]. exists el'. auto.
Qed.

(** What a sweep or scan returned came from the body of its loop. *)
Lemma varredura_Some (d : Snapshot) (sel : Selector) corpo t :
  resultado (els <- querySelectorAll d sel ;; ret (primeiro corpo els))
    = Ok (Some t) ->
  exists el, corpo el = Some t.
Proof.
  unfold resultado. rewrite run_varredura. simpl.
  destruct (documentQuerySelectorAll d sel) as [els|e]; [|discriminate].
  intros H. injection H as H. apply primeiro_Some in H.
  destruct H as [el [_ H]]. eauto.
Qed.

(** *** What each loop body accepts *)

Ltac guarda H :=
  repeat match type of H with
         | (if ?c then _ else _) = Some _ =>
             let E := fresh "E" in
             destruct c eqn:E; [|discriminate H]
         end;
  try (injection H as <-).

Lemma corpoTestId_aceito el t :
  corpoTestId el = Some t ->
  500 < length t /\ aparado t /\ nenhuma t negativasTestId = true.
Proof.
  unfold corpoTestId. cbv zeta. intros H. guarda H.
  apply andb_true_iff in E. destruct E as [E1 E2].
  apply Nat.ltb_lt in E1. auto using trim_aparado.
Qed.

Lemma corpoAtributos_aceito el t :
  corpoAtributos el = Some t ->
  300 < length t /\ aparado t /\ nenhuma t negativasAtributos = true
  /\ alguma t palavrasChaveAtributos = true.
Proof.
  unfold corpoAtributos. cbv zeta. intros H. guarda H.
  apply andb_true_iff in E. destruct E as [E1 E2].
  apply Nat.ltb_lt in E1. auto using trim_aparado.
Qed.

Lemma corpoDivs_aceito el t :
  corpoDivs el = Some t ->
  400 < length t /\ aparado t /\ nenhuma t metadadosDescricao = true
  /\ alguma t palavrasChaveDescricao = true.
Proof.
  unfold corpoDivs. cbv zeta. intros H. guarda H.
  apply andb_true_iff in E0. destruct E0 as [E1 E2].
  apply Nat.ltb_lt in E. auto using trim_aparado.
Qed.

Lemma corpoPrincipal_aceito el t :
  corpoPrincipal el = Some t -> 300 < length t /\ aparado t.
Proof.
  unfold corpoPrincipal. cbv zeta. intros H. guarda H.
  apply Nat.ltb_lt in E0. split; [exact E0|].
  unfold removerNavegacao. apply trim_aparado.
Qed.

Lemma corpoAlternativa_aceito el t :
  corpoAlternativa el = Some t ->
  500 < length t /\ aparado t /\ nenhuma t metadadosAlternativa = true
  /\ contem t "linkedin" = false
  /\ alguma t palavrasChaveAlternativa = true.
Proof.
  unfold corpoAlternativa. cbv zeta. intros H. guarda H.
  apply andb_true_iff in E0. destruct E0 as [E0 E3].
  apply andb_true_iff in E0. destruct E0 as [E1 E2].
  apply Nat.ltb_lt in E. apply negb_true_iff in E3.
  auto using trim_aparado.
Qed.

(** *** Paragraph aggregation *)

Lemma acumular_fragmentos ps acc n :
  acumular ps acc n =
  (acc ++ concat (map (fun f => f ++ LFLF)
                    (filter paragrafoValido (map textoParagrafo ps))),
   n + length (filter paragrafoValido (map textoParagrafo ps))).
Proof.
  revert acc n. induction ps as [|p resto IH]; intros acc n; simpl.
  - now rewrite app_nil_r, Nat.add_0_r.
  - destruct (paragrafoValido (textoParagrafo p)); rewrite IH; simpl.
    + rewrite <- !app_assoc. f_equal. lia.
    + reflexivity.
Qed.

Lemma fragmentos_aparados secao :
  Forall (fun f => aparado f /\ f <> []) (fragmentos secao).
Proof.
  unfold fragmentos. apply Forall_forall. intros f Hf.
  apply filter_In in Hf. destruct Hf as [Hin Hv].
  apply in_map_iff in Hin. destruct Hin as [p [<- _]].
  split; [apply trim_aparado|].
  unfold paragrafoValido in Hv. apply andb_true_iff in Hv.
  destruct Hv as [Hl _]. apply Nat.ltb_lt in Hl.
  intros E. rewrite E in Hl. simpl in Hl. lia.
Qed.

(** The accepted text is the fragments joined by blank lines. *)
Lemma trim_fragmentos secao :
  trim (concat (map (fun f => f ++ LFLF) (fragmentos secao)))
  = join LFLF (fragmentos secao).
Proof.
  destruct (fragmentos secao) as [|f rest] eqn:E; [reflexivity|].
  rewrite concat_blank_lines by discriminate.
  apply trim_blank_line. apply aparado_join.
  rewrite <- E. apply fragmentos_aparados.
Qed.

Lemma corpoSecao_fragmentos secao :
  corpoSecao secao =
  let frags := fragmentos secao in
  if (3 <=? length frags)
     && (500 <? length (concat (map (fun f => f ++ LFLF) frags)))
  then if nenhuma (join LFLF frags) negativasAgregado
       then Some (join LFLF frags) else None
  else None.
Proof.
  unfold corpoSecao. cbv zeta. rewrite acumular_fragmentos.
  fold (fragmentos secao). simpl. now rewrite trim_fragmentos.
Qed.

Lemma length_blank_lines (frags : list jsstring) :
  frags <> [] ->
  length (concat (map (fun f => f ++ LFLF) frags))
  = length (join LFLF frags) + 2.
Proof.
  intros H. rewrite concat_blank_lines by exact H.
  now rewrite length_app.
Qed.

Lemma corpoSecao_aceito secao t :
  corpoSecao secao = Some t ->
  498 < length t /\ aparado t /\ nenhuma t negativasAgregado = true.
Proof.
  rewrite corpoSecao_fragmentos. cbv zeta. intros H.
  destruct (_ && _) eqn:E; [|discriminate].
  destruct (nenhuma _ _) eqn:E2; [|discriminate].
  injection H as <-.
  apply andb_true_iff in E. destruct E as [E1 E3].
  apply Nat.leb_le in E1. apply Nat.ltb_lt in E3.
  assert (Hne : fragmentos secao <> []).
  { intros Z. rewrite Z in E1. simpl in E1. lia. }
  rewrite length_blank_lines in E3 by exact Hne.
  repeat split; [lia | | | exact E2];
    apply (aparado_join _ (fragmentos_aparados secao)).
Qed.

(** *** The largest relevant block *)

Lemma relevante_longo t : relevante t = true -> 500 < length t.
Proof.
  unfold relevante. intros H.
  apply andb_true_iff in H. destruct H as [H _].
  apply andb_true_iff in H. destruct H as [H _].
  now apply Nat.ltb_lt.
Qed.

Lemma melhor_invariante els best n :
  let r := melhor els best n in
  n <= snd r
  /\ (forall c, In c (candidatos els) -> length c <= snd r)
  /\ ((fst r = best /\ snd r = n
       /\ forall c, In c (candidatos els) -> length c <= n)
      \/ exists t, fst r = Some t /\ snd r = length t
                   /\ In t (candidatos els) /\ n < length t).
Proof.
  revert best n. induction els as [|el resto IH]; intros best n; simpl.
  - split; [lia|]. split; [intros c []|].
    left. split; [reflexivity|]. split; [reflexivity|]. intros c [].
  - unfold candidatos. simpl.
    destruct (relevante (textoElemento el)) eqn:R; simpl.
    + destruct (n <? length (textoElemento el)) eqn:L.
      * apply Nat.ltb_lt in L.
        destruct (IH (Some (textoElemento el)) (length (textoElemento el)))
          as [H1 [H2 H3]].
        split; [lia|]. split.
        -- intros c [<-|Hc]; [exact H1 | now apply H2].
        -- right. destruct H3 as [[F [S _]]|[t [F [S [I G]]]]].
           ++ exists (textoElemento el). rewrite S.
              split; [exact F|]. split; [reflexivity|].
              split; [now left | exact L].
           ++ exists t. split; [exact F|]. split; [exact S|].
              split; [now right | lia].
      * apply Nat.ltb_ge in L.
        destruct (IH best n) as [H1 [H2 H3]].
        split; [exact H1|]. split.
        -- intros c [<-|Hc]; [lia | now apply H2].
        -- destruct H3 as [[F [S A]]|[t [F [S [I G]]]]].
           ++ left. split; [exact F|]. split; [exact S|].
              intros c [<-|Hc]; [lia | now apply A].
           ++ right. exists t. auto.
    + destruct (IH best n) as [H1 [H2 H3]].
      split; [exact H1|]. split; [exact H2|].
      destruct H3 as [[F [S A]]|[t [F [S [I G]]]]]; [left | right; exists t];
        auto.
Qed.

(** The loop keeps a longest candidate; it keeps none only when there is
    none. *)
Lemma melhor_maior els :
  match seVerdadeiro (fst (melhor els None 0)) with
  | Some t =>
      In t (candidatos els)
      /\ forall c, In c (candidatos els) -> length c <= length t
  | None => candidatos els = []
  end.
Proof.
  destruct (melhor_invariante els None 0) as [_ [H2 H3]].
  destruct H3 as [[F [S A]]|[t [F [S [I G]]]]].
  - rewrite F. simpl.
    destruct (candidatos els) as [|c cs] eqn:E; [reflexivity|].
    exfalso. pose proof (A c (or_introl eq_refl)) as Hl.
    assert (Hc : In c (candidatos els)) by (rewrite E; now left).
    unfold candidatos in Hc. apply filter_In in Hc.
    destruct Hc as [_ Hr]. apply relevante_longo in Hr. lia.
  - rewrite F.
    assert (Hs : seVerdadeiro (Some t) = Some t)
      by (destruct t; [simpl in G; lia | reflexivity]).
    rewrite Hs. split; [exact I|].
    intros c Hc. rewrite <- S. now apply H2.
Qed.

Lemma maiorBloco_aceito_puro els t :
  seVerdadeiro (fst (melhor els None 0)) = Some t ->
  500 < length t /\ aparado t /\ nenhuma t negativasMaiorBloco = true
  /\ alguma t palavrasChaveMaiorBloco = true.
Proof.
  intros H. pose proof (melhor_maior els) as M. rewrite H in M.
  destruct M as [Hin _]. unfold candidatos in Hin.
  apply filter_In in Hin. destruct Hin as [Hin Hr].
  apply in_map_iff in Hin. destruct Hin as [el [<- _]].
  pose proof (relevante_longo _ Hr) as Hl.
  unfold relevante in Hr.
  apply andb_true_iff in Hr. destruct Hr as [Hr Hk].
  apply andb_true_iff in Hr. destruct Hr as [_ Hn].
  repeat split; auto; apply trim_aparado.
Qed.

(** *** The catalog *)

Lemma tentarSeletor_aceito d sel t :
  resultado (tentarSeletor d sel) = Ok (Some t) ->
  300 < length t /\ aparado t /\ nenhuma t negativasCatalogo = true.
Proof.
  unfold resultado, run, tentarSeletor, querySelector, call, bind, emit,
    lift, ret, textoDoHtml. simpl.
  destruct (documentQuerySelector d sel) as [[el|]|e]; simpl;
    try discriminate.
  destruct (length (trim (innerText el ||| textContent el ||| [])) <? 200);
    simpl;
    match goal with
    | |- context [if ?c then _ else _] => destruct c eqn:E
    end; simpl; try discriminate;
    intros H; injection H as <-;
    apply andb_true_iff in E; destruct E as [E1 E2];
    apply Nat.ltb_lt in E1; auto using trim_aparado.
Qed.

Lemma resultado_catalogo_cons d sel resto :
  resultado (catalogo d (sel :: resto)) =
  match resultado (tentarSeletor d sel) with
  | Ok (Some t) => Ok (Some t)
  | _ => resultado (catalogo d resto)
  end.
Proof.
  simpl. rewrite resultado_bind.
  - rewrite resultado_tryCatch by (intros; auto with uniforme).
    destruct (resultado (tentarSeletor d sel)) as [[t|]|e]; reflexivity.
  - auto with uniforme.
  - intros [t|]; auto with uniforme.
Qed.

Lemma catalogo_aceito d sels t :
  resultado (catalogo d sels) = Ok (Some t) ->
  300 < length t /\ aparado t /\ nenhuma t negativasCatalogo = true.
Proof.
  induction sels as [|sel resto IH]; [discriminate|].
  rewrite resultado_catalogo_cons.
  destruct (resultado (tentarSeletor d sel)) as [[u|]|e] eqn:E; auto.
  intros H. injection H as <-. now apply (tentarSeletor_aceito d sel).
Qed.

(** The catalog loop never throws. *)
Lemma catalogo_nao_lanca d sels :
  exists r, resultado (catalogo d sels) = Ok r.
Proof.
  induction sels as [|sel resto IH]; [now exists None|].
  rewrite resultado_catalogo_cons.
  destruct (resultado (tentarSeletor d sel)) as [[u|]|e]; eauto.
Qed.

(** *** The line filter *)

Lemma join_cons_app (sep p : jsstring) (rest : list jsstring) :
  exists r, join sep (p :: rest) = p ++ r.
Proof.
  destruct rest as [|q rest'].
  - exists []. simpl. now rewrite app_nil_r.
  - exists (sep ++ join sep (q :: rest')). reflexivity.
Qed.

Lemma linhaValida_nao_vazia linha :
  linhaValida linha = true -> forallb isWhiteSpace linha = false.
Proof.
  unfold linhaValida. cbv zeta. intros H.
  apply andb_true_iff in H. destruct H as [H _]. apply Nat.ltb_lt in H.
  destruct (forallb isWhiteSpace linha) eqn:E; [|reflexivity].
  apply trim_nil_iff in E. rewrite E in H. simpl in H. lia.
Qed.

Lemma filtrarLinhas_aceito d t :
  resultado (filtrarLinhas d) = Ok (Some t) ->
  exists linhas,
    t = join LFLF linhas /\ 5 < length linhas
    /\ Forall (fun linha => linhaValida linha = true) linhas.
Proof.
  unfold resultado, run, filtrarLinhas, querySelector, call, bind, emit,
    lift, ret. simpl.
  destruct (documentQuerySelector d seletorMainContent) as [[el|]|e]; simpl;
    try discriminate.
  destruct (1000 <? _); simpl; try discriminate.
  destruct (5 <? _) eqn:E; simpl; try discriminate.
  intros H. injection H as <-. apply Nat.ltb_lt in E.
  eexists. split; [reflexivity|]. split; [exact E|].
  apply Forall_forall. intros linha Hin. apply filter_In in Hin. tauto.
Qed.

Lemma trim_linhas_nao_vazio linhas :
  0 < length linhas ->
  Forall (fun linha => linhaValida linha = true) linhas ->
  trim (join LFLF linhas) <> [].
Proof.
  intros Hl Hv E. destruct linhas as [|p rest]; [simpl in Hl; lia|].
  apply trim_nil_iff in E.
  destruct (join_cons_app LFLF p rest) as [r Hr]. rewrite Hr in E.
  rewrite forallb_app in E. apply andb_true_iff in E. destruct E as [E _].
  inversion Hv as [|? ? Hp _]. apply linhaValida_nao_vazia in Hp.
  congruence.
Qed.

(** *** The chain *)

Lemma extrairDescricao_cadeia d : extrairDescricao d = encadear cadeia d.
Proof. reflexivity. Qed.

Lemma uniforme_executar e d : uniforme (executar e d).
Proof. destruct e; cbn [executar]; auto with uniforme. Qed.

Lemma uniforme_encadear es d : uniforme (encadear es d).
Proof.
  induction es as [|e es IH]; simpl; [apply uniforme_ret|].
  apply uniforme_senao; [apply uniforme_executar | exact IH].
Qed.

#[local] Hint Resolve uniforme_executar uniforme_encadear : uniforme.

Lemma run_encadear_cons e es d :
  run (encadear (e :: es) d) =
  match resultado (executar e d) with
  | Ok (Some t) => (eventos (executar e d), Ok t)
  | Ok None =>
      (eventos (executar e d) ++ eventos (encadear es d),
       resultado (encadear es d))
  | Throw err => (eventos (executar e d), Throw err)
  end.
Proof.
  rewrite run_pair. simpl encadear.
  rewrite resultado_senao, eventos_senao by auto with uniforme.
  destruct (resultado (executar e d)) as [[t|]|err]; reflexivity.
Qed.

(** A text returned by the chain is the sentinel or was returned by one of
    the strategies. *)
Lemma encadear_origem es d t :
  resultado (encadear es d) = Ok t ->
  t = naoEncontrada
  \/ exists e, In e es /\ resultado (executar e d) = Ok (Some t).
Proof.
  induction es as [|e es IH].
  - intros H. change (Ok naoEncontrada = Ok t) in H.
    left. symmetry. now injection H.
  - unfold resultado at 1. rewrite run_encadear_cons.
    destruct (resultado (executar e d)) as [[u|]|err] eqn:E; simpl.
    + intros H. injection H as <-. right. exists e. split; [now left | exact E].
    + intros H. destruct (IH H) as [->|[e' [Hin He']]]; [now left|].
      right. exists e'. split; [now right | exact He'].
    + discriminate.
Qed.

(** The strategy that succeeds first ends the chain: the events are those
    of the strategies up to it, and its text is the result. *)
Lemma encadear_primeira antes e depois d t :
  Forall (fun e' => resultado (executar e' d) = Ok None) antes ->
  resultado (executar e d) = Ok (Some t) ->
  run (encadear (antes ++ e :: depois) d) =
  (concat (map (fun e' => eventos (executar e' d)) (antes ++ [e])), Ok t).
Proof.
  intros Ha He. induction Ha as [|a antes Hn Ha IH]; simpl app.
  - rewrite run_encadear_cons, He. simpl. now rewrite app_nil_r.
  - rewrite run_encadear_cons, Hn.
    change (eventos (encadear (antes ++ e :: depois) d))
      with (fst (run (encadear (antes ++ e :: depois) d))).
    change (resultado (encadear (antes ++ e :: depois) d))
      with (snd (run (encadear (antes ++ e :: depois) d))).
    rewrite IH. reflexivity.
Qed.

(** When no strategy succeeds or throws, the sentinel is returned. *)
Lemma encadear_nenhuma es d :
  Forall (fun e' => resultado (executar e' d) = Ok None) es ->
  resultado (encadear es d) = Ok naoEncontrada.
Proof.
  induction 1 as [|e es Hn Hes IH]; [reflexivity|].
  unfold resultado at 1. rewrite run_encadear_cons, Hn. exact IH.
Qed.

(** What each strategy of the chain accepts: more than 300 code units of
    trimmed text, except for the line filter. *)
Lemma executar_aceito e d t :
  e <> FiltrarLinhas ->
  resultado (executar e d) = Ok (Some t) ->
  300 < length t /\ aparado t.
Proof.
  intros Hne H. destruct e; cbn [executar] in H; try congruence.
  - destruct (catalogo_aceito _ _ _ H) as [? [? _]]. auto.
  - apply varredura_Some in H. destruct H as [el H].
    destruct (corpoTestId_aceito _ _ H) as [? [? _]]. split; [lia | auto].
  - apply varredura_Some in H. destruct H as [el H].
    destruct (corpoAtributos_aceito _ _ H) as [? [? _]]. auto.
  - apply varredura_Some in H. destruct H as [el H].
    destruct (corpoSecao_aceito _ _ H) as [? [? _]]. split; [lia | auto].
  - apply varredura_Some in H. destruct H as [el H].
    destruct (corpoDivs_aceito _ _ H) as [? [? _]]. split; [lia | auto].
  - unfold maiorBloco, resultado in H. rewrite run_varredura in H.
    simpl in H.
    destruct (documentQuerySelectorAll d seletorElementos) as [els|err];
      [|discriminate].
    injection H as H.
    destruct (maiorBloco_aceito_puro _ _ H) as [? [? _]]. split; [lia | auto].
  - apply varredura_Some in H. destruct H as [el H].
    destruct (corpoPrincipal_aceito _ _ H) as [? ?]. auto.
Qed.

(** ** The outer function *)

Lemma run_evaluate {A} name snapshot (f : Snapshot -> M A) :
  (forall d, uniforme (f d)) ->
  run (evaluate name snapshot f) =
  match snapshot with
  | Ok d => (Evaluate name :: eventos (f d), resultado (f d))
  | Throw e => ([Evaluate name], Throw e)
  end.
Proof.
  intros Hf. unfold evaluate. rewrite run_bind by auto with uniforme.
  unfold resultado at 1, eventos at 1 2. rewrite run_call. simpl.
  now destruct snapshot.
Qed.

Lemma resultado_evaluate {A} name snapshot (f : Snapshot -> M A) :
  (forall d, uniforme (f d)) ->
  resultado (evaluate name snapshot f) =
  match snapshot with
  | Ok d => resultado (f d)
  | Throw e => Throw e
  end.
Proof.
  intros Hf. unfold resultado at 1. rewrite run_evaluate by exact Hf.
  now destruct snapshot.
Qed.

Lemma eventos_evaluate {A} name snapshot (f : Snapshot -> M A) :
  (forall d, uniforme (f d)) ->
  eventos (evaluate name snapshot f) =
  match snapshot with
  | Ok d => Evaluate name :: eventos (f d)
  | Throw e => [Evaluate name]
  end.
Proof.
  intros Hf. unfold eventos at 1. rewrite run_evaluate by exact Hf.
  now destruct snapshot.
Qed.

(** The page is handed over when the calls outside the guarded steps
    succeed; the guarded steps never matter. *)
Lemma resultado_abrirVaga link browser :
  resultado (abrirVaga link browser) =
  match newPage browser with
  | Throw e => Throw e
  | Ok page =>
      match setUserAgent page with
      | Throw e => Throw e
      | Ok _ =>
          match goto page (linkDaVaga link) with
          | Throw e => Throw e
          | Ok loaded =>
              match scrollHalf loaded with
              | Throw e => Throw e
              | Ok _ =>
                  match scrollBottom loaded with
                  | Throw e => Throw e
                  | Ok _ => Ok loaded
                  end
              end
          end
      end
  end.
Proof.
  unfold resultado, run, abrirVaga, ignorando, call, bind, tryCatch, emit,
    lift, ret. cbv zeta. simpl.
  destruct (newPage browser) as [page|e]; [|reflexivity]. simpl.
  destruct (setUserAgent page) as [[]|e]; [|reflexivity]. simpl.
  destruct (goto page (linkDaVaga link)) as [loaded|e]; [|reflexivity]. simpl.
  destruct (scrollHalf loaded) as [[]|e]; [|reflexivity]. simpl.
  destruct (scrollBottom loaded) as [[]|e]; [|reflexivity]. simpl.
  destruct (findVerMais loaded) as [[|]|e]; simpl;
    try destruct (click loaded) as [[]|e']; simpl;
    destruct (waitForSelector loaded) as [[]|e'']; simpl;
    destruct (scrollToDescription loaded) as [[]|e''']; reflexivity.
Qed.

Lemma run_fim loaded texto :
  run (call ClosePage (closePage loaded) ;; ret texto) =
  ([ClosePage], fechar loaded texto).
Proof.
  unfold run, call, bind, emit, lift, ret, fechar. simpl.
  now destruct (closePage loaded).
Qed.

Lemma run_posVerificacao loaded descricao :
  run (posVerificacao loaded descricao) =
  if incompleta descricao then
    match secondSnapshot loaded with
    | Throw e => ([Delay 2000; Evaluate Rescan], Throw e)
    | Ok d2 =>
        match resultado (extrairAlternativa d2) with
        | Throw e =>
            (Delay 2000 :: Evaluate Rescan :: eventos (extrairAlternativa d2),
             Throw e)
        | Ok alternativa =>
            (Delay 2000 :: Evaluate Rescan :: eventos (extrairAlternativa d2)
               ++ [ClosePage],
             fechar loaded
               (match aproveitada alternativa with
                | Some a => trim a
                | None => trim descricao
                end))
        end
    end
  else ([ClosePage], fechar loaded (trim descricao)).
Proof.
  unfold posVerificacao. cbv zeta.
  destruct (incompleta descricao); [|apply run_fim].
  rewrite run_bind; [|auto with uniforme|].
  2:{ intros _. apply uniforme_bind; [auto with uniforme|].
      intros alt. uniforme. }
  change (resultado (emit (Delay 2000))) with (@Ok unit tt).
  change (eventos (emit (Delay 2000))) with [Delay 2000].
  cbv iota beta.
  rewrite resultado_bind, eventos_bind; auto with uniforme.
  2,3: intros alt; uniforme.
  rewrite resultado_evaluate, eventos_evaluate by auto with uniforme.
  destruct (secondSnapshot loaded) as [d2|e]; simpl; [|reflexivity].
  destruct (resultado (extrairAlternativa d2)) as [alt|e]; [|reflexivity].
  match goal with
  | |- context [resultado ?K] =>
      assert (RK : run K =
                   ([ClosePage],
                    fechar loaded
                      (match aproveitada alt with
                       | Some a => trim a
                       | None => trim descricao
                       end)))
  end.
  { unfold aproveitada. destruct alt as [[|c a]|]; try apply run_fim.
    destruct (300 <? length (c :: a)); apply run_fim. }
  unfold resultado at 1, eventos at 2. rewrite RK. simpl fst. simpl snd.
  reflexivity.
Qed.

Lemma resultado_tentativa link browser :
  resultado (tentativa link browser) =
  match resultado (abrirVaga link browser) with
  | Throw e => Throw e
  | Ok loaded =>
      match firstSnapshot loaded with
      | Throw e => Throw e
      | Ok d =>
          match resultado (extrairDescricao d) with
          | Throw e => Throw e
          | Ok descricao => resultado (posVerificacao loaded descricao)
          end
      end
  end.
Proof.
  unfold tentativa. rewrite resultado_bind; auto with uniforme.
  destruct (resultado (abrirVaga link browser)) as [loaded|e]; [|reflexivity].
  rewrite resultado_bind; auto with uniforme.
  rewrite resultado_evaluate by auto with uniforme.
  now destruct (firstSnapshot loaded).
Qed.

(** No exception leaves the function. *)
Lemma resultado_baixarDescricaoVaga link browser :
  resultado (baixarDescricaoVaga link browser) =
  Ok (match resultado (tentativa link browser) with
      | Ok t => t
      | Throw e => erroAoBaixar e
      end).
Proof.
  unfold baixarDescricaoVaga.
  rewrite resultado_tryCatch; auto with uniforme.
  now destruct (resultado (tentativa link browser)).
Qed.

Lemma fechar_Ok loaded texto t : fechar loaded texto = Ok t -> t = texto.
Proof. unfold fechar. destruct (closePage loaded); congruence. Qed.

Lemma aproveitada_Some alternativa a :
  aproveitada alternativa = Some a -> alternativa = Some a /\ 300 < length a.
Proof.
  unfold aproveitada. destruct alternativa as [[|c r]|]; try discriminate.
  destruct (300 <? length (c :: r)) eqn:E; [|discriminate].
  intros H. injection H as <-. apply Nat.ltb_lt in E. auto.
Qed.

Lemma extrairAlternativa_aceito d2 a :
  resultado (extrairAlternativa d2) = Ok (Some a) ->
  exists el, corpoAlternativa el = Some a.
Proof. apply varredura_Some. Qed.

(** Where a text returned by the [try] block comes from: the first
    callback, or the second one when the post-check asked for it. *)
Lemma tentativa_origem link browser t :
  resultado (tentativa link browser) = Ok t ->
  exists loaded d descricao,
    resultado (abrirVaga link browser) = Ok loaded
    /\ firstSnapshot loaded = Ok d
    /\ resultado (extrairDescricao d) = Ok descricao
    /\ (t = trim descricao
        \/ (incompleta descricao = true
            /\ exists d2 a,
                 secondSnapshot loaded = Ok d2
                 /\ resultado (extrairAlternativa d2) = Ok (Some a)
                 /\ 300 < length a /\ t = trim a)).
Proof.
  rewrite resultado_tentativa.
  destruct (resultado (abrirVaga link browser)) as [loaded|e] eqn:E1;
    [|discriminate].
  destruct (firstSnapshot loaded) as [d|e] eqn:E2; [|discriminate].
  destruct (resultado (extrairDescricao d)) as [descricao|e] eqn:E3;
    [|discriminate].
  intros H. exists loaded, d, descricao.
  split; [reflexivity|]. split; [exact E2|]. split; [exact E3|].
  unfold resultado in H. rewrite run_posVerificacao in H.
  destruct (incompleta descricao).
  - destruct (secondSnapshot loaded) as [d2|e] eqn:E4; [|discriminate].
    destruct (resultado (extrairAlternativa d2)) as [alt|e] eqn:Ea;
      [|discriminate].
    simpl in H. apply fechar_Ok in H.
    destruct (aproveitada alt) as [a|] eqn:Ap; [|now left].
    apply aproveitada_Some in Ap. destruct Ap as [-> Hl].
    right. split; [reflexivity|]. exists d2, a. auto.
  - simpl in H. apply fechar_Ok in H. now left.
Qed.

Lemma trim_naoEncontrada : trim naoEncontrada = naoEncontrada.
Proof. vm_compute. reflexivity. Qed.

Lemma startsWith_app (p s : jsstring) : startsWith p (p ++ s) = true.
Proof.
  induction p as [|c p IH]; simpl; [reflexivity|].
  now rewrite N.eqb_refl, IH.
Qed.

(** ** The returned value *)

(** C1.  A text returned by [baixarDescricaoVaga] that is neither the
    sentinel nor an error string is longer than 300 code units unless it
    comes from the main-content line filter: every other strategy of the
    chain, and the second callback, hand over a text only when it is longer
    than 300.  The line filter returns on its line count alone, and that
    text is returned, trimmed, whatever its length. *)
Theorem C1_short_text_only_from_line_filter link browser l t :
  snd (baixarDescricaoVaga link browser l) = Ok t ->
  300 < length t
  \/ t = naoEncontrada
  \/ (exists e, t = erroAoBaixar e)
  \/ (exists loaded d t0,
        resultado (abrirVaga link browser) = Ok loaded
        /\ firstSnapshot loaded = Ok d
        /\ resultado (filtrarLinhas d) = Ok (Some t0)
        /\ t = trim t0).
Proof.
  rewrite resultado_uniforme by apply uniforme_baixarDescricaoVaga.
  rewrite resultado_baixarDescricaoVaga. intros H. injection H as H.
  destruct (resultado (tentativa link browser)) as [t'|e] eqn:E.
  2:{ right. right. left. exists e. now symmetry. }
  subst t'.
  destruct (tentativa_origem _ _ _ E)
    as [loaded [d [descricao [Ha [Hd [Hc Ht]]]]]].
  destruct Ht as [->|[_ [d2 [a [_ [Halt [_ ->]]]]]]].
  - rewrite extrairDescricao_cadeia in Hc.
    destruct (encadear_origem _ _ _ Hc) as [->|[e [_ He]]].
    + right. left. apply trim_naoEncontrada.
    + destruct e;
        try (left;
             match type of He with
             | resultado (executar ?s d) = _ =>
                 destruct (executar_aceito s d descricao) as [Hl Hap];
                 [discriminate | exact He |]
             end;
             rewrite (trim_fix _ Hap); exact Hl).
      right. right. right. exists loaded, d, descricao. auto.
  - left. destruct (extrairAlternativa_aceito _ _ Halt) as [el Hel].
    destruct (corpoAlternativa_aceito _ _ Hel) as [Hl [Hap _]].
    rewrite (trim_fix _ Hap). lia.
Qed.

(** C10.  [baixarDescricaoVaga] never throws and always returns a non-empty
    string: when an exception reaches the handler, the string
    "Erro ao baixar descrição: " followed by its message; otherwise the
    sentinel, the trimmed text of a strategy of the chain, or the text of
    the second callback. *)
Theorem C10_total_and_non_empty link browser l :
  exists t,
    snd (baixarDescricaoVaga link browser l) = Ok t
    /\ t <> []
    /\ match resultado (tentativa link browser) with
       | Throw e =>
           t = js "Erro ao baixar descrição: " ++ message e
           /\ startsWith (js "Erro ao baixar descrição: ") t = true
       | Ok _ =>
           t = naoEncontrada
           \/ (exists d e t0,
                 resultado (executar e d) = Ok (Some t0) /\ t = trim t0)
           \/ (exists el, corpoAlternativa el = Some t)
       end.
Proof.
  rewrite resultado_uniforme by apply uniforme_baixarDescricaoVaga.
  rewrite resultado_baixarDescricaoVaga.
  destruct (resultado (tentativa link browser)) as [t|e] eqn:E.
  - exists t. split; [reflexivity|].
    destruct (tentativa_origem _ _ _ E)
      as [loaded [d [descricao [Ha [Hd [Hc Ht]]]]]].
    destruct Ht as [->|[_ [d2 [a [_ [Halt [_ ->]]]]]]].
    + rewrite extrairDescricao_cadeia in Hc.
      destruct (encadear_origem _ _ _ Hc) as [->|[e [_ He]]].
      * rewrite trim_naoEncontrada. split; [|now left].
        vm_compute. discriminate.
      * split; [|right; left; exists d, e, descricao; auto].
        destruct e;
          try (match type of He with
               | resultado (executar ?s d) = _ =>
                   destruct (executar_aceito s d descricao) as [Hl Hap];
                   [discriminate | exact He |]
               end;
               rewrite (trim_fix _ Hap); intros Z; rewrite Z in Hl;
               simpl in Hl; lia).
        cbn [executar] in He.
        destruct (filtrarLinhas_aceito _ _ He) as [linhas [-> [Hn Hv]]].
        apply trim_linhas_nao_vazio; [lia | exact Hv].
    + destruct (extrairAlternativa_aceito _ _ Halt) as [el Hel].
      destruct (corpoAlternativa_aceito _ _ Hel) as [Hl [Hap _]].
      rewrite (trim_fix _ Hap). split.
      * intros Z. rewrite Z in Hl. simpl in Hl. lia.
      * right. right. exists el. exact Hel.
  - exists (erroAoBaixar e). split; [reflexivity|]. unfold erroAoBaixar.
    split; [|split; [reflexivity | apply startsWith_app]].
    vm_compute. discriminate.
Qed.

(** C3.  When the page cannot be opened, the navigation fails
    or the document cannot be read, the exception is caught inside
    [baixarDescricaoVaga]: the caller receives the ordinary string
    "Erro ao baixar descrição: " followed by the message, and no exception
    leaves the function. *)
Theorem C3_failure_is_returned_as_text link browser l e :
  newPage browser = Throw e
  \/ (exists page,
        newPage browser = Ok page /\ setUserAgent page = Ok tt
        /\ goto page (linkDaVaga link) = Throw e)
  \/ (exists loaded,
        resultado (abrirVaga link browser) = Ok loaded
        /\ firstSnapshot loaded = Throw e) ->
  snd (baixarDescricaoVaga link browser l) = Ok (erroAoBaixar e)
  /\ forall e', snd (baixarDescricaoVaga link browser l) <> Throw e'.
Proof.
  intros H.
  rewrite resultado_uniforme by apply uniforme_baixarDescricaoVaga.
  rewrite resultado_baixarDescricaoVaga. split; [|discriminate].
  rewrite resultado_tentativa.
  destruct H as [H|[[page [H1 [H2 H3]]]|[loaded [H1 H2]]]].
  - rewrite resultado_abrirVaga, H. reflexivity.
  - rewrite resultado_abrirVaga, H1, H2, H3. reflexivity.
  - rewrite H1, H2. reflexivity.
Qed.

(** C2.  The post-check starts the second callback exactly
    when the first result, trimmed, is shorter than 300 code units or
    contains "nível de experiência" or "tipo de emprego" (the sentinel is
    such a result).  The second callback runs once, after a delay of 2000
    ms, and is not the strategy chain: it is one query for all elements and
    one keyword scan over them.  Its text is returned when it found one;
    otherwise the first result is returned, trimmed.  Nothing runs after it
    but the closing of the page. *)
Theorem C2_single_rescan loaded descricao d2 els :
  secondSnapshot loaded = Ok d2 ->
  documentQuerySelectorAll d2 seletorTodos = Ok els ->
  run (posVerificacao loaded descricao) =
  (if incompleta descricao
   then ([Delay 2000; Evaluate Rescan; QuerySelectorAll seletorTodos;
          ClosePage],
         fechar loaded
           (match primeiro corpoAlternativa els with
            | Some a => a
            | None => trim descricao
            end))
   else ([ClosePage], fechar loaded (trim descricao)))
  /\ rescans (eventos (posVerificacao loaded descricao))
     = (if incompleta descricao then 1 else 0)
  /\ incompleta naoEncontrada = true.
Proof.
  intros Hs Hq.
  assert (R : run (extrairAlternativa d2) =
              ([QuerySelectorAll seletorTodos],
               Ok (primeiro corpoAlternativa els))).
  { unfold extrairAlternativa. rewrite run_varredura, Hq. reflexivity. }
  assert (E : run (posVerificacao loaded descricao) =
              (if incompleta descricao
               then ([Delay 2000; Evaluate Rescan;
                      QuerySelectorAll seletorTodos; ClosePage],
                     fechar loaded
                       (match primeiro corpoAlternativa els with
                        | Some a => a
                        | None => trim descricao
                        end))
               else ([ClosePage], fechar loaded (trim descricao)))).
  { rewrite run_posVerificacao, Hs.
    destruct (incompleta descricao); [|reflexivity].
    unfold resultado, eventos. rewrite R. simpl fst. simpl snd.
    cbv iota. f_equal. f_equal.
    destruct (primeiro corpoAlternativa els) as [a|] eqn:P; [|reflexivity].
    apply primeiro_Some in P. destruct P as [el [_ Hel]].
    destruct (corpoAlternativa_aceito _ _ Hel) as [Hl [Hap _]].
    assert (Ha : aproveitada (Some a) = Some a).
    { unfold aproveitada. destruct a as [|c r]; [simpl in Hl; lia|].
      assert (L : (300 <? length (c :: r)) = true) by (apply Nat.ltb_lt; lia).
      now rewrite L. }
    rewrite Ha. apply trim_fix. exact Hap. }
  split; [exact E|]. split.
  - unfold eventos. rewrite E. now destruct (incompleta descricao).
  - unfold incompleta. rewrite trim_naoEncontrada. reflexivity.
Qed.

(** C4.  Each strategy rejects, whatever the length, a text
    that contains a keyword of its own list: the text a strategy returns
    contains none of them.  The lists differ from one strategy to the
    next, and the stripping of the main region and the line filter test
    the returned text against no list. *)
Theorem C4_own_negative_keywords e d t :
  resultado (executar e d) = Ok (Some t) ->
  nenhuma t (negativas e) = true.
Proof.
  intros H. destruct e; cbn [executar negativas] in *;
    try reflexivity.
  - now destruct (catalogo_aceito _ _ _ H) as [_ [_ ?]].
  - apply varredura_Some in H. destruct H as [el H].
    now destruct (corpoTestId_aceito _ _ H) as [_ [_ ?]].
  - apply varredura_Some in H. destruct H as [el H].
    now destruct (corpoAtributos_aceito _ _ H) as [_ [_ [? _]]].
  - apply varredura_Some in H. destruct H as [el H].
    now destruct (corpoSecao_aceito _ _ H) as [_ [_ ?]].
  - apply varredura_Some in H. destruct H as [el H].
    now destruct (corpoDivs_aceito _ _ H) as [_ [_ [? _]]].
  - unfold maiorBloco, resultado in H. rewrite run_varredura in H.
    simpl in H.
    destruct (documentQuerySelectorAll d seletorElementos) as [els|err];
      [|discriminate].
    injection H as H.
    now destruct (maiorBloco_aceito_puro _ _ H) as [_ [_ [? _]]].
Qed.

(** ** The order of the strategies *)

Lemma run_tentarSeletor_lanca d sel e :
  raises d sel = Some e ->
  run (tentarSeletor d sel) = ([QuerySelector sel], Throw e).
Proof.
  intros H.
  unfold run, tentarSeletor, querySelector, call, bind, emit, lift,
    documentQuerySelector. simpl. now rewrite H.
Qed.

Lemma run_tentarSeletor_sem_elemento d sel :
  documentQuerySelector d sel = Ok None ->
  run (tentarSeletor d sel) = ([QuerySelector sel], Ok None).
Proof.
  intros H.
  unfold run, tentarSeletor, querySelector, call, bind, emit, lift. simpl.
  now rewrite H.
Qed.

Lemma eventos_tentarSeletor d sel :
  eventos (tentarSeletor d sel) = [QuerySelector sel]
  \/ eventos (tentarSeletor d sel) = [QuerySelector sel; CreateElement "div"].
Proof.
  unfold eventos, run, tentarSeletor, querySelector, call, bind, emit, lift,
    ret, textoDoHtml. simpl.
  destruct (documentQuerySelector d sel) as [[el|]|e]; simpl; auto.
  destruct (length (trim (innerText el ||| textContent el ||| [])) <? 200);
    simpl;
    match goal with
    | |- context [if ?c then _ else _] => destruct c
    end; simpl; auto.
Qed.

Lemma run_catalogo_cons d sel resto :
  run (catalogo d (sel :: resto)) =
  match resultado (tentarSeletor d sel) with
  | Ok (Some t) => (eventos (tentarSeletor d sel), Ok (Some t))
  | _ => (eventos (tentarSeletor d sel) ++ eventos (catalogo d resto),
          resultado (catalogo d resto))
  end.
Proof.
  rewrite run_pair, resultado_catalogo_cons. simpl catalogo.
  rewrite eventos_bind by (try intros [t|]; auto with uniforme).
  rewrite resultado_tryCatch, eventos_tryCatch by auto with uniforme.
  destruct (resultado (tentarSeletor d sel)) as [[t|]|e]; try reflexivity.
  - unfold eventos at 2. simpl. now rewrite app_nil_r.
  - unfold eventos at 2. simpl. now rewrite app_nil_r.
Qed.

Lemma eventos_catalogo d sels :
  Forall (eventoDoCatalogo sels) (eventos (catalogo d sels)).
Proof.
  induction sels as [|sel resto IH]; [constructor|].
  unfold eventos. rewrite run_catalogo_cons.
  assert (H1 : Forall (eventoDoCatalogo (sel :: resto))
                 (eventos (tentarSeletor d sel))).
  { destruct (eventos_tentarSeletor d sel) as [-> | ->];
      repeat constructor; simpl; auto. }
  assert (H2 : Forall (eventoDoCatalogo (sel :: resto))
                 (eventos (catalogo d resto))).
  { eapply Forall_impl; [|exact IH].
    intros [] Hev; simpl in *; auto. }
  destruct (resultado (tentarSeletor d sel)) as [[t|]|e]; simpl;
    auto using Forall_app; apply Forall_app; auto.
Qed.

(** What the strategies after the catalog leave in the log. *)
Lemma eventos_executar e d :
  e <> Catalogo -> eventos (executar e d) = [consulta e].
Proof.
  intros H. destruct e; try congruence; cbn [executar consulta];
    try (unfold eventos; apply (f_equal fst (run_varredura _ _ _))).
  unfold eventos, run, filtrarLinhas, querySelector, call, bind, emit, lift,
    ret. simpl.
  destruct (documentQuerySelector d seletorMainContent) as [[el|]|err];
    simpl; try reflexivity.
  destruct (1000 <? _); simpl; try reflexivity.
  destruct (5 <? _); reflexivity.
Qed.

(** Every strategy that runs leaves its first query in the log. *)
Lemma consulta_registrada e d : In (consulta e) (eventos (executar e d)).
Proof.
  destruct e;
    try (rewrite eventos_executar by discriminate; now left).
  cbn [executar consulta]. unfold seletoresPrioritarios.
  unfold eventos. rewrite run_catalogo_cons.
  assert (H : In (QuerySelector [[SClass "show-more-less-html__markup"]])
                (eventos (tentarSeletor d
                            [[SClass "show-more-less-html__markup"]]))).
  { destruct (eventos_tentarSeletor d
                [[SClass "show-more-less-html__markup"]]) as [-> | ->];
      now left. }
  destruct (resultado (tentarSeletor d _)) as [[t|]|err]; simpl;
    auto using in_or_app.
Qed.

Lemma executar_sem_falha e d :
  Forall (fun s => raises d s = None) seletoresDeReserva ->
  exists r, resultado (executar e d) = Ok r.
Proof.
  intros H. unfold seletoresDeReserva in H.
  repeat match goal with
         | H : Forall _ (_ :: _) |- _ =>
             let H1 := fresh "R" in
             apply Forall_cons_iff in H; destruct H as [H1 H]
         end.
  destruct e; cbn [executar];
    try apply catalogo_nao_lanca;
    try (unfold resultado;
         match goal with
         | |- context [run ?m] =>
             unfold varreduraTestId, varreduraAtributos, agregarParagrafos,
               buscarPalavrasChave, maiorBloco, limparPrincipais;
             rewrite run_varredura; unfold documentQuerySelectorAll;
             rewrite ?R, ?R0, ?R1, ?R2, ?R3, ?R4; simpl; eauto
         end).
  unfold resultado, run, filtrarLinhas, querySelector, call, bind, emit,
    lift, ret, documentQuerySelector. simpl. rewrite R5.
  destruct (find _ _) as [el|]; simpl; eauto.
  destruct (1000 <? _); simpl; eauto.
  destruct (5 <? _); simpl; eauto.
Qed.

Lemma encadear_sem_falha es d :
  (forall e, exists r, resultado (executar e d) = Ok r) ->
  exists t, resultado (encadear es d) = Ok t.
Proof.
  intros H. induction es as [|e es IH]; [eexists; reflexivity|].
  unfold resultado. rewrite run_encadear_cons.
  destruct (H e) as [[t|] ->]; simpl; eauto.
Qed.

(** C5.  A catalog selector whose query raises is treated as a selector
    that matches no element: the loop goes on with the next selector, with
    the same log and result as after a miss, and the loop itself never
    throws.  When none of the later queries raises, the callback returns a
    text or the sentinel. *)
Theorem C5_raising_rule_is_a_miss d sel resto e :
  raises d sel = Some e ->
  run (catalogo d (sel :: resto))
  = (QuerySelector sel :: eventos (catalogo d resto),
     resultado (catalogo d resto))
  /\ (forall d', documentQuerySelector d' sel = Ok None ->
        run (tryCatch (tentarSeletor d sel) (fun _ => ret None))
        = run (tryCatch (tentarSeletor d' sel) (fun _ => ret None)))
  /\ (forall sels, exists r, resultado (catalogo d sels) = Ok r)
  /\ (Forall (fun s => raises d s = None) seletoresDeReserva ->
      exists t, resultado (extrairDescricao d) = Ok t).
Proof.
  intros H. pose proof (run_tentarSeletor_lanca d sel e H) as R.
  split; [|split; [|split]].
  - rewrite run_catalogo_cons.
    replace (resultado (tentarSeletor d sel)) with (@Throw (option jsstring) e)
      by (unfold resultado; now rewrite R).
    replace (eventos (tentarSeletor d sel)) with [QuerySelector sel]
      by (unfold eventos; now rewrite R).
    reflexivity.
  - intros d' Hd'. pose proof (run_tentarSeletor_sem_elemento d' sel Hd') as R'.
    rewrite !run_tryCatch by auto with uniforme.
    unfold resultado, eventos. rewrite R, R'. reflexivity.
  - apply catalogo_nao_lanca.
  - intros Hr. rewrite extrairDescricao_cadeia.
    apply encadear_sem_falha. intros e0. now apply executar_sem_falha.
Qed.

Lemma NoDup_cadeia : NoDup cadeia.
Proof.
  unfold cadeia.
  repeat (constructor; [simpl; intuition discriminate|]). constructor.
Qed.

Lemma consulta_inj a b : consulta a = consulta b -> a = b.
Proof. destruct a, b; intros H; try reflexivity; discriminate H. Qed.

Lemma depois_nao_antes {A} (a : list A) (e : A) (b : list A) (x : A) :
  NoDup (a ++ e :: b) -> In x b -> ~ In x (a ++ [e]).
Proof.
  induction a as [|y a IH]; simpl; intros H Hx.
  - intros [<-|[]]. inversion H; contradiction.
  - inversion H as [|? ? Hn Hnd]. subst. intros [<-|Hin].
    + apply Hn. apply in_or_app. right. now right.
    + now apply (IH Hnd Hx).
Qed.

Lemma mainContent_fora_do_catalogo :
  ~ In seletorMainContent seletoresPrioritarios.
Proof.
  unfold seletoresPrioritarios, seletorMainContent. simpl.
  intuition discriminate.
Qed.

Lemma consulta_ausente x e' d :
  x <> e' -> e' <> Catalogo ->
  ~ In (consulta e') (eventos (executar x d)).
Proof.
  intros Hne Hc Hin. destruct x.
  - cbn [executar] in Hin.
    pose proof (eventos_catalogo d seletoresPrioritarios) as F.
    rewrite Forall_forall in F. specialize (F _ Hin).
    destruct e'; simpl in F; try contradiction; try congruence.
    now apply mainContent_fora_do_catalogo.
  - rewrite eventos_executar in Hin by discriminate.
    destruct Hin as [Hin|[]]. apply consulta_inj in Hin. congruence.
  - rewrite eventos_executar in Hin by discriminate.
    destruct Hin as [Hin|[]]. apply consulta_inj in Hin. congruence.
  - rewrite eventos_executar in Hin by discriminate.
    destruct Hin as [Hin|[]]. apply consulta_inj in Hin. congruence.
  - rewrite eventos_executar in Hin by discriminate.
    destruct Hin as [Hin|[]]. apply consulta_inj in Hin. congruence.
  - rewrite eventos_executar in Hin by discriminate.
    destruct Hin as [Hin|[]]. apply consulta_inj in Hin. congruence.
  - rewrite eventos_executar in Hin by discriminate.
    destruct Hin as [Hin|[]]. apply consulta_inj in Hin. congruence.
  - rewrite eventos_executar in Hin by discriminate.
    destruct Hin as [Hin|[]]. apply consulta_inj in Hin. congruence.
Qed.

Lemma nenhuma_contem t palavras p :
  nenhuma t palavras = true -> In p palavras -> contem t p = false.
Proof.
  unfold nenhuma. rewrite forallb_forall. intros H Hin.
  apply negb_true_iff. now apply H.
Qed.

Lemma completa t :
  300 < length t -> aparado t ->
  contem t "nível de experiência" = false ->
  contem t "tipo de emprego" = false ->
  incompleta t = false.
Proof.
  intros Hl Hap H1 H2. unfold incompleta.
  rewrite (trim_fix _ Hap), H1, H2.
  assert (L : (length t <? 300) = false) by (apply Nat.ltb_ge; lia).
  now rewrite L.
Qed.

(** C6.  The strategies run in the order of the chain and the first one
    that returns a text ends the callback: the log holds the queries of the
    strategies up to that one and the query of no later strategy (every
    strategy that runs logs its query).  In particular, after a catalog hit
    no fallback runs, and after a hit of an attribute sweep neither the
    paragraph aggregation nor the largest-block scan runs.  A text of the
    catalog or of the [data-test-id] sweep also passes the post-check, so
    the second callback does not run either. *)
Theorem C6_short_circuit d antes e depois t :
  cadeia = antes ++ e :: depois ->
  Forall (fun e' => resultado (executar e' d) = Ok None) antes ->
  resultado (executar e d) = Ok (Some t) ->
  run (extrairDescricao d)
  = (concat (map (fun e' => eventos (executar e' d)) (antes ++ [e])), Ok t)
  /\ (forall e', In e' depois ->
        ~ In (consulta e') (eventos (extrairDescricao d)))
  /\ (forall e' d', In (consulta e') (eventos (executar e' d')))
  /\ (e = Catalogo \/ e = VarreduraTestId -> incompleta t = false).
Proof.
  intros Hc Ha He.
  assert (R : run (extrairDescricao d)
              = (concat (map (fun e' => eventos (executar e' d))
                           (antes ++ [e])), Ok t)).
  { rewrite extrairDescricao_cadeia, Hc. now apply encadear_primeira. }
  split; [exact R|]. split; [|split; [intros; apply consulta_registrada|]].
  2:{ intros [-> | ->]; cbn [executar] in He.
      - destruct (catalogo_aceito _ _ _ He) as [Hl [Hap Hn]].
        apply completa; auto;
          apply (nenhuma_contem _ _ _ Hn); simpl; tauto.
      - apply varredura_Some in He. destruct He as [el He].
        destruct (corpoTestId_aceito _ _ He) as [Hl [Hap Hn]].
        apply completa; auto; try lia;
          apply (nenhuma_contem _ _ _ Hn); simpl; tauto. }
  intros e' Hin Hev. unfold eventos in Hev at 1. rewrite R in Hev.
  simpl fst in Hev. apply in_concat in Hev. destruct Hev as [evs [Hevs Hev]].
  apply in_map_iff in Hevs. destruct Hevs as [x [<- Hx]].
  pose proof NoDup_cadeia as N. rewrite Hc in N.
  pose proof (depois_nao_antes antes e depois e' N Hin) as Hfora.
  apply (consulta_ausente x e' d); [congruence | | exact Hev].
  intros ->. apply Hfora.
  destruct antes as [|a antes']; simpl in Hc; injection Hc as <- _;
    now left.
Qed.

(** Two snapshots with the same tree, whose queries raise on the same
    selectors, answer every query alike. *)
Lemma mesmas_consultas d d' :
  documentElement d = documentElement d' ->
  (forall sel, raises d sel = raises d' sel) ->
  forall sel,
    documentQuerySelector d sel = documentQuerySelector d' sel
    /\ documentQuerySelectorAll d sel = documentQuerySelectorAll d' sel.
Proof.
  intros Ht Hr sel. unfold documentQuerySelector, documentQuerySelectorAll.
  now rewrite Ht, Hr.
Qed.

Lemma mesmo_catalogo d d' sels :
  (forall sel, documentQuerySelector d sel = documentQuerySelector d' sel) ->
  catalogo d sels = catalogo d' sels.
Proof.
  intros H. induction sels as [|sel resto IH]; [reflexivity|].
  simpl. rewrite IH. unfold tentarSeletor, querySelector. now rewrite H.
Qed.

Lemma mesma_execucao d d' e :
  (forall sel,
     documentQuerySelector d sel = documentQuerySelector d' sel
     /\ documentQuerySelectorAll d sel = documentQuerySelectorAll d' sel) ->
  executar e d = executar e d'.
Proof.
  intros H.
  assert (H1 : forall sel,
             documentQuerySelector d sel = documentQuerySelector d' sel)
    by (intros; apply H).
  assert (H2 : forall sel,
             documentQuerySelectorAll d sel = documentQuerySelectorAll d' sel)
    by (intros; apply H).
  destruct e; cbn [executar];
    [ now apply mesmo_catalogo | .. ];
    unfold varreduraTestId, varreduraAtributos, agregarParagrafos,
      buscarPalavrasChave, maiorBloco, limparPrincipais, filtrarLinhas,
      querySelectorAll, querySelector;
    now rewrite ?H1, ?H2.
Qed.

Lemma mesmo_encadear d d' es :
  (forall sel,
     documentQuerySelector d sel = documentQuerySelector d' sel
     /\ documentQuerySelectorAll d sel = documentQuerySelectorAll d' sel) ->
  encadear es d = encadear es d'.
Proof.
  intros Q. induction es as [|e es IH]; [reflexivity|].
  simpl. now rewrite (mesma_execucao d d' e Q), IH.
Qed.

(** C7.  The result of the strategy chain and the result of
    [baixarDescricaoVaga] do not depend on what was done before: run a
    second time on the same snapshot (the same session and link), from the
    log the first run left, they return the same value; the snapshot is
    only read, and the chain is the same computation on two snapshots that
    hold the same tree and raise on the same queries. *)
Theorem C7_same_snapshot_same_result d link browser l :
  snd (extrairDescricao d (fst (extrairDescricao d l)))
  = snd (extrairDescricao d l)
  /\ snd (baixarDescricaoVaga link browser
            (fst (baixarDescricaoVaga link browser l)))
     = snd (baixarDescricaoVaga link browser l)
  /\ (forall l', snd (extrairDescricao d l') = resultado (extrairDescricao d))
  /\ (forall l', snd (baixarDescricaoVaga link browser l')
                 = resultado (baixarDescricaoVaga link browser))
  /\ (forall d',
        documentElement d = documentElement d' ->
        (forall sel, raises d sel = raises d' sel) ->
        forall l', extrairDescricao d l' = extrairDescricao d' l').
Proof.
  split; [|split; [|split; [|split]]]; intros;
    rewrite ?resultado_uniforme;
    auto using uniforme_extrairDescricao, uniforme_baixarDescricaoVaga.
  rewrite !extrairDescricao_cadeia.
  now rewrite (mesmo_encadear d d' cadeia (mesmas_consultas d d' H H0)).
Qed.

(** C8.  The largest-block scan compares the texts of all [div],
    [section], [article] and [main] elements that are longer than 500 code
    units, contain none of its negative keywords and contain one of its
    positive keywords, and returns one of greatest length (none when there
    is no such text), wherever it stands in the document. *)
Theorem C8_largest_relevant_block d els :
  documentQuerySelectorAll d seletorElementos = Ok els ->
  match resultado (maiorBloco d) with
  | Ok (Some t) =>
      In t (candidatos els)
      /\ forall c, In c (candidatos els) -> length c <= length t
  | Ok None => candidatos els = []
  | Throw _ => False
  end
  /\ forall t,
       In t (candidatos els) <->
       exists elemento,
         In elemento els /\ t = textoElemento elemento
         /\ 500 < length t
         /\ nenhuma t negativasMaiorBloco = true
         /\ alguma t palavrasChaveMaiorBloco = true.
Proof.
  intros Hq. split.
  - unfold maiorBloco, resultado. rewrite run_varredura, Hq. simpl snd.
    apply melhor_maior.
  - intros t. unfold candidatos. rewrite filter_In, in_map_iff.
    unfold relevante. rewrite !andb_true_iff, Nat.ltb_lt. split.
    + intros [[el [<- Hin]] [[Hl Hn] Hk]]. exists el. auto.
    + intros [el [Hin [-> [Hl [Hn Hk]]]]]. split; [exists el|]; auto.
Qed.

(** C9.  The aggregation accepts a container exactly when the
    texts of its descendant [p], [li], [div] and [span] elements (nested
    ones included, not only leaves) that are longer than 50 code units and
    contain no metadata phrase number at least 3, their concatenation with
    a blank line after each exceeds 500 code units, and the text joined by
    blank lines contains none of "linkedin", "entrar", "cadastre-se"; the
    accepted text is the fragments joined by blank lines.  When the catalog
    and both attribute sweeps return nothing, the callback returns the
    aggregate of the first such container in document order. *)
Theorem C9_paragraph_aggregation d secoes t :
  resultado (catalogo d seletoresPrioritarios) = Ok None ->
  resultado (varreduraTestId d) = Ok None ->
  resultado (varreduraAtributos d) = Ok None ->
  documentQuerySelectorAll d seletorSecoes = Ok secoes ->
  primeiro corpoSecao secoes = Some t ->
  resultado (extrairDescricao d) = Ok t
  /\ (exists secao, In secao secoes /\ t = join LFLF (fragmentos secao))
  /\ (forall secao,
        corpoSecao secao =
        if (3 <=? length (fragmentos secao))
           && (500 <? length (join LFLF (fragmentos secao)) + 2)
           && nenhuma (join LFLF (fragmentos secao)) negativasAgregado
        then Some (join LFLF (fragmentos secao))
        else None).
Proof.
  intros H1 H2 H3 Hq Hp.
  assert (C : forall secao,
             corpoSecao secao =
             if (3 <=? length (fragmentos secao))
                && (500 <? length (join LFLF (fragmentos secao)) + 2)
                && nenhuma (join LFLF (fragmentos secao)) negativasAgregado
             then Some (join LFLF (fragmentos secao))
             else None).
  { intros secao. rewrite corpoSecao_fragmentos. cbv zeta.
    destruct (fragmentos secao) as [|f rest] eqn:E; [reflexivity|].
    rewrite length_blank_lines by discriminate.
    now destruct (_ && _); destruct (nenhuma _ _). }
  split; [|split; [|exact C]].
  - assert (H4 : resultado (executar AgregarParagrafos d) = Ok (Some t)).
    { cbn [executar]. unfold agregarParagrafos, resultado.
      rewrite run_varredura, Hq. simpl. now rewrite Hp. }
    pose proof (encadear_primeira
                  [Catalogo; VarreduraTestId; VarreduraAtributos]
                  AgregarParagrafos
                  [BuscarPalavrasChave; MaiorBloco; LimparPrincipais;
                   FiltrarLinhas] d t) as R.
    rewrite extrairDescricao_cadeia. unfold resultado at 1.
    change cadeia with
      ([Catalogo; VarreduraTestId; VarreduraAtributos]
         ++ AgregarParagrafos
         :: [BuscarPalavrasChave; MaiorBloco; LimparPrincipais;
             FiltrarLinhas]).
    rewrite R; [reflexivity | | exact H4].
    repeat constructor; assumption.
  - apply primeiro_Some in Hp. destruct Hp as [secao [Hin Hc]].
    exists secao. split; [exact Hin|].
    rewrite C in Hc. destruct (_ && _); congruence.
Qed.

End Estrategias.

(** ** Concrete pages *)

(** C1, on a concrete page.  On the page whose main region is mostly brand
    text the line filter keeps six lines of 21 letters; the second callback
    finds nothing, and the function returns 136 code units that are neither
    the sentinel nor an error string. *)
Lemma C1_counterexample :
  snd (run (baixar linkExemplo (sessao paginaMarca paginaMarca)))
  = Ok textoCurto
  /\ length textoCurto = 136
  /\ textoCurto <> naoEncontrada
  /\ startsWith (js "Erro ao baixar descrição: ") textoCurto = false.
Proof.
  split; [vm_compute; reflexivity|]. split; [vm_compute; reflexivity|].
  split; [|vm_compute; reflexivity].
  intros H. apply (f_equal (@length N)) in H. vm_compute in H. discriminate.
Qed.

Lemma C1_witness :
  snd (baixarDescricaoVaga (platform := latin1) linkExemplo
         (sessao paginaCatalogo paginaCatalogo) [])
  = Ok (trim texto1200)
  /\ (300 < length (trim texto1200)
      \/ trim texto1200 = naoEncontrada
      \/ (exists e, trim texto1200 = erroAoBaixar e)
      \/ (exists loaded d t0,
            resultado (abrirVaga (platform := latin1) linkExemplo
                         (sessao paginaCatalogo paginaCatalogo)) = Ok loaded
            /\ firstSnapshot loaded = Ok d
            /\ resultado (filtrarLinhas (platform := latin1) d) = Ok (Some t0)
            /\ trim texto1200 = trim t0)).
Proof.
  assert (H : snd (baixarDescricaoVaga (platform := latin1) linkExemplo
                     (sessao paginaCatalogo paginaCatalogo) [])
              = Ok (trim texto1200)) by (vm_compute; reflexivity).
  split; [exact H|].
  apply (C1_short_text_only_from_line_filter (platform := latin1)
           linkExemplo (sessao paginaCatalogo paginaCatalogo) []).
  exact H.
Defined.

(** C2, on a concrete page.  The first result is the short text of the line
    filter.  Re-running the strategy chain on the page the second callback
    sees would give its catalog element of 400 letters; the second callback
    finds nothing there, and the first result is returned. *)
Lemma C2_counterexample :
  snd (run (extrair paginaMarca)) = Ok textoCurto
  /\ incompleta (platform := latin1) textoCurto = true
  /\ snd (run (extrair paginaCatalogo400)) = Ok texto400
  /\ snd (run (extrairAlternativa (platform := latin1) paginaCatalogo400))
     = Ok None
  /\ snd (run (baixar linkExemplo (sessao paginaMarca paginaCatalogo400)))
     = Ok textoCurto
  /\ textoCurto <> texto400.
Proof.
  repeat (split; [vm_compute; reflexivity|]).
  intros H. apply (f_equal (@length N)) in H. vm_compute in H. discriminate.
Qed.

Lemma C2_witness :
  secondSnapshot (carregada paginaMarca paginaCatalogo400)
  = Ok paginaCatalogo400
  /\ run (posVerificacao (platform := latin1)
            (carregada paginaMarca paginaCatalogo400) textoCurto)
     = ([Delay 2000; Evaluate Rescan; QuerySelectorAll seletorTodos;
         ClosePage], Ok textoCurto).
Proof.
  split; [reflexivity|].
  destruct (C2_single_rescan (platform := latin1)
              (carregada paginaMarca paginaCatalogo400) textoCurto
              paginaCatalogo400
              (filter (matchesSelector seletorTodos)
                 (subtree (documentElement paginaCatalogo400)))
              eq_refl eq_refl) as [H _].
  rewrite H. vm_compute. reflexivity.
Defined.

(** C3, on a concrete session.  The navigation fails; the function returns a
    string and throws nothing. *)
Lemma C3_counterexample :
  snd (run (baixar linkExemplo sessaoSemRede))
  = Ok (js "Erro ao baixar descrição: net::ERR_NAME_NOT_RESOLVED")
  /\ forall e, snd (run (baixar linkExemplo sessaoSemRede)) <> Throw e.
Proof.
  split; [vm_compute; reflexivity|].
  intros e H. vm_compute in H. discriminate.
Qed.

Lemma C3_witness :
  goto abaSemRede (linkDaVaga (platform := latin1) linkExemplo) = Throw semRede
  /\ snd (baixar linkExemplo sessaoSemRede []) = Ok (erroAoBaixar semRede).
Proof.
  split; [reflexivity|].
  apply (C3_failure_is_returned_as_text (platform := latin1)
           linkExemplo sessaoSemRede [] semRede).
  right. left. exists abaSemRede. repeat split.
Defined.

(** C4, on a concrete page.  The job card is accepted by the keyword sweep,
    whose list does not hold "tipo de emprego", a keyword of the catalog's
    list; the second callback finds nothing and the text is returned. *)
Lemma C4_counterexample :
  snd (run (baixar linkExemplo (sessao paginaMetadados paginaMetadados)))
  = Ok textoMetadados
  /\ contem (platform := latin1) textoMetadados "tipo de emprego" = true
  /\ In "tipo de emprego" negativasCatalogo.
Proof.
  split; [vm_compute; reflexivity|]. split; [vm_compute; reflexivity|].
  simpl. tauto.
Qed.

Lemma C4_witness :
  resultado (executar (platform := latin1) VarreduraAtributos paginaMetadados)
  = Ok (Some textoMetadados)
  /\ nenhuma (platform := latin1) textoMetadados negativasAtributos = true.
Proof.
  assert (H : resultado (executar (platform := latin1) VarreduraAtributos
                           paginaMetadados) = Ok (Some textoMetadados))
    by (vm_compute; reflexivity).
  split; [exact H|].
  exact (C4_own_negative_keywords (platform := latin1) VarreduraAtributos
           paginaMetadados textoMetadados H).
Defined.

Lemma C5_witness :
  raises paginaComFalha primeiroSeletor = Some erroSeletor
  /\ run (catalogo (platform := latin1) paginaComFalha
            (primeiroSeletor :: tl seletoresPrioritarios))
     = (QuerySelector primeiroSeletor
          :: eventos (catalogo (platform := latin1) paginaComFalha
                        (tl seletoresPrioritarios)),
        resultado (catalogo (platform := latin1) paginaComFalha
                     (tl seletoresPrioritarios)))
  /\ exists t, resultado (extrair paginaComFalha) = Ok t.
Proof.
  split; [reflexivity|].
  destruct (C5_raising_rule_is_a_miss (platform := latin1) paginaComFalha
              primeiroSeletor (tl seletoresPrioritarios) erroSeletor eq_refl)
    as [H1 [_ [_ H4]]].
  split; [exact H1|]. apply H4. repeat constructor.
Defined.

Lemma C6_witness :
  resultado (executar (platform := latin1) VarreduraTestId paginaTestId)
  = Ok (Some texto600)
  /\ resultado (extrair paginaTestId) = Ok texto600
  /\ ~ In (consulta AgregarParagrafos) (eventos (extrair paginaTestId))
  /\ ~ In (consulta MaiorBloco) (eventos (extrair paginaTestId)).
Proof.
  assert (H : resultado (executar (platform := latin1) VarreduraTestId
                           paginaTestId) = Ok (Some texto600))
    by (vm_compute; reflexivity).
  split; [exact H|]. unfold extrair.
  destruct (C6_short_circuit (platform := latin1) paginaTestId
              [Catalogo] VarreduraTestId
              [VarreduraAtributos; AgregarParagrafos; BuscarPalavrasChave;
               MaiorBloco; LimparPrincipais; FiltrarLinhas]
              texto600 eq_refl) as [R [N _]].
  - constructor; [vm_compute; reflexivity | constructor].
  - exact H.
  - split; [unfold resultado; now rewrite R|].
    split; apply N; simpl; tauto.
Defined.

Lemma C7_witness :
  extrairDescricao (platform := latin1) paginaCatalogo []
  = extrairDescricao (platform := latin1) paginaCatalogoBis [].
Proof.
  destruct (C7_same_snapshot_same_result (platform := latin1)
              paginaCatalogo linkExemplo
              (sessao paginaCatalogo paginaCatalogo) [])
    as [_ [_ [_ [_ H]]]].
  apply H; [reflexivity|]. intros [|c sel]; reflexivity.
Defined.

Lemma C8_witness :
  candidatos (platform := latin1)
    (filter (matchesSelector seletorElementos)
       (subtree (documentElement paginaDoisBlocos)))
  = [trim blocoMenor; trim blocoMaior]
  /\ resultado (maiorBloco (platform := latin1) paginaDoisBlocos)
     = Ok (Some (trim blocoMaior))
  /\ In (trim blocoMaior)
       (candidatos (platform := latin1)
          (filter (matchesSelector seletorElementos)
             (subtree (documentElement paginaDoisBlocos)))).
Proof.
  split; [vm_compute; reflexivity|].
  assert (R : resultado (maiorBloco (platform := latin1) paginaDoisBlocos)
              = Ok (Some (trim blocoMaior))) by (vm_compute; reflexivity).
  split; [exact R|].
  destruct (C8_largest_relevant_block (platform := latin1) paginaDoisBlocos
              (filter (matchesSelector seletorElementos)
                 (subtree (documentElement paginaDoisBlocos)))
              eq_refl) as [H _].
  rewrite R in H. exact (proj1 H).
Defined.

(** C9, on a concrete page.  A container whose only text is one block of 600
    letters inside three nested [div]s has one leaf fragment, yet the code
    counts the block once for each [div] and accepts the container, with
    the block three times. *)
Lemma C9_counterexample :
  length (fragmentosFolha (platform := latin1) caixaAninhada) = 1
  /\ aceitaPelaEspecificacao (platform := latin1) caixaAninhada = false
  /\ corpoSecao (platform := latin1) caixaAninhada
     = Some (join LFLF [bloco600; bloco600; bloco600])
  /\ snd (run (extrair paginaAninhada))
     = Ok (join LFLF [bloco600; bloco600; bloco600]).
Proof.
  split; [vm_compute; reflexivity|].
  split; [vm_compute; reflexivity|].
  split; vm_compute; reflexivity.
Qed.

(** Scenario 2 of the specification, with four paragraphs of 150
    letters. *)
Lemma C9_witness :
  primeiro (corpoSecao (platform := latin1))
    (filter (matchesSelector seletorSecoes)
       (subtree (documentElement paginaParagrafos)))
  = Some (join LFLF quatroParagrafos)
  /\ resultado (extrair paginaParagrafos) = Ok (join LFLF quatroParagrafos).
Proof.
  assert (H : primeiro (corpoSecao (platform := latin1))
                (filter (matchesSelector seletorSecoes)
                   (subtree (documentElement paginaParagrafos)))
              = Some (join LFLF quatroParagrafos))
    by (vm_compute; reflexivity).
  split; [exact H|].
  apply (C9_paragraph_aggregation (platform := latin1) paginaParagrafos
           (filter (matchesSelector seletorSecoes)
              (subtree (documentElement paginaParagrafos)))
           (join LFLF quatroParagrafos));
    solve [vm_compute; reflexivity | exact H].
Defined.

(** Scenario 1 of the specification: the text of the catalog element. *)
Example cenario1 :
  run (extrair paginaCatalogo)
  = ([QuerySelector [[SClass "show-more-less-html__markup"]];
      QuerySelector [[SClass "jobs-description-content__text"]];
      QuerySelector [[SEq "data-test-id" "job-details-description"]];
      QuerySelector [[SClass "jobs-box__html-content"]]],
     Ok (trim texto1200)).
Proof. vm_compute. reflexivity. Qed.

(** * Further properties of the code *)

(** ** The link that is opened (lines 89-108 and 125-153) *)

Section Links.

Context {platform : Platform}.

Lemma takeDigits_digits s : forallb isDigit (takeDigits s) = true.
Proof.
  induction s as [|c r IH]; simpl; [reflexivity|].
  destruct (isDigit c) eqn:E; simpl; [now rewrite E|reflexivity].
Qed.

Lemma takeDigits_all d :
  forallb isDigit d = true -> takeDigits d = d.
Proof.
  induction d as [|c r IH]; simpl; [reflexivity|].
  intros H. apply andb_true_iff in H. destruct H as [Hc Hr].
  now rewrite Hc, IH.
Qed.

Lemma startsWith_split pat s :
  startsWith pat s = true -> s = pat ++ skipn (length pat) s.
Proof.
  revert s. induction pat as [|p pat IH]; intros s; simpl; [reflexivity|].
  destruct s as [|c s]; [discriminate|].
  intros H. apply andb_true_iff in H. destruct H as [Hc Hs].
  apply N.eqb_eq in Hc. subst c. f_equal. now apply IH.
Qed.

Lemma takeDigits_split s :
  exists resto,
    s = takeDigits s ++ resto
    /\ match resto with
       | [] => True
       | c :: _ => isDigit c = false
       end.
Proof.
  induction s as [|c r IH]; simpl.
  - exists []. auto.
  - destruct (isDigit c) eqn:E.
    + destruct IH as [resto [H1 H2]]. exists resto. split; [|exact H2].
      simpl. now f_equal.
    + exists (c :: r). auto.
Qed.

(** What [s.match(/prefix(\d+)/)] captures: a non-empty run of digits that
    follows the leftmost occurrence of the prefix followed by a digit, and
    that no digit continues. *)
Lemma matchDigitsAfter_Some prefix s d :
  matchDigitsAfter prefix s = Some d ->
  d <> [] /\ forallb isDigit d = true
  /\ exists antes depois,
       s = antes ++ prefix ++ d ++ depois
       /\ match depois with
          | [] => True
          | c :: _ => isDigit c = false
          end.
Proof.
  induction s as [|c r IH].
  - simpl. destruct (startsWith prefix []) eqn:E.
    + destruct prefix; [|discriminate]. simpl. discriminate.
    + discriminate.
  - cbn [matchDigitsAfter].
    destruct (startsWith prefix (c :: r)) eqn:E.
    + destruct (takeDigits (skipn (length prefix) (c :: r))) as [|x xs] eqn:T.
      * intros H. destruct (IH H) as [H1 [H2 [a [b [H3 H4]]]]].
        split; [exact H1|]. split; [exact H2|].
        exists (c :: a), b. split; [simpl; now f_equal | exact H4].
      * intros H. injection H as <-.
        split; [discriminate|]. split; [rewrite <- T; apply takeDigits_digits|].
        destruct (takeDigits_split (skipn (length prefix) (c :: r)))
          as [resto [R1 R2]].
        exists [], resto. split; [|exact R2].
        rewrite <- T, <- R1. simpl app at 1. now apply startsWith_split.
    + intros H. destruct (IH H) as [H1 [H2 [a [b [H3 H4]]]]].
      split; [exact H1|]. split; [exact H2|].
      exists (c :: a), b. split; [simpl; now f_equal | exact H4].
Qed.

Lemma matchDigitsAfter_None prefix s :
  matchDigitsAfter prefix s = None ->
  forall antes c depois,
    isDigit c = true -> s <> antes ++ prefix ++ c :: depois.
Proof.
  induction s as [|x r IH].
  - intros _ antes c depois _ H.
    destruct antes; [destruct prefix|]; discriminate.
  - cbn [matchDigitsAfter].
    destruct (startsWith prefix (x :: r)) eqn:E.
    + destruct (takeDigits (skipn (length prefix) (x :: r))) as [|y ys] eqn:T;
        [|discriminate].
      intros H antes c depois Hc Hs.
      destruct antes as [|a antes].
      * simpl in Hs. rewrite Hs in T.
        rewrite skipn_app, skipn_all, Nat.sub_diag in T. simpl in T.
        rewrite Hc in T. discriminate.
      * injection Hs as _ Hs. exact (IH H antes c depois Hc Hs).
    + intros H antes c depois Hc Hs.
      destruct antes as [|a antes].
      * simpl in Hs. rewrite Hs in E.
        rewrite startsWith_app in E. discriminate.
      * injection Hs as _ Hs. exact (IH H antes c depois Hc Hs).
Qed.

(** X3.  When the link is not a valid URL, [extrairJobIdDoLink] returns a
    non-empty run of decimal digits that follows "currentJobId=" in the
    link and is not continued by a digit, or [null] when "currentJobId=" is
    nowhere followed by a digit. *)
Theorem X3_job_id_of_unparseable_link link e :
  URL_searchParams_get link (js "currentJobId") = Throw e ->
  match extrairJobIdDoLink link with
  | Some id =>
      id <> [] /\ forallb isDigit id = true
      /\ exists antes depois,
           link = antes ++ js "currentJobId=" ++ id ++ depois
           /\ match depois with
              | [] => True
              | c :: _ => isDigit c = false
              end
  | None =>
      forall antes c depois,
        isDigit c = true -> link <> antes ++ js "currentJobId=" ++ c :: depois
  end.
Proof.
  intros H. unfold extrairJobIdDoLink. rewrite H.
  destruct (matchDigitsAfter (js "currentJobId=") link) as [id|] eqn:E.
  - now apply matchDigitsAfter_Some.
  - now apply matchDigitsAfter_None.
Qed.

(** X1.  The link that is opened is the link given, unless a job id is
    found: the id of the query when it is not empty, else the digits after
    "/jobs/view/"; it is then the direct link of that id.  The first test
    of the function (a search link with "currentJobId") never changes the
    outcome. *)
Theorem X1_opened_link link :
  linkDaVaga link =
  match extrairJobIdDoLink link with
  | Some ((_ :: _) as id) => construirLinkVaga id
  | _ =>
      match matchDigitsAfter (js "/jobs/view/") link with
      | Some id => construirLinkVaga id
      | None => link
      end
  end.
Proof.
  unfold linkDaVaga. cbv zeta.
  destruct (extrairJobIdDoLink link) as [[|c id]|] eqn:Q; simpl verdadeiro;
    cbv iota.
  - destruct (_ && _);
      destruct (matchDigitsAfter (js "/jobs/view/") link) as [d|] eqn:P;
      try reflexivity;
      destruct (matchDigitsAfter_Some _ _ _ P) as [Hd _];
      destruct d; [congruence | reflexivity | congruence | reflexivity].
  - reflexivity.
  - destruct (_ && _);
      destruct (matchDigitsAfter (js "/jobs/view/") link) as [d|] eqn:P;
      try reflexivity;
      destruct (matchDigitsAfter_Some _ _ _ P) as [Hd _];
      destruct d; [congruence | reflexivity | congruence | reflexivity].
Qed.

Lemma match_link_direto id :
  id <> [] -> forallb isDigit id = true ->
  matchDigitsAfter (js "/jobs/view/") (construirLinkVaga id) = Some id.
Proof.
  intros Hn Hd. unfold construirLinkVaga.
  change (js "https://www.linkedin.com/jobs/view/")
    with (js "https://www.linkedin.com" ++ js "/jobs/view/").
  rewrite <- app_assoc.
  assert (H : matchDigitsAfter (js "/jobs/view/") (js "/jobs/view/" ++ id)
              = Some id).
  { destruct id as [|c r]; [congruence|].
    assert (T : takeDigits (c :: r) = c :: r) by now apply takeDigits_all.
    simpl in Hd. apply andb_true_iff in Hd. destruct Hd as [Hc _].
    vm_compute js. cbn [matchDigitsAfter app startsWith N.eqb Pos.eqb andb
                          length skipn].
    now rewrite T. }
  vm_compute js in *.
  repeat (cbn [matchDigitsAfter app startsWith N.eqb Pos.eqb andb];
          try exact H).
Qed.

(** X2.  A direct link is left as it is: for a non-empty run of digits
    [id], the direct link of [id], which has no "currentJobId" parameter,
    is opened unchanged. *)
Theorem X2_direct_link_is_kept id :
  id <> [] -> forallb isDigit id = true ->
  URL_searchParams_get (construirLinkVaga id) (js "currentJobId") = Ok None ->
  linkDaVaga (construirLinkVaga id) = construirLinkVaga id.
Proof.
  intros Hn Hd Hu. rewrite X1_opened_link.
  unfold extrairJobIdDoLink. rewrite Hu.
  now rewrite match_link_direto.
Qed.

End Links.

(** ** More on [trim] *)

Lemma trimStart_keeps (l rest : jsstring) :
  forallb isWhiteSpace l = false ->
  trimStart (l ++ rest) = trimStart l ++ rest.
Proof.
  induction l as [|c l IH]; simpl; [discriminate|].
  destruct (isWhiteSpace c); simpl; [exact IH | reflexivity].
Qed.

Lemma trimEnd_keeps (pre l : jsstring) :
  forallb isWhiteSpace l = false ->
  trimEnd (pre ++ l) = pre ++ trimEnd l.
Proof.
  intros H. unfold trimEnd. rewrite rev_app_distr.
  rewrite trimStart_keeps by now rewrite forallb_rev.
  now rewrite rev_app_distr, rev_involutive.
Qed.

Lemma length_trimStart (s : jsstring) : length (trimStart s) <= length s.
Proof.
  destruct (trimStart_split s) as [w [H _]].
  rewrite H at 2. rewrite length_app. lia.
Qed.

Lemma length_trimEnd (s : jsstring) : length (trimEnd s) <= length s.
Proof.
  destruct (trimEnd_split s) as [w [H _]].
  rewrite H at 2. rewrite length_app. lia.
Qed.

Lemma length_trim (s : jsstring) : length (trim s) <= length s.
Proof.
  unfold trim. pose proof (length_trimEnd (trimStart s)).
  pose proof (length_trimStart s). lia.
Qed.

Lemma trimStart_nao_vazio (s : jsstring) :
  forallb isWhiteSpace s = false -> forallb isWhiteSpace (trimStart s) = false.
Proof.
  induction s as [|c r IH]; simpl; [auto|].
  destruct (isWhiteSpace c) eqn:E; simpl; [exact IH|].
  now rewrite E.
Qed.

Lemma length_trimEnd_trim (s : jsstring) :
  forallb isWhiteSpace s = false -> length (trim s) <= length (trimEnd s).
Proof.
  intros H. destruct (trimStart_split s) as [w [Hs _]].
  rewrite Hs at 2.
  rewrite trimEnd_keeps by now apply trimStart_nao_vazio.
  rewrite length_app. unfold trim. lia.
Qed.

(** Trimming a text keeps what lies between its first and last pieces, when
    these are not blank. *)
Lemma length_trim_entre (a m b : jsstring) :
  forallb isWhiteSpace a = false -> forallb isWhiteSpace b = false ->
  length (trim a) + length m + length (trim b) <= length (trim (a ++ m ++ b)).
Proof.
  intros Ha Hb. unfold trim at 3.
  rewrite trimStart_keeps by exact Ha.
  rewrite app_assoc, trimEnd_keeps by exact Hb.
  rewrite !length_app.
  pose proof (length_trimEnd (trimStart a)).
  pose proof (length_trimEnd_trim b Hb).
  unfold trim at 1. lia.
Qed.

Lemma join_ultimo (sep : jsstring) (partes : list jsstring) (ultimo : jsstring) :
  join sep (partes ++ [ultimo])
  = concat (map (fun p => p ++ sep) partes) ++ ultimo.
Proof.
  induction partes as [|p partes IH]; [reflexivity|].
  simpl app. destruct (partes ++ [ultimo]) as [|q r] eqn:E.
  - destruct partes; discriminate.
  - change (join sep (p :: q :: r)) with (p ++ sep ++ join sep (q :: r)).
    rewrite IH. simpl. now rewrite <- !app_assoc.
Qed.

Lemma length_concat_ge (sep : jsstring) (partes : list jsstring) (n : nat) :
  Forall (fun p => n <= length p) partes ->
  length partes * (n + length sep)
  <= length (concat (map (fun p => p ++ sep) partes)).
Proof.
  induction 1 as [|p rest Hp Hrest IH]; simpl; [lia|].
  rewrite !length_app. lia.
Qed.

Section Extras.

Context {platform : Platform}.

Lemma linhaValida_longa linha :
  linhaValida linha = true ->
  21 <= length (trim linha) /\ forallb isWhiteSpace linha = false.
Proof.
  intros H. split; [|now apply linhaValida_nao_vazia].
  unfold linhaValida in H. cbv zeta in H.
  apply andb_true_iff in H. destruct H as [H _]. apply Nat.ltb_lt in H. lia.
Qed.

(** What the line filter returns keeps at least 136 code units after the
    final [trim]: six lines of 21 and five blank lines. *)
Lemma linhas_trim_136 linhas :
  5 < length linhas ->
  Forall (fun linha => linhaValida linha = true) linhas ->
  136 <= length (trim (join LFLF linhas)).
Proof.
  intros Hn Hv.
  destruct (exists_last (l := linhas)) as [antes [ultima ->]].
  { intros ->. simpl in Hn. lia. }
  rewrite length_app in Hn. simpl in Hn.
  destruct antes as [|primeira meio]; [simpl in Hn; lia|].
  simpl in Hn.
  apply Forall_app in Hv. destruct Hv as [Hv Hu].
  inversion Hv as [|? ? Hp Hm]. subst. inversion Hu as [|? ? Hu' _]. subst.
  apply linhaValida_longa in Hp, Hu'.
  destruct Hp as [Lp Wp], Hu' as [Lu Wu].
  rewrite join_ultimo. simpl map. simpl concat. rewrite <- !app_assoc.
  rewrite app_assoc with (l := LFLF).
  pose proof (length_trim_entre primeira
                (LFLF ++ concat (map (fun p => p ++ LFLF) meio)) ultima Wp Wu)
    as B.
  rewrite length_app in B.
  assert (M : length meio * (21 + length LFLF)
              <= length (concat (map (fun p => p ++ LFLF) meio))).
  { apply length_concat_ge. eapply Forall_impl; [|exact Hm].
    intros linha Hl. simpl in Hl. apply linhaValida_longa in Hl.
    pose proof (length_trim linha). lia. }
  change (length LFLF) with 2 in M, B. lia.
Qed.

(** X4.  Whatever the page, a returned text that is neither the sentinel
    nor an error string has at least 136 code units. *)
Theorem X4_floor_of_returned_text link browser l t :
  snd (baixarDescricaoVaga link browser l) = Ok t ->
  136 <= length t
  \/ t = naoEncontrada
  \/ exists e, t = erroAoBaixar e.
Proof.
  rewrite resultado_uniforme by apply uniforme_baixarDescricaoVaga.
  rewrite resultado_baixarDescricaoVaga. intros H. injection H as H.
  destruct (resultado (tentativa link browser)) as [t'|e] eqn:E.
  2:{ right. right. exists e. now symmetry. }
  subst t'.
  destruct (tentativa_origem _ _ _ E)
    as [loaded [d [descricao [Ha [Hd [Hc Ht]]]]]].
  destruct Ht as [->|[_ [d2 [a [_ [Halt [_ ->]]]]]]].
  - rewrite extrairDescricao_cadeia in Hc.
    destruct (encadear_origem _ _ _ Hc) as [->|[e [_ He]]].
    + right. left. apply trim_naoEncontrada.
    + left. destruct e;
        try (match type of He with
             | resultado (executar ?s d) = _ =>
                 destruct (executar_aceito s d descricao) as [Hl Hap];
                 [discriminate | exact He |]
             end;
             rewrite (trim_fix _ Hap); lia).
      cbn [executar] in He.
      destruct (filtrarLinhas_aceito _ _ He) as [linhas [-> [Hn Hv]]].
      now apply linhas_trim_136.
  - left. destruct (extrairAlternativa_aceito _ _ Halt) as [el Hel].
    destruct (corpoAlternativa_aceito _ _ Hel) as [Hl [Hap _]].
    rewrite (trim_fix _ Hap). lia.
Qed.

Lemma executar_136 e d t :
  resultado (executar e d) = Ok (Some t) -> 136 <= length t.
Proof.
  intros He. destruct e;
    try (match type of He with
         | resultado (executar ?s d) = _ =>
             destruct (executar_aceito s d t) as [Hl Hap];
             [discriminate | exact He |]
         end; lia).
  cbn [executar] in He.
  destruct (filtrarLinhas_aceito _ _ He) as [linhas [-> [Hn Hv]]].
  pose proof (linhas_trim_136 linhas Hn Hv).
  pose proof (length_trim (join LFLF linhas)). lia.
Qed.

Lemma length_naoEncontrada : length naoEncontrada = 82.
Proof. vm_compute. reflexivity. Qed.

(** X5.  The callback returns the sentinel exactly when each of the eight
    strategies ran and found nothing: no strategy can return the text of
    the sentinel itself. *)
Theorem X5_sentinel_means_nothing_found d :
  resultado (extrairDescricao d) = Ok naoEncontrada <->
  Forall (fun e => resultado (executar e d) = Ok None) cadeia.
Proof.
  rewrite extrairDescricao_cadeia. split; [|apply encadear_nenhuma].
  induction cadeia as [|e es IH]; [constructor|].
  unfold resultado at 1. rewrite run_encadear_cons.
  destruct (resultado (executar e d)) as [[t|]|err] eqn:E; simpl.
  - intros H. assert (Ht : t = naoEncontrada) by congruence.
    apply executar_136 in E. rewrite Ht, length_naoEncontrada in E. lia.
  - intros H. constructor; [exact E | now apply IH].
  - discriminate.
Qed.

(** X6.  The keyword sweep, the keyword scan and the largest-block scan
    return a text only when it contains one of their positive keywords. *)
Theorem X6_positive_keyword_present e d t :
  e = VarreduraAtributos \/ e = BuscarPalavrasChave \/ e = MaiorBloco ->
  resultado (executar e d) = Ok (Some t) ->
  alguma t (positivas e) = true.
Proof.
  intros [-> | [-> | ->]] H; cbn [executar positivas] in *.
  - apply varredura_Some in H. destruct H as [el H].
    now destruct (corpoAtributos_aceito _ _ H) as [_ [_ [_ ?]]].
  - apply varredura_Some in H. destruct H as [el H].
    now destruct (corpoDivs_aceito _ _ H) as [_ [_ [_ ?]]].
  - unfold maiorBloco, resultado in H. rewrite run_varredura in H.
    simpl in H.
    destruct (documentQuerySelectorAll d seletorElementos) as [els|err];
      [|discriminate].
    injection H as H.
    now destruct (maiorBloco_aceito_puro _ _ H) as [_ [_ [_ ?]]].
Qed.


(** X8.  A text returned by the second callback passes the post-check: it
    is longer than 300 code units and holds neither metadata phrase. *)
Theorem X8_rescan_text_is_complete d2 a :
  resultado (extrairAlternativa d2) = Ok (Some a) ->
  incompleta a = false.
Proof.
  intros H. destruct (extrairAlternativa_aceito _ _ H) as [el Hel].
  destruct (corpoAlternativa_aceito _ _ Hel) as [Hl [Hap [Hn _]]].
  apply completa; auto; try lia;
    apply (nenhuma_contem _ _ _ Hn); simpl; tauto.
Qed.

End Extras.

(** ** The stripping of the main region (lines 507-514) *)

Lemma length_removeAll_from ic pat k s :
  length (removeAll_from ic pat k s) <= length s.
Proof.
  revert k. induction s as [|c r IH]; intros k; simpl; [lia|].
  destruct k as [|k].
  - destruct (matchesAt ic pat (c :: r)); simpl.
    + pose proof (IH (length pat - 1)). lia.
    + pose proof (IH 0). lia.
  - pose proof (IH k). lia.
Qed.

Lemma length_removeAll ic pat s : length (removeAll ic pat s) <= length s.
Proof. apply length_removeAll_from. Qed.

Lemma removeAll_sem_ocorrencia ic pat s :
  ocorre ic pat s = false -> removeAll ic pat s = s.
Proof.
  unfold removeAll. induction s as [|c r IH]; [reflexivity|].
  cbn [ocorre removeAll_from]. intros H.
  apply orb_false_iff in H. destruct H as [H1 H2].
  rewrite H1. f_equal. now apply IH.
Qed.

(** X9.  The stripping never lengthens a text, returns it trimmed, and
    leaves a text in which none of the six phrases occurs as it is, apart
    from the trimming. *)
Theorem X9_stripping texto :
  length (removerNavegacao texto) <= length texto
  /\ aparado (removerNavegacao texto)
  /\ (Forall (fun p => ocorre (fst p) (js (snd p)) texto = false)
        padroesNavegacao ->
      removerNavegacao texto = trim texto).
Proof.
  unfold removerNavegacao. split; [|split].
  - eapply Nat.le_trans; [apply length_trim|].
    repeat (eapply Nat.le_trans; [apply length_removeAll|]). lia.
  - apply trim_aparado.
  - unfold padroesNavegacao. intros H.
    repeat match goal with
           | H : Forall _ (_ :: _) |- _ =>
               let H1 := fresh "P" in
               apply Forall_cons_iff in H; destruct H as [H1 H]
           end.
    cbn [fst snd] in *.
    rewrite (removeAll_sem_ocorrencia false (js "LinkedIn") texto P).
    rewrite (removeAll_sem_ocorrencia true (js "Entrar") texto P0).
    rewrite (removeAll_sem_ocorrencia true (js "Cadastre-se") texto P1).
    rewrite (removeAll_sem_ocorrencia true (js "Política") texto P2).
    rewrite (removeAll_sem_ocorrencia true (js "Cookie") texto P3).
    now rewrite (removeAll_sem_ocorrencia true (js "Sobre a LinkedIn") texto P4).
Qed.

(** ** The test before a résumé is generated (lines 884-888) *)

Lemma includes_erroAoBaixar (m : jsstring) :
  includes (js "Erro ao baixar descrição: " ++ m)
    (js "Descrição não encontrada")
  = includes m (js "Descrição não encontrada").
Proof.
  vm_compute js.
  repeat (cbn [app]; rewrite (f_equal2 orb eq_refl eq_refl);
          match goal with
          | |- includes (?c :: ?r) ?p = _ =>
              change (includes (c :: r) p)
                with (startsWith p (c :: r) || includes r p);
              change (startsWith p (c :: r)) with false;
              rewrite orb_false_l
          end).
  reflexivity.
Qed.

(** X10.  An error string passes the test of [main] exactly when the
    message of the exception is longer than 174 code units and does not
    contain "Descrição não encontrada": such an error text is handed to
    the résumé generation as if it were a description. *)
Theorem X10_long_error_passes_the_test (e : Error) :
  deveGerarCurriculo (erroAoBaixar e)
  = (174 <? length (message e))
    && negb (includes (message e) (js "Descrição não encontrada")).
Proof.
  unfold erroAoBaixar. rewrite <- includes_erroAoBaixar.
  unfold deveGerarCurriculo.
  destruct (js "Erro ao baixar descrição: " ++ message e) as [|c r] eqn:E.
  - apply (f_equal (@length N)) in E. rewrite length_app in E.
    vm_compute in E. discriminate.
  - rewrite <- E, length_app.
    change (length (js "Erro ao baixar descrição: ")) with 26.
    replace (200 <? 26 + length (message e))
      with (174 <? length (message e)); [reflexivity|].
    destruct (174 <? length (message e)) eqn:L; symmetry.
    + apply Nat.ltb_lt in L. apply Nat.ltb_lt. lia.
    + apply Nat.ltb_ge in L. apply Nat.ltb_ge. lia.
Qed.

(** ** The steps before the document is read (lines 118-245) *)

Section Preparacao.

Context {platform : Platform}.

Lemma resultado_posVerificacao_opcionais loaded descricao botao clique
    esperaSeletor rolagem :
  resultado (posVerificacao
               (comPassosOpcionais loaded botao clique esperaSeletor rolagem)
               descricao)
  = resultado (posVerificacao loaded descricao).
Proof. unfold resultado. now rewrite !run_posVerificacao. Qed.


Lemma soma_app {E} (w : E -> N) (l1 l2 : list E) :
  soma w (l1 ++ l2) = (soma w l1 + soma w l2)%N.
Proof.
  induction l1 as [|x l1 IH]; simpl; [reflexivity|].
  rewrite IH. apply N.add_assoc.
Qed.

Lemma soma_cons {E} (w : E -> N) (x : E) (l : list E) :
  soma w (x :: l) = (w x + soma w l)%N.
Proof. reflexivity. Qed.

Lemma soma_zero {E} (w : E -> N) (l : list E) :
  Forall (fun x => w x = 0%N) l -> soma w l = 0%N.
Proof. induction 1 as [|x l H _ IH]; simpl; [reflexivity | now rewrite H, IH]. Qed.

Lemma esperaTotal_app l1 l2 :
  esperaTotal (l1 ++ l2) = (esperaTotal l1 + esperaTotal l2)%N.
Proof. apply soma_app. Qed.

Lemma soma_executar w e d :
  ignoraConsultas w -> soma w (eventos (executar e d)) = 0%N.
Proof.
  intros [W1 [W2 W3]].
  destruct e;
    try (rewrite eventos_executar by discriminate; cbn [consulta soma fold_right];
         rewrite ?W1, ?W2; reflexivity).
  cbn [executar]. apply soma_zero.
  eapply Forall_impl; [|apply eventos_catalogo].
  intros [] H; simpl in *; try contradiction; auto.
Qed.

Lemma soma_encadear w es d :
  ignoraConsultas w -> soma w (eventos (encadear es d)) = 0%N.
Proof.
  intros W. induction es as [|e es IH]; [reflexivity|].
  unfold eventos at 1. rewrite run_encadear_cons.
  pose proof (soma_executar w e d W) as E.
  destruct (resultado (executar e d)) as [[t|]|err]; simpl fst; auto.
  now rewrite soma_app, E, IH.
Qed.

Lemma espera_ignora : ignoraConsultas espera.
Proof. repeat split. Qed.

Lemma espera_encadear es d : esperaTotal (eventos (encadear es d)) = 0%N.
Proof. apply soma_encadear, espera_ignora. Qed.

Lemma eventos_extrairAlternativa d2 :
  eventos (extrairAlternativa d2) = [QuerySelectorAll seletorTodos].
Proof. unfold eventos, extrairAlternativa. now rewrite run_varredura. Qed.

Lemma espera_posVerificacao loaded descricao :
  esperaTotal (eventos (posVerificacao loaded descricao))
  = if incompleta descricao then 2000%N else 0%N.
Proof.
  unfold eventos at 1. rewrite run_posVerificacao.
  destruct (incompleta descricao); [|reflexivity].
  destruct (secondSnapshot loaded) as [d2|e]; [|reflexivity].
  rewrite eventos_extrairAlternativa. now destruct (resultado (extrairAlternativa d2)).
Qed.

Lemma espera_abrirVaga link browser loaded :
  resultado (abrirVaga link browser) = Ok loaded ->
  (7000 <= esperaTotal (eventos (abrirVaga link browser)) <= 11000)%N.
Proof.
  unfold resultado, eventos, run, abrirVaga, ignorando, call, bind, tryCatch,
    emit, lift, ret. cbv zeta. simpl.
  destruct (newPage browser) as [page|e]; [|discriminate]. simpl.
  destruct (setUserAgent page) as [[]|e]; [|discriminate]. simpl.
  destruct (goto page (linkDaVaga link)) as [ld|e]; [|discriminate]. simpl.
  destruct (scrollHalf ld) as [[]|e]; [|discriminate]. simpl.
  destruct (scrollBottom ld) as [[]|e]; [|discriminate]. simpl.
  intros _.
  destruct (findVerMais ld) as [[|]|e]; simpl;
    try destruct (click ld) as [[]|e']; simpl;
    destruct (waitForSelector ld) as [[]|e'']; simpl;
    destruct (scrollToDescription ld) as [[]|e''']; simpl;
    split; apply N.leb_le; reflexivity.
Qed.

(** X12.  When the page was opened, the function has waited between 7 and
    13 seconds in fixed delays by the time it returns. *)
Theorem X12_fixed_delays link browser loaded :
  resultado (abrirVaga link browser) = Ok loaded ->
  (7000 <= esperaTotal (eventos (baixarDescricaoVaga link browser))
   <= 13000)%N.
Proof.
  intros H. pose proof (espera_abrirVaga link browser loaded H) as A.
  unfold baixarDescricaoVaga.
  rewrite eventos_tryCatch by (intros; auto with uniforme).
  assert (T : (esperaTotal (eventos (abrirVaga link browser))
               <= esperaTotal (eventos (tentativa link browser))
               <= esperaTotal (eventos (abrirVaga link browser)) + 2000)%N).
  { unfold tentativa. rewrite eventos_bind by auto with uniforme.
    rewrite H, esperaTotal_app.
    rewrite eventos_bind by auto with uniforme.
    rewrite resultado_evaluate, eventos_evaluate by auto with uniforme.
    destruct (firstSnapshot loaded) as [d|e]; [|simpl; lia].
    pose proof (espera_encadear cadeia d) as C.
    rewrite <- extrairDescricao_cadeia in C.
    assert (K : forall ev l,
               esperaTotal (ev :: l) = (espera ev + esperaTotal l)%N)
      by reflexivity.
    destruct (resultado (extrairDescricao d)) as [descricao|e].
    - rewrite esperaTotal_app, espera_posVerificacao, K, C. simpl espera.
      destruct (incompleta descricao); lia.
    - rewrite K, C. simpl espera. lia. }
  destruct (resultado (tentativa link browser)) as [t|e].
  - lia.
  - rewrite esperaTotal_app.
    change (esperaTotal (eventos (ret (erroAoBaixar e)))) with 0%N. lia.
Qed.

End Preparacao.

(** ** The batch ([main] and the functions it calls) *)

Lemma limita_ret {A} w (a : A) : limita w 0 (io_ret a).
Proof. intros h. exists []. simpl. rewrite app_nil_r. split; [reflexivity | lia]. Qed.

Lemma limita_throw {A} w e : limita w 0 (@io_throw A e).
Proof. intros h. exists []. simpl. rewrite app_nil_r. split; [reflexivity | lia]. Qed.

Lemma limita_consultar {A} w (leitura : Historia -> A) :
  limita w 0 (consultar leitura).
Proof. intros h. exists []. simpl. rewrite app_nil_r. split; [reflexivity | lia]. Qed.

Lemma limita_efeito {A} w ef (resposta : Historia -> result A) :
  limita w (w ef) (efeito ef resposta).
Proof.
  intros h. exists [ef]. split; [reflexivity|].
  unfold soma. simpl. lia.
Qed.

Lemma limita_mais {A} w n n' (m : IO A) :
  (n <= n')%N -> limita w n m -> limita w n' m.
Proof.
  intros Hn H h. destruct (H h) as [evs [E L]]. exists evs.
  split; [exact E | lia].
Qed.

Lemma limita_bind {A B} w n n' (m : IO A) (k : A -> IO B) :
  limita w n m -> (forall a, limita w n' (k a)) ->
  limita w (n + n') (io_bind m k).
Proof.
  intros Hm Hk h. unfold io_bind.
  destruct (Hm h) as [e1 [E1 L1]].
  destruct (m h) as [h1 [a|e]]; simpl in E1; subst h1.
  - destruct (Hk a (h ++ e1)) as [e2 [E2 L2]].
    exists (e1 ++ e2). rewrite E2, app_assoc. split; [reflexivity|].
    rewrite soma_app. lia.
  - exists e1. split; [reflexivity | lia].
Qed.

Lemma limita_try {A} w n n' (body : IO A) (handler : Error -> IO A) :
  limita w n body -> (forall e, limita w n' (handler e)) ->
  limita w (n + n') (io_try body handler).
Proof.
  intros Hb Hh h. unfold io_try.
  destruct (Hb h) as [e1 [E1 L1]].
  destruct (body h) as [h1 [a|e]]; simpl in E1; subst h1.
  - exists e1. split; [reflexivity | lia].
  - destruct (Hh e (h ++ e1)) as [e2 [E2 L2]].
    exists (e1 ++ e2). rewrite E2, app_assoc. split; [reflexivity|].
    rewrite soma_app. lia.
Qed.

Lemma naoLanca_try {A} (body : IO A) (a : A) :
  naoLanca (io_try body (fun _ => io_ret a)).
Proof.
  intros h. unfold io_try. destruct (body h) as [h1 [x|e]]; simpl; eauto.
Qed.

Section Lote.

Context {platform : Platform}.

Variable amb : Ambiente.

Lemma limita_garantirDiretorio w dir :
  ignoraArquivos w -> limita w 0 (garantirDiretorio amb dir).
Proof.
  intros [W1 _]. unfold garantirDiretorio.
  apply (limita_mais w (0 + 0) 0); [lia|].
  eapply limita_bind; [apply limita_consultar|]. intros [|].
  - apply limita_ret.
  - rewrite <- (W1 dir). apply limita_efeito.
Qed.

Lemma limita_salvarDescricaoEmTxt w descricao i link :
  ignoraArquivos w -> limita w 0 (salvarDescricaoEmTxt amb descricao i link).
Proof.
  intros W. pose proof W as [W1 [W2 _]]. unfold salvarDescricaoEmTxt.
  cbv zeta.
  apply (limita_mais w ((0 + (0 + 0)) + 0) 0); [lia|].
  eapply limita_try; [|intros; apply limita_ret].
  eapply limita_bind; [now apply limita_garantirDiretorio|]. intros _.
  eapply limita_bind; [apply limita_consultar|]. intros data.
  match goal with
  | |- limita _ _ (efeito ?ef _) => rewrite <- (W2 _ _ : w ef = 0%N)
  end.
  apply limita_efeito.
Qed.

Lemma limita_salvarCurriculoOtimizado w curriculo i link :
  ignoraArquivos w ->
  limita w 0 (salvarCurriculoOtimizado amb curriculo i link).
Proof.
  intros W. pose proof W as [W1 [W2 [_ W4]]].
  unfold salvarCurriculoOtimizado. cbv zeta.
  apply (limita_mais w ((0 + (0 + (0 + 0))) + 0) 0); [lia|].
  eapply limita_try; [|intros; apply limita_ret].
  eapply limita_bind; [now apply limita_garantirDiretorio|]. intros _.
  eapply limita_bind; [apply limita_consultar|]. intros data.
  eapply limita_bind.
  - match goal with
    | |- limita _ _ (efeito ?ef _) => rewrite <- (W4 _ : w ef = 0%N)
    end.
    apply limita_efeito.
  - intros buffer.
    match goal with
    | |- limita _ _ (efeito ?ef _) => rewrite <- (W2 _ _ : w ef = 0%N)
    end.
    apply limita_efeito.
Qed.

Lemma extracao_ignora : ignoraArquivos extracao.
Proof. repeat split. Qed.

Lemma pedido_ignora : ignoraArquivos pedido.
Proof. repeat split. Qed.

(** [gerarCurriculoATS] makes at most one request, and none without a
    key. *)
Lemma limita_gerarCurriculoATS w curriculo descricao prompt :
  limita w
    (if verdadeiro (OPENAI_API_KEY amb)
     then w (ChatCompletion (pedidoDe amb curriculo descricao prompt))
     else 0%N)
    (gerarCurriculoATS amb curriculo descricao prompt).
Proof.
  unfold gerarCurriculoATS.
  destruct (verdadeiro (OPENAI_API_KEY amb)).
  - cbv zeta.
    apply (limita_mais w ((w (ChatCompletion
                                (pedidoDe amb curriculo descricao prompt))
                           + 0) + 0)); [lia|].
    eapply limita_try; [|intros; apply limita_throw].
    eapply limita_bind; [apply limita_efeito|]. intros; apply limita_ret.
  - apply (limita_mais w (0 + 0)); [lia|].
    eapply limita_try; intros; apply limita_throw.
Qed.

Lemma limita_gerarESalvar w n curriculo descricao i link :
  ignoraArquivos w ->
  (forall p, (w (ChatCompletion p) <= n)%N) ->
  limita w (if verdadeiro (OPENAI_API_KEY amb) then n else 0%N)
    (gerarESalvar amb curriculo descricao i link).
Proof.
  intros W Wp. pose proof W as [_ [_ [W3 _]]].
  unfold gerarESalvar. cbv zeta.
  set (m := if verdadeiro (OPENAI_API_KEY amb) then n else 0%N).
  apply (limita_mais w ((0 + ((0 + 0) + (m + 0))) + 0)); [lia|].
  eapply limita_try; [|intros; apply limita_ret].
  eapply limita_bind; [apply limita_consultar|]. intros existe.
  eapply limita_bind.
  - destruct existe.
    + eapply limita_bind.
      * match goal with
        | |- limita _ _ (efeito ?ef _) => rewrite <- (W3 _ : w ef = 0%N)
        end.
        apply limita_efeito.
      * intros; apply limita_ret.
    + apply (limita_mais w 0); [lia | apply limita_ret].
  - intros prompt. eapply limita_bind.
    + eapply limita_mais; [|apply limita_gerarCurriculoATS].
      subst m. destruct (verdadeiro (OPENAI_API_KEY amb)); [apply Wp | lia].
    + intros c. now apply limita_salvarCurriculoOtimizado.
Qed.


Lemma soma_novaPagina_abrirVaga link browser :
  soma novaPagina (eventos (abrirVaga link browser)) = 1%N.
Proof.
  unfold eventos, run, abrirVaga, ignorando, call, bind, tryCatch,
    emit, lift, ret. cbv zeta. simpl.
  destruct (newPage browser) as [page|e]; [|reflexivity]. simpl.
  destruct (setUserAgent page) as [[]|e]; [|reflexivity]. simpl.
  destruct (goto page (linkDaVaga link)) as [ld|e]; [|reflexivity]. simpl.
  destruct (scrollHalf ld) as [[]|e]; [|reflexivity]. simpl.
  destruct (scrollBottom ld) as [[]|e]; [|reflexivity]. simpl.
  destruct (findVerMais ld) as [[|]|e]; simpl;
    try destruct (click ld) as [[]|e1]; simpl;
    destruct (waitForSelector ld) as [[]|e2]; simpl;
    destruct (scrollToDescription ld) as [[]|e3]; reflexivity.
Qed.

Lemma novaPagina_ignora : ignoraConsultas novaPagina.
Proof. repeat split. Qed.

Lemma soma_novaPagina_posVerificacao loaded descricao :
  soma novaPagina (eventos (posVerificacao loaded descricao)) = 0%N.
Proof.
  unfold eventos at 1. rewrite run_posVerificacao.
  destruct (incompleta descricao); [|reflexivity].
  destruct (secondSnapshot loaded) as [d2|e]; [|reflexivity].
  rewrite eventos_extrairAlternativa.
  now destruct (resultado (extrairAlternativa d2)).
Qed.

(** Every call of [baixarDescricaoVaga] asks the browser for exactly one
    page. *)
Lemma soma_novaPagina_baixar link browser :
  soma novaPagina (eventos (baixarDescricaoVaga link browser)) = 1%N.
Proof.
  unfold baixarDescricaoVaga.
  rewrite eventos_tryCatch by (intros; auto with uniforme).
  assert (T : soma novaPagina (eventos (tentativa link browser)) = 1%N).
  { unfold tentativa. rewrite eventos_bind by auto with uniforme.
    pose proof (soma_novaPagina_abrirVaga link browser) as A.
    destruct (resultado (abrirVaga link browser)) as [loaded|e]; [|exact A].
    rewrite soma_app, A.
    rewrite eventos_bind by auto with uniforme.
    rewrite resultado_evaluate, eventos_evaluate by auto with uniforme.
    destruct (firstSnapshot loaded) as [d|e]; [|reflexivity].
    pose proof (soma_encadear novaPagina cadeia d novaPagina_ignora) as C.
    rewrite <- extrairDescricao_cadeia in C.
    destruct (resultado (extrairDescricao d)) as [descricao|e].
    - rewrite soma_app, soma_novaPagina_posVerificacao, soma_cons, C.
      reflexivity.
    - rewrite soma_cons, C. reflexivity. }
  destruct (resultado (tentativa link browser)) as [t|e]; [exact T|].
  rewrite soma_app, T. reflexivity.
Qed.

Lemma soma_map {E F} (w : F -> N) (f : E -> F) (l : list E) :
  soma w (map f l) = soma (fun x => w (f x)) l.
Proof. induction l as [|x l IH]; simpl; [reflexivity | now rewrite IH]. Qed.

Lemma soma_nula {E} (l : list E) : soma (fun _ => 0%N) l = 0%N.
Proof. induction l as [|x l IH]; simpl; [reflexivity | exact IH]. Qed.

Lemma naoLanca_ret {A} (a : A) : naoLanca (io_ret a).
Proof. intros h. now exists a. Qed.

Lemma naoLanca_bind {A B} (m : IO A) (k : A -> IO B) :
  naoLanca m -> (forall a, naoLanca (k a)) -> naoLanca (io_bind m k).
Proof.
  intros Hm Hk h. unfold io_bind. destruct (Hm h) as [a E].
  destruct (m h) as [h1 r]. simpl in E. subst r. apply Hk.
Qed.

Lemma io_bind_assoc {A B C} (m : IO A) (f : A -> IO B) (g : B -> IO C) h :
  io_bind m (fun a => io_bind (f a) g) h = io_bind (io_bind m f) g h.
Proof. unfold io_bind. now destruct (m h) as [h1 [a|e]]. Qed.

(** What a bounded computation that does not throw adds to a history. *)
Lemma efeitos_de {A} (m : IO A) w n h :
  limita w n m -> naoLanca m ->
  exists evs a,
    m h = (h ++ evs, Ok a)
    /\ forall w' n', limita w' n' m -> (soma w' evs <= n')%N.
Proof.
  intros L T. destruct (L h) as [evs [E _]]. destruct (T h) as [a R].
  exists evs, a. split.
  - destruct (m h) as [h1 r1]. simpl in *. now subst.
  - intros w' n' L'. destruct (L' h) as [evs' [E' B']].
    rewrite E in E'. apply app_inv_head in E'. now subst evs'.
Qed.

(** The body of the loop after the extraction, for the text [t]. *)
Lemma processarVaga_resto curriculo total i link t h :
  exists e1,
    (io_bind (salvarDescricaoEmTxt amb t i link)
       (fun _ =>
          io_bind (if deveGerarCurriculo t
                   then gerarESalvar amb curriculo t i link
                   else io_ret tt)
            (fun _ =>
               if i <? total - 1
               then efeito (SetTimeout 2000) (fun _ => Ok tt)
               else io_ret tt))) h
    = (h ++ e1 ++ (if i <? total - 1 then [SetTimeout 2000%N] else []), Ok tt)
    /\ forall w n,
         ignoraArquivos w -> (forall p, (w (ChatCompletion p) <= n)%N) ->
         (soma w e1 <= if deveGerarCurriculo t
                       then if verdadeiro (OPENAI_API_KEY amb) then n else 0
                       else 0)%N.
Proof.
  set (gerar := if deveGerarCurriculo t
                then gerarESalvar amb curriculo t i link
                else io_ret tt).
  set (m := io_bind (salvarDescricaoEmTxt amb t i link) (fun _ => gerar)).
  assert (T : naoLanca m).
  { apply naoLanca_bind; [apply naoLanca_try|]. intros _. unfold gerar.
    destruct (deveGerarCurriculo t); [apply naoLanca_try | apply naoLanca_ret]. }
  assert (L : forall w n,
             ignoraArquivos w -> (forall p, (w (ChatCompletion p) <= n)%N) ->
             limita w (if deveGerarCurriculo t
                       then if verdadeiro (OPENAI_API_KEY amb) then n else 0
                       else 0)%N m).
  { intros w n W Wp. eapply limita_mais; [|eapply limita_bind].
    - rewrite N.add_0_l. apply N.le_refl.
    - now apply limita_salvarDescricaoEmTxt.
    - intros _. unfold gerar. destruct (deveGerarCurriculo t).
      + now apply limita_gerarESalvar.
      + apply limita_ret. }
  destruct (efeitos_de m pedido _ h
              (L pedido 1%N pedido_ignora (fun p => N.le_refl 1)) T)
    as [e1 [[] [E B]]].
  exists e1. split.
  - rewrite io_bind_assoc. fold m. unfold io_bind at 1. rewrite E.
    destruct (i <? total - 1); unfold efeito, io_ret.
    + now rewrite app_assoc.
    + now rewrite app_nil_r.
  - intros w n W Wp. apply B. now apply L.
Qed.

(** One turn of the loop for a posting with a link: the calls of
    [baixarDescricaoVaga] on a page, then the files and the request, then
    the wait. *)
Lemma processarVaga_efeitos curriculo total i link h :
  exists e1,
    processarVaga amb curriculo total i link h
    = (h ++ map Pagina
              (eventos (baixarDescricaoVaga link (navegador amb h)))
         ++ e1 ++ (if i <? total - 1 then [SetTimeout 2000%N] else []),
       Ok tt)
    /\ forall w n,
         ignoraArquivos w -> (forall p, (w (ChatCompletion p) <= n)%N) ->
         (soma w e1 <= if deveGerarCurriculo (descricaoDe amb link h)
                       then if verdadeiro (OPENAI_API_KEY amb) then n else 0
                       else 0)%N.
Proof.
  unfold processarVaga, io_bind at 1, naPagina.
  fold (eventos (baixarDescricaoVaga link (navegador amb h))).
  fold (resultado (baixarDescricaoVaga link (navegador amb h))).
  unfold descricaoDe.
  rewrite resultado_baixarDescricaoVaga.
  set (t := match resultado (tentativa link (navegador amb h)) with
            | Ok t => t
            | Throw e => erroAoBaixar e
            end).
  set (pg := map Pagina
               (eventos (baixarDescricaoVaga link (navegador amb h)))).
  destruct (processarVaga_resto curriculo total i link t (h ++ pg))
    as [e1 [E B]].
  exists e1. split; [|exact B].
  rewrite E. now rewrite <- app_assoc.
Qed.

Lemma soma_extracao_pagina link browser :
  soma extracao (map Pagina (eventos (baixarDescricaoVaga link browser)))
  = 1%N.
Proof. rewrite soma_map. apply soma_novaPagina_baixar. Qed.

Lemma soma_sem_pagina w l :
  (forall ev, w (Pagina ev) = 0%N) -> soma w (map Pagina l) = 0%N.
Proof.
  intros W. rewrite soma_map. induction l as [|x l IH]; simpl;
    [reflexivity | now rewrite W, IH].
Qed.

Lemma intervalo_ignora : ignoraArquivos intervalo.
Proof. repeat split. Qed.

(** The counts of one turn of the loop. *)
Lemma processarVaga_contas curriculo total i link h :
  exists evs,
    processarVaga amb curriculo total i link h = (h ++ evs, Ok tt)
    /\ soma extracao evs = 1%N
    /\ (soma pedido evs
        <= if deveGerarCurriculo (descricaoDe amb link h)
           then if verdadeiro (OPENAI_API_KEY amb) then 1 else 0
           else 0)%N
    /\ soma intervalo evs = if i <? total - 1 then 2000%N else 0%N.
Proof.
  destruct (processarVaga_efeitos curriculo total i link h) as [e1 [E B]].
  eexists. split; [exact E|].
  pose proof (B extracao 0%N extracao_ignora (fun p => N.le_refl 0)) as B0.
  pose proof (B pedido 1%N pedido_ignora (fun p => N.le_refl 1)) as B1.
  pose proof (B intervalo 0%N intervalo_ignora (fun p => N.le_refl 0)) as B2.
  rewrite !soma_app, soma_extracao_pagina.
  rewrite !(soma_sem_pagina _ _ (fun ev => eq_refl)).
  assert (Z0 : soma extracao e1 = 0%N)
    by (destruct (deveGerarCurriculo _);
        [destruct (verdadeiro _)|]; lia).
  assert (Z2 : soma intervalo e1 = 0%N)
    by (destruct (deveGerarCurriculo _);
        [destruct (verdadeiro _)|]; lia).
  rewrite Z0, Z2.
  destruct (i <? total - 1); cbn [soma fold_right extracao pedido intervalo];
    repeat split; try reflexivity; lia.
Qed.

(** X13.  For a posting with a link, one turn of the loop of [main] never
    throws and opens exactly one page; it requests at most one completion,
    and none when no API key is configured or when the text returned for
    the posting fails the test before the generation; it waits 2 seconds
    afterwards unless the posting is the last row. *)
Theorem X13_one_posting curriculo total i link h :
  exists evs,
    processarVaga amb curriculo total i link h = (h ++ evs, Ok tt)
    /\ soma extracao evs = 1%N
    /\ (soma pedido evs
        <= if deveGerarCurriculo (descricaoDe amb link h)
           then if verdadeiro (OPENAI_API_KEY amb) then 1 else 0
           else 0)%N
    /\ soma intervalo evs = if i <? total - 1 then 2000%N else 0%N.
Proof. apply processarVaga_contas. Qed.

(** A weight that sees nothing of what a turn of the loop does. *)
Lemma processarVaga_sem w curriculo total i link h evs r :
  ignoraArquivos w ->
  (forall p, w (ChatCompletion p) = 0%N) ->
  (forall ev, w (Pagina ev) = 0%N) ->
  w (SetTimeout 2000) = 0%N ->
  processarVaga amb curriculo total i link h = (h ++ evs, r) ->
  soma w evs = 0%N.
Proof.
  intros W Wp Wg Wt E.
  destruct (processarVaga_efeitos curriculo total i link h) as [e1 [E1 B]].
  rewrite E1 in E. injection E as E _. apply app_inv_head in E. subst evs.
  rewrite !soma_app, (soma_sem_pagina _ _ Wg).
  assert (Z : soma w e1 = 0%N).
  { pose proof (B w 0%N W (fun p => N.eq_le_incl _ _ (Wp p))) as B0.
    destruct (deveGerarCurriculo _); [destruct (verdadeiro _)|]; lia. }
  rewrite Z. destruct (i <? total - 1); cbn [soma fold_right];
    rewrite ?Wt; reflexivity.
Qed.

Lemma ultima_linha i (resto : list Vaga) :
  (i <? i + S (length resto) - 1)
  = match resto with [] => false | _ :: _ => true end.
Proof.
  destruct resto as [|v resto]; simpl length.
  - apply Nat.ltb_ge. lia.
  - apply Nat.ltb_lt. lia.
Qed.

(** The loop of [main] over the rows from index [i] on. *)
Lemma processarVagas_efeitos curriculo total vagas :
  forall i h,
    total = i + length vagas ->
    exists evs,
      processarVagas amb curriculo total i vagas h = (h ++ evs, Ok tt)
      /\ soma extracao evs = N.of_nat (length (filter temLink vagas))
      /\ (soma pedido evs
          <= if verdadeiro (OPENAI_API_KEY amb)
             then N.of_nat (length (filter temLink vagas))
             else 0)%N
      /\ soma intervalo evs
         = (2000 * N.of_nat (length (filter temLink (removelast vagas))))%N
      /\ forall w,
           ignoraArquivos w ->
           (forall p, w (ChatCompletion p) = 0%N) ->
           (forall ev, w (Pagina ev) = 0%N) ->
           w (SetTimeout 2000) = 0%N ->
           soma w evs = 0%N.
Proof.
  induction vagas as [|vaga resto IH]; intros i h Ht.
  - exists []. simpl. rewrite app_nil_r.
    repeat split; try reflexivity.
    destruct (verdadeiro (OPENAI_API_KEY amb)); apply N.le_refl.
  - assert (Ht' : total = S i + length resto) by (simpl in Ht; lia).
    assert (F : forall v l,
               filter temLink (v :: l)
               = if verdadeiro (linkDe v) then v :: filter temLink l
                 else filter temLink l) by reflexivity.
    assert (R : removelast (vaga :: resto)
                = match resto with
                  | [] => []
                  | _ :: _ => vaga :: removelast resto
                  end) by reflexivity.
    cbn [processarVagas]. rewrite R, F. clear R.
    destruct (linkDe vaga) as [[|c link]|] eqn:El; cbn [verdadeiro].
    + destruct (IH (S i) h Ht') as [evs [E [P1 [P2 [P3 P4]]]]].
      exists evs. split; [exact E|].
      split; [exact P1|]. split; [exact P2|]. split; [|exact P4].
      rewrite P3. destruct resto; [reflexivity|]. now rewrite F, El.
    + destruct (processarVaga_contas curriculo total i (c :: link) h)
        as [e1 [E1 [Q1 [Q2 Q3]]]].
      unfold io_bind at 1. rewrite E1.
      destruct (IH (S i) (h ++ e1) Ht') as [evs [E [P1 [P2 [P3 P4]]]]].
      exists (e1 ++ evs). rewrite app_assoc. split; [exact E|].
      cbn [length]. rewrite !soma_app, Q1, P1, P3, Q3.
      split; [lia|]. split.
      * destruct (deveGerarCurriculo _);
          destruct (verdadeiro (OPENAI_API_KEY amb)); lia.
      * split.
        -- rewrite Ht. cbn [length]. rewrite ultima_linha.
           destruct resto as [|v2 resto].
           ++ reflexivity.
           ++ rewrite F, El. cbn [verdadeiro length]. lia.
        -- intros w W Wp Wg Wt. rewrite soma_app, (P4 w W Wp Wg Wt).
           now rewrite (processarVaga_sem w curriculo total i (c :: link) h
                          e1 (Ok tt) W Wp Wg Wt E1).
    + destruct (IH (S i) h Ht') as [evs [E [P1 [P2 [P3 P4]]]]].
      exists evs. split; [exact E|].
      split; [exact P1|]. split; [exact P2|]. split; [|exact P4].
      rewrite P3. destruct resto; [reflexivity|]. now rewrite F, El.
Qed.

(** X14.  The loop of [main] never throws, whatever the pages, the files
    and the API do.  It opens one page for every row that has a link and
    none for the others, requests at most one completion for each of those
    rows (none without an API key), and waits 2 seconds after each of them
    except when it is the last row of the file. *)
Theorem X14_batch curriculo vagas h :
  exists evs,
    processarVagas amb curriculo (length vagas) 0 vagas h = (h ++ evs, Ok tt)
    /\ soma extracao evs = N.of_nat (length (filter temLink vagas))
    /\ (soma pedido evs
        <= if verdadeiro (OPENAI_API_KEY amb)
           then N.of_nat (length (filter temLink vagas))
           else 0)%N
    /\ soma intervalo evs
       = (2000 * N.of_nat (length (filter temLink (removelast vagas))))%N.
Proof.
  destruct (processarVagas_efeitos curriculo (length vagas) vagas 0 h
              eq_refl) as [evs [E [P1 [P2 [P3 _]]]]].
  exists evs. auto.
Qed.

(** What [preparar] adds to the history: the reads and, when they worked,
    the launch. *)
Lemma preparar_efeitos h0 :
  exists evs,
    fst (preparar amb h0) = h0 ++ evs
    /\ soma extracao evs = 0%N /\ soma pedido evs = 0%N
    /\ soma fechamento evs = 0%N /\ soma saida evs = 0%N
    /\ match snd (preparar amb h0) with
       | Ok _ => soma abertura evs = 1%N
       | Throw _ => True
       end.
Proof.
  cbv beta iota delta [preparar lerCurriculo lerCSVVagas io_bind io_try
                         efeito consultar io_ret io_throw].
  set (p1 := noDiretorio amb (js "curriculo.txt")).
  set (p2 := noDiretorio amb (js "vagas.csv")).
  destruct (existsSync amb h0 p1).
  - destruct (readFileSync amb h0 p1) as [c|e].
    + destruct (existsSync amb (h0 ++ [ReadFileSync p1]) p2).
      * destruct (parseCSV amb (h0 ++ [ReadFileSync p1]) p2) as [vagas|e].
        -- exists [ReadFileSync p1; ReadCSV p2; Launch].
           destruct (launch amb _) as [[]|e]; cbn [fst snd];
             rewrite <- !app_assoc; repeat split.
        -- exists [ReadFileSync p1; ReadCSV p2].
           cbn [fst snd]. rewrite <- !app_assoc. repeat split.
      * exists [ReadFileSync p1]. repeat split.
    + exists [ReadFileSync p1]. repeat split.
  - exists []. cbn [fst snd]. rewrite app_nil_r. repeat split.
Qed.

(** X15.  [main] ends with [process.exit(1)] exactly when the résumé, the
    rows or the browser could not be obtained; then no page has been
    opened, no completion requested and [browser.close] is not called.
    Otherwise every row with a link gets its page, [process.exit] is not
    called, and the browser is closed exactly once, as the last effect:
    [main] returns, or throws what [browser.close] throws. *)
Theorem X15_exit_or_close h0 :
  exists evs,
    fst (main amb h0) = h0 ++ evs
    /\ match snd (preparar amb h0) with
       | Throw _ =>
           snd (main amb h0) = Ok (Saiu 1)
           /\ (exists antes, evs = antes ++ [Exit 1%N]
                             /\ soma saida antes = 0%N)
           /\ soma fechamento evs = 0%N
           /\ soma extracao evs = 0%N
           /\ soma pedido evs = 0%N
       | Ok (_, vagas) =>
           (exists antes,
              evs = antes ++ [CloseBrowser]
              /\ soma fechamento antes = 0%N
              /\ snd (main amb h0)
                 = result_map (fun _ => Terminou)
                     (closeBrowser amb (h0 ++ antes)))
           /\ soma abertura evs = 1%N
           /\ soma saida evs = 0%N
           /\ soma extracao evs = N.of_nat (length (filter temLink vagas))
       end.
Proof.
  destruct (preparar_efeitos h0) as [e0 [E0 [A1 [A2 [A3 [A4 A5]]]]]].
  unfold main.
  destruct (preparar amb h0) as [h1 [[curriculo vagas]|e]];
    cbn [fst snd] in *; subst h1.
  - destruct (processarVagas_efeitos curriculo (length vagas) vagas 0
                (h0 ++ e0) eq_refl) as [evs [E [P1 [_ [_ P4]]]]].
    rewrite E. unfold io_bind, efeito, io_ret.
    assert (Z : forall w,
               ignoraArquivos w ->
               (forall p, w (ChatCompletion p) = 0%N) ->
               (forall ev, w (Pagina ev) = 0%N) ->
               w (SetTimeout 2000) = 0%N -> soma w evs = 0%N) by exact P4.
    pose proof (Z abertura ltac:(repeat split) (fun _ => eq_refl)
                  (fun _ => eq_refl) eq_refl) as Z1.
    pose proof (Z fechamento ltac:(repeat split) (fun _ => eq_refl)
                  (fun _ => eq_refl) eq_refl) as Z2.
    pose proof (Z saida ltac:(repeat split) (fun _ => eq_refl)
                  (fun _ => eq_refl) eq_refl) as Z3.
    exists (e0 ++ evs ++ [CloseBrowser]). split.
    + destruct (closeBrowser amb ((h0 ++ e0) ++ evs)); cbn [fst];
        now rewrite <- !app_assoc.
    + split; [exists (e0 ++ evs); split; [now rewrite <- app_assoc|]|].
      * rewrite soma_app, A3, Z2. split; [reflexivity|].
        rewrite app_assoc.
        now destruct (closeBrowser amb ((h0 ++ e0) ++ evs)).
      * rewrite !soma_app, A5, A4, A1, Z1, Z3, P1.
        cbn [soma fold_right abertura saida extracao].
        split; [reflexivity|]. split; [reflexivity|]. lia.
  - exists (e0 ++ [Exit 1%N]). cbn [fst snd]. rewrite app_assoc.
    split; [reflexivity|]. split; [reflexivity|]. split; [now exists e0|].
    rewrite !soma_app, A1, A2, A3. repeat split.
Qed.


Lemma includes_eq (s pat : jsstring) :
  includes s pat
  = startsWith pat s
    || match s with
       | [] => false
       | _ :: r => includes r pat
       end.
Proof. now destruct s. Qed.

Lemma includes_meio (a s b : jsstring) : includes (a ++ s ++ b) s = true.
Proof.
  induction a as [|x a IH].
  - rewrite includes_eq. cbn [app]. now rewrite startsWith_app.
  - cbn [app includes]. rewrite IH. apply orb_true_r.
Qed.

(** The default prompt quotes the résumé and the description. *)
Lemma promptBase_padrao curriculo descricao prompt :
  verdadeiro prompt = false ->
  includes (promptBase curriculo descricao prompt) curriculo = true
  /\ includes (promptBase curriculo descricao prompt) descricao = true.
Proof.
  intros V.
  assert (E : promptBase curriculo descricao prompt
              = promptAntes ++ curriculo ++ promptMeio ++ descricao
                ++ promptDepois)
    by (destruct prompt as [[|c p]|]; [reflexivity | discriminate | reflexivity]).
  rewrite E. split; [apply includes_meio|].
  replace (promptAntes ++ curriculo ++ promptMeio ++ descricao ++ promptDepois)
    with ((promptAntes ++ curriculo ++ promptMeio) ++ descricao ++ promptDepois)
    by now rewrite <- !app_assoc.
  apply includes_meio.
Qed.

(** With a key, [gerarESalvar] sends the request made from the prompt it
    has read, and no other. *)
Lemma gerarESalvar_pedido curriculo descricao i link h leitura prompt :
  verdadeiro (OPENAI_API_KEY amb) = true ->
  (existsSync amb h (noDiretorio amb (js "prompt_agente.txt")) = false
   /\ leitura = [] /\ prompt = None)
  \/ (existsSync amb h (noDiretorio amb (js "prompt_agente.txt")) = true
      /\ leitura = [ReadFileSync (noDiretorio amb (js "prompt_agente.txt"))]
      /\ exists conteudo,
           readFileSync amb h (noDiretorio amb (js "prompt_agente.txt"))
           = Ok conteudo
           /\ prompt = Some (trim conteudo)) ->
  exists rest,
    fst (gerarESalvar amb curriculo descricao i link h)
    = h ++ leitura
        ++ ChatCompletion (pedidoDe amb curriculo descricao prompt) :: rest
    /\ soma pedido rest = 0%N.
Proof.
  intros K Hp.
  set (pp := noDiretorio amb (js "prompt_agente.txt")) in *.
  assert (S : forall c h1,
             exists rest,
               fst (io_try (salvarCurriculoOtimizado amb c i link)
                      (fun _ => io_ret tt) h1) = h1 ++ rest
               /\ soma pedido rest = 0%N).
  { intros c h1.
    destruct (limita_salvarCurriculoOtimizado pedido c i link pedido_ignora h1)
      as [rest [E B]].
    exists rest. split; [|lia]. unfold io_try.
    now destruct (salvarCurriculoOtimizado amb c i link h1) as [h2 [[]|e]]. }
  cbv beta iota zeta delta [gerarESalvar gerarCurriculoATS io_bind io_try
                              efeito consultar io_ret io_throw].
  fold pp. rewrite K.
  destruct Hp as [[E [-> ->]]|[E [-> [conteudo [R ->]]]]]; rewrite E.
  - set (p := pedidoDe amb curriculo descricao None).
    destruct (completion amb h p) as [content|e].
    + destruct (S (trim content) (h ++ [ChatCompletion p])) as [rest [E1 B]].
      exists rest. split; [|exact B].
      unfold io_try, io_ret in E1. cbn [app].
      destruct (salvarCurriculoOtimizado amb (trim content) i link
                  (h ++ [ChatCompletion p])) as [h2 [[]|e]];
        cbn [fst] in *; rewrite E1; now rewrite <- app_assoc.
    + exists []. split; reflexivity.
  - rewrite R.
    set (p := pedidoDe amb curriculo descricao (Some (trim conteudo))).
    destruct (completion amb (h ++ [ReadFileSync pp]) p) as [content|e].
    + destruct (S (trim content)
                  ((h ++ [ReadFileSync pp]) ++ [ChatCompletion p]))
        as [rest [E1 B]].
      exists rest. split; [|exact B].
      unfold io_try, io_ret in E1.
      destruct (salvarCurriculoOtimizado amb (trim content) i link
                  ((h ++ [ReadFileSync pp]) ++ [ChatCompletion p]))
        as [h2 [[]|e]];
        cbn [fst] in *; rewrite E1; now rewrite <- !app_assoc.
    + exists []. cbn [fst]. split; [now rewrite <- !app_assoc | reflexivity].
Qed.

(** X17.  With a key and a prompt file that is not blank, the user message
    of the request is the text of that file, trimmed: neither the résumé
    nor the description of the posting is sent. *)
Theorem X17_custom_prompt curriculo descricao i link h conteudo :
  verdadeiro (OPENAI_API_KEY amb) = true ->
  existsSync amb h (noDiretorio amb (js "prompt_agente.txt")) = true ->
  readFileSync amb h (noDiretorio amb (js "prompt_agente.txt")) = Ok conteudo ->
  trim conteudo <> [] ->
  exists p rest,
    fst (gerarESalvar amb curriculo descricao i link h)
    = h ++ ReadFileSync (noDiretorio amb (js "prompt_agente.txt"))
           :: ChatCompletion p :: rest
    /\ usuario p = trim conteudo
    /\ sistema p = mensagemSistema
    /\ soma pedido rest = 0%N.
Proof.
  intros K E R T.
  destruct (gerarESalvar_pedido curriculo descricao i link h
              [ReadFileSync (noDiretorio amb (js "prompt_agente.txt"))]
              (Some (trim conteudo)) K) as [rest [F B]].
  { right. split; [exact E|]. split; [reflexivity|]. now exists conteudo. }
  exists (pedidoDe amb curriculo descricao (Some (trim conteudo))), rest.
  split; [exact F|]. split; [|split; [reflexivity | exact B]].
  cbn [usuario pedidoDe promptBase].
  destruct (trim conteudo); [contradiction | reflexivity].
Qed.

(** X18.  With a key and no prompt file, or a blank one, the user message
    of the request quotes the résumé and the description of the posting. *)
Theorem X18_default_prompt curriculo descricao i link h :
  verdadeiro (OPENAI_API_KEY amb) = true ->
  existsSync amb h (noDiretorio amb (js "prompt_agente.txt")) = false
  \/ (existsSync amb h (noDiretorio amb (js "prompt_agente.txt")) = true
      /\ exists conteudo,
           readFileSync amb h (noDiretorio amb (js "prompt_agente.txt"))
           = Ok conteudo
           /\ trim conteudo = []) ->
  exists leitura p rest,
    fst (gerarESalvar amb curriculo descricao i link h)
    = h ++ leitura ++ ChatCompletion p :: rest
    /\ soma pedido leitura = 0%N
    /\ soma pedido rest = 0%N
    /\ includes (usuario p) curriculo = true
    /\ includes (usuario p) descricao = true.
Proof.
  intros K [E|[E [conteudo [R T]]]].
  - destruct (gerarESalvar_pedido curriculo descricao i link h [] None K)
      as [rest [F B]]; [left; auto|].
    exists [], (pedidoDe amb curriculo descricao None), rest.
    split; [exact F|]. split; [reflexivity|]. split; [exact B|].
    now apply promptBase_padrao.
  - destruct (gerarESalvar_pedido curriculo descricao i link h
                [ReadFileSync (noDiretorio amb (js "prompt_agente.txt"))]
                (Some (trim conteudo)) K) as [rest [F B]].
    { right. split; [exact E|]. split; [reflexivity|]. now exists conteudo. }
    exists [ReadFileSync (noDiretorio amb (js "prompt_agente.txt"))],
      (pedidoDe amb curriculo descricao (Some (trim conteudo))), rest.
    split; [exact F|]. split; [reflexivity|]. split; [exact B|].
    apply promptBase_padrao. now rewrite T.
Qed.

End Lote.

(** ** The names of the files *)

Lemma digitos_inj (d1 d2 : Decimal.uint) : digitos d1 = digitos d2 -> d1 = d2.
Proof.
  revert d2. induction d1 as [|r IH|r IH|r IH|r IH|r IH|r IH|r IH|r IH|r IH|r IH];
    intros [|s|s|s|s|s|s|s|s|s|s] H; cbn [digitos] in H;
    try reflexivity; try discriminate H;
    injection H as H; f_equal; now apply IH.
Qed.

Lemma decimal_inj (n m : nat) : decimal n = decimal m -> n = m.
Proof.
  intros H. apply DecimalNat.Unsigned.to_uint_inj. now apply digitos_inj.
Qed.

(** X19.  The rows of a batch never share a file: the names of the
    description files and of the résumé files determine the index of the
    row, and no description file has the name of a résumé file. *)
Theorem X19_file_names (i j : nat) :
  (nomeDaDescricao i = nomeDaDescricao j -> i = j)
  /\ (nomeDoCurriculo i = nomeDoCurriculo j -> i = j)
  /\ nomeDaDescricao i <> nomeDoCurriculo j.
Proof.
  unfold nomeDaDescricao, nomeDoCurriculo. split; [|split].
  - intros H. apply app_inv_head, app_inv_tail, decimal_inj in H. lia.
  - intros H. apply app_inv_head, app_inv_tail, decimal_inj in H. lia.
  - intros H. apply (f_equal (hd 0%N)) in H. vm_compute in H. discriminate H.
Qed.

(** ** The files that are written *)

Lemma includes_dentro (t a s b : jsstring) :
  t = a ++ s ++ b -> includes t s = true.
Proof. intros ->. apply includes_meio. Qed.

Section Arquivos.

Variable amb : Ambiente.

(** X20.  [salvarDescricaoEmTxt] never throws.  What it writes, if
    anything, is one text file named after the row, in the directory
    "descricoes"; the text quotes the link and the description as they were
    given, whatever the description is. *)
Theorem X20_description_file descricao i link h :
  exists evs,
    salvarDescricaoEmTxt amb descricao i link h = (h ++ evs, Ok tt)
    /\ forall caminho conteudo,
         In (WriteFileSync caminho conteudo) evs ->
         caminho = pathJoin amb (noDiretorio amb (js "descricoes"))
                     (nomeDaDescricao i)
         /\ exists t,
              conteudo = Texto t
              /\ includes t link = true
              /\ includes t descricao = true.
Proof.
  assert (C : forall data,
             includes (conteudoDaDescricao descricao link data) link = true
             /\ includes (conteudoDaDescricao descricao link data) descricao
                = true).
  { intros data. unfold conteudoDaDescricao. split.
    - apply (includes_dentro _ (js "LINK DA VAGA: ") link
               (LFLF ++ (js "DATA DE EXTRAÇÃO: " ++ data ++ LFLF)
                ++ js "DESCRIÇÃO:" ++ LF ++ linhaDeIguais ++ LFLF
                ++ descricao ++ LF)).
      now rewrite <- !app_assoc.
    - apply (includes_dentro _
               ((js "LINK DA VAGA: " ++ link ++ LFLF)
                ++ (js "DATA DE EXTRAÇÃO: " ++ data ++ LFLF)
                ++ js "DESCRIÇÃO:" ++ LF ++ linhaDeIguais ++ LFLF)
               descricao LF).
      now rewrite <- !app_assoc. }
  cbv beta iota zeta delta [salvarDescricaoEmTxt garantirDiretorio io_bind
                              io_try efeito consultar io_ret].
  set (dir := noDiretorio amb (js "descricoes")).
  set (arquivo := pathJoin amb dir (nomeDaDescricao i)).
  assert (W : forall antes data caminho conteudo,
             Forall (fun ef => forall c x, ef <> WriteFileSync c x) antes ->
             In (WriteFileSync caminho conteudo)
               (antes
                ++ [WriteFileSync arquivo
                      (Texto (conteudoDaDescricao descricao link data))]) ->
             caminho = arquivo
             /\ exists t,
                  conteudo = Texto t
                  /\ includes t link = true
                  /\ includes t descricao = true).
  { intros antes data caminho conteudo F H. apply in_app_or in H.
    destruct H as [H|[H|[]]].
    - rewrite Forall_forall in F. now destruct (F _ H caminho conteudo).
    - injection H as <- <-. split; [reflexivity|].
      exists (conteudoDaDescricao descricao link data).
      split; [reflexivity | apply C]. }
  destruct (existsSync amb h dir).
  - exists [WriteFileSync arquivo
              (Texto (conteudoDaDescricao descricao link
                        (toLocaleString amb h)))].
    split; [now destruct (writeFileSync amb h arquivo _) as [[]|e]|].
    intros caminho conteudo H.
    now apply (W [] (toLocaleString amb h) caminho conteudo (Forall_nil _)).
  - destruct (mkdirSync amb h dir) as [[]|e].
    + exists ([MkdirSync dir]
              ++ [WriteFileSync arquivo
                    (Texto (conteudoDaDescricao descricao link
                              (toLocaleString amb (h ++ [MkdirSync dir]))))]).
      split.
      * rewrite app_assoc.
        now destruct (writeFileSync amb (h ++ [MkdirSync dir]) arquivo _)
          as [[]|e].
      * intros caminho conteudo H.
        apply (W [MkdirSync dir]
                 (toLocaleString amb (h ++ [MkdirSync dir]))
                 caminho conteudo); [|exact H].
        constructor; [discriminate | constructor].
    + exists [MkdirSync dir]. split; [reflexivity|].
      intros caminho conteudo [H|[]]. discriminate H.
Qed.

(** X21.  [salvarCurriculoOtimizado] never throws.  What it writes, if
    anything, is one file named "curriculo_vaga_N.txt" after the row, in
    the directory "curriculos_otimizados"; the file holds the bytes that
    [Packer.toBuffer] returned for the DOCX document, whose last paragraph
    is the generated résumé: the file is not a text file. *)
Theorem X21_resume_file_holds_the_document curriculoOtimizado i link h :
  exists evs,
    salvarCurriculoOtimizado amb curriculoOtimizado i link h
    = (h ++ evs, Ok tt)
    /\ forall caminho conteudo,
         In (WriteFileSync caminho conteudo) evs ->
         caminho = pathJoin amb (noDiretorio amb (js "curriculos_otimizados"))
                     (js "curriculo_vaga_" ++ decimal (i + 1) ++ js ".txt")
         /\ exists paragrafos antes buffer,
              In (ToBuffer paragrafos) evs
              /\ toBuffer amb antes paragrafos = Ok buffer
              /\ last paragrafos [] = curriculoOtimizado
              /\ conteudo = Bytes buffer.
Proof.
  unfold salvarCurriculoOtimizado. cbv zeta.
  set (dir := noDiretorio amb (js "curriculos_otimizados")).
  fold (nomeDoCurriculo i).
  set (arquivo := pathJoin amb dir (nomeDoCurriculo i)).
  match goal with
  | |- context [io_bind (garantirDiretorio amb dir) (fun _ => ?k)] =>
      set (corpo := k)
  end.
  assert (S : forall h1,
             exists evs r,
               corpo h1 = (h1 ++ evs, r)
               /\ forall caminho conteudo,
                    In (WriteFileSync caminho conteudo) evs ->
                    caminho = arquivo
                    /\ exists paragrafos antes buffer,
                         In (ToBuffer paragrafos) evs
                         /\ toBuffer amb antes paragrafos = Ok buffer
                         /\ last paragrafos [] = curriculoOtimizado
                         /\ conteudo = Bytes buffer).
  { intros h1. unfold corpo.
    cbv beta iota delta [io_bind efeito consultar].
    set (ps := paragrafosDoCurriculo curriculoOtimizado i link
                 (toLocaleString amb h1)).
    destruct (toBuffer amb h1 ps) as [buffer|e] eqn:B.
    - exists [ToBuffer ps; WriteFileSync arquivo (Bytes buffer)],
        (writeFileSync amb (h1 ++ [ToBuffer ps]) arquivo (Bytes buffer)).
      split; [now rewrite <- app_assoc|].
      intros caminho conteudo [H|[H|[]]]; [discriminate H|].
      injection H as <- <-. split; [reflexivity|].
      exists ps, h1, buffer. split; [now left|].
      split; [exact B|]. split; reflexivity.
    - exists [ToBuffer ps], (Throw e). split; [reflexivity|].
      intros caminho conteudo [H|[]]. discriminate H. }
  clearbody corpo.
  cbv beta iota delta [io_try io_bind garantirDiretorio consultar efeito
                         io_ret].
  destruct (existsSync amb h dir).
  - destruct (S h) as [evs [r [E P]]]. exists evs. rewrite E.
    split; [now destruct r as [[]|e] | exact P].
  - destruct (mkdirSync amb h dir) as [[]|e].
    + destruct (S (h ++ [MkdirSync dir])) as [evs [r [E P]]].
      exists (MkdirSync dir :: evs). rewrite E. split.
      * rewrite <- app_assoc. now destruct r as [[]|e].
      * intros caminho conteudo [H|H]; [discriminate H|].
        destruct (P caminho conteudo H) as [Q [ps [antes [b [I R]]]]].
        split; [exact Q|]. exists ps, antes, b. split; [now right | exact R].
    + exists [MkdirSync dir]. split; [reflexivity|].
      intros caminho conteudo [H|[]]. discriminate H.
Qed.

End Arquivos.

(** ** The further properties on concrete inputs *)

(** X2: the direct link of the job 123. *)
Lemma X2_witness :
  linkDaVaga (platform := latin1) (construirLinkVaga (js "123"))
  = construirLinkVaga (js "123").
Proof.
  apply (X2_direct_link_is_kept (platform := latin1) (js "123")).
  - intros H. vm_compute in H. discriminate H.
  - vm_compute. reflexivity.
  - vm_compute. reflexivity.
Defined.

(** X3: a search link without a scheme; the id is read from the text. *)
Lemma X3_witness :
  extrairJobIdDoLink (platform := latin1) linkSemEsquema = Some (js "42")
  /\ exists antes depois,
       linkSemEsquema = antes ++ js "currentJobId=" ++ js "42" ++ depois.
Proof.
  assert (E : extrairJobIdDoLink (platform := latin1) linkSemEsquema
              = Some (js "42")) by (vm_compute; reflexivity).
  split; [exact E|].
  pose proof (X3_job_id_of_unparseable_link (platform := latin1)
                linkSemEsquema (mkError (js "Invalid URL")) eq_refl) as T.
  rewrite E in T. destruct T as [_ [_ [antes [depois [L _]]]]].
  exists antes, depois. exact L.
Defined.

(** X4: the element of the [data-test-id] sweep. *)
Lemma X4_witness :
  snd (baixarDescricaoVaga (platform := latin1) linkExemplo
         (sessao paginaTestId paginaTestId) [])
  = Ok texto600
  /\ (136 <= length texto600
      \/ texto600 = naoEncontrada
      \/ exists e, texto600 = erroAoBaixar e).
Proof.
  assert (H : snd (baixarDescricaoVaga (platform := latin1) linkExemplo
                     (sessao paginaTestId paginaTestId) [])
              = Ok texto600) by (vm_compute; reflexivity).
  split; [exact H|].
  exact (X4_floor_of_returned_text (platform := latin1) linkExemplo
           (sessao paginaTestId paginaTestId) [] texto600 H).
Defined.

(** X6: the largest block of the page with two blocks. *)
Lemma X6_witness :
  resultado (executar (platform := latin1) MaiorBloco paginaDoisBlocos)
  = Ok (Some (trim blocoMaior))
  /\ alguma (platform := latin1) (trim blocoMaior) (positivas MaiorBloco)
     = true.
Proof.
  assert (H : resultado (executar (platform := latin1) MaiorBloco
                           paginaDoisBlocos)
              = Ok (Some (trim blocoMaior))) by (vm_compute; reflexivity).
  split; [exact H|].
  exact (X6_positive_keyword_present (platform := latin1) MaiorBloco
           paginaDoisBlocos (trim blocoMaior)
           (or_intror (or_intror eq_refl)) H).
Defined.


(** X8: the second callback on the page with two blocks. *)
Lemma X8_witness :
  resultado (extrairAlternativa (platform := latin1) paginaDoisBlocos)
  = Ok (Some (join LF [trim blocoMenor; trim blocoMaior]))
  /\ incompleta (platform := latin1)
       (join LF [trim blocoMenor; trim blocoMaior]) = false.
Proof.
  assert (H : resultado (extrairAlternativa (platform := latin1)
                           paginaDoisBlocos)
              = Ok (Some (join LF [trim blocoMenor; trim blocoMaior])))
    by (vm_compute; reflexivity).
  split; [exact H|].
  exact (X8_rescan_text_is_complete (platform := latin1) paginaDoisBlocos
           (join LF [trim blocoMenor; trim blocoMaior]) H).
Defined.

(** X12: a session in which every call succeeds. *)
Lemma X12_witness :
  (7000
   <= esperaTotal
        (eventos (baixarDescricaoVaga (platform := latin1) linkExemplo
                    (sessao paginaCatalogo paginaCatalogo)))
   <= 13000)%N.
Proof.
  apply (X12_fixed_delays (platform := latin1) linkExemplo
           (sessao paginaCatalogo paginaCatalogo)
           (carregada paginaCatalogo paginaCatalogo)).
  vm_compute. reflexivity.
Defined.

(** X17: the installation with a prompt file. *)
Lemma X17_witness :
  exists p rest,
    fst (gerarESalvar
           (instalacao chaveExemplo (Some promptExemplo) sessaoSemRede)
           (js "Maria Silva") texto1200 0 linkExemplo [])
    = [] ++ ReadFileSync (js "/app/" ++ js "prompt_agente.txt")
           :: ChatCompletion p :: rest
    /\ usuario p = trim promptExemplo
    /\ sistema p = mensagemSistema
    /\ soma pedido rest = 0%N.
Proof.
  apply (X17_custom_prompt
           (instalacao chaveExemplo (Some promptExemplo) sessaoSemRede)
           (js "Maria Silva") texto1200 0 linkExemplo [] promptExemplo).
  - vm_compute. reflexivity.
  - vm_compute. reflexivity.
  - vm_compute. reflexivity.
  - intros H. vm_compute in H. discriminate H.
Defined.

(** X18: the installation without a prompt file. *)
Lemma X18_witness :
  exists leitura p rest,
    fst (gerarESalvar (instalacao chaveExemplo None sessaoSemRede)
           (js "Maria Silva") texto1200 0 linkExemplo [])
    = [] ++ leitura ++ ChatCompletion p :: rest
    /\ soma pedido leitura = 0%N
    /\ soma pedido rest = 0%N
    /\ includes (usuario p) (js "Maria Silva") = true
    /\ includes (usuario p) texto1200 = true.
Proof.
  apply (X18_default_prompt (instalacao chaveExemplo None sessaoSemRede)
           (js "Maria Silva") texto1200 0 linkExemplo []).
  - vm_compute. reflexivity.
  - left. vm_compute. reflexivity.
Defined.

(** The batch of the installation: three rows, the second without a link;
    two pages, two requests, one wait of two seconds, and the browser is
    closed. *)
Example lote_de_tres_linhas :
  let fim := main (platform := latin1)
               (instalacao chaveExemplo None
                  (sessao paginaCatalogo paginaCatalogo)) [] in
  snd fim = Ok Terminou
  /\ soma extracao (fst fim) = 2%N
  /\ soma pedido (fst fim) = 2%N
  /\ soma intervalo (fst fim) = 2000%N
  /\ last (fst fim) Launch = CloseBrowser.
Proof. vm_compute. repeat split. Qed.
